(** * PrajnaBots: the device sync layer, shallowly embedded

    The development follows the JavaScript sources:

    - [js/core/esp32-control.js]: [sendCleaningCommand], [updateSensorData],
      [updateCleaningProgress], [reportError], [setDeviceStatus],
      [shouldTriggerAutoCleaning], [selectCleaningMethod];
    - the database initialisation module: [initializeDatabaseForUser],
      [addDeviceToUser], [initializeGlobalConfig], [getUserDevices],
      [updateDeviceData], [batchUpdateDevice], [addHistoricalData],
      [deleteDevice];
    - the weather integration module: [getWeatherConfig],
      [fetchOpenWeatherMapData], [fetchWeatherAPIData], [updateDustLevel],
      [getWeatherConditions], [isSuitableForCleaning];
    - [js/shared/storage.js]: [setItem], [getItem], [removeItem],
      [clearStorage], [getAllKeys], [hasKey], [setWithExpiry],
      [getWithExpiry];
    - the dashboard page: [startCleaning], [stopCleaning].

    JavaScript values are an inductive type of JSON-like trees.  A number is
    the rational ([Q]) that the source's double denotes.  Comparisons are
    exact, as they are on doubles; the arithmetic operations round their
    exact result to the nearest number of 53 significant bits, ties to even
    ([Js.double]), as the double operations do.  The range of the exponent
    is not bounded: NaN, the infinities and the loss of precision of
    subnormal numbers are not modelled.  An operation whose JavaScript
    result would need string/number conversion or a non-finite number is
    outside the modelled fragment and yields [Unsupported], which no [catch]
    handles.

    The hosted services (the realtime database, the clock, the HTTP fetch, the
    browser storage) are a [World]: the database is a tree addressed by
    slash-delimited paths, and every request may be rejected by the host.
    An asynchronous function is the computation it performs between its call
    and the settlement of its promise; no other writer is interleaved. *)

From Stdlib Require Import List String Ascii Bool ZArith QArith Lia.
From Stdlib Require Import Qround Qpower Lqa.
From Stdlib Require Import DecimalString.
Import ListNotations.

Local Open Scope string_scope.
Local Open Scope Q_scope.

Set Warnings "-register-all".

(* ================================================================== *)
(** ** JavaScript values *)

Inductive value : Type :=
| VUndefined
| VNull
| VBool (b : bool)
| VNum (q : Q)
| VStr (s : string)
| VArr (items : list value)
| VObj (fields : list (string * value)).

Module Js.

(** Objects are association lists in insertion order; a key occurs once.
    The browser storage uses the same lists with strings as values. *)
Section Assoc.
Context {A : Type}.

Fixpoint lookup (k : string) (fs : list (string * A)) : option A :=
  match fs with
  | [] => None
  | (k', v) :: fs' => if String.eqb k k' then Some v else lookup k fs'
  end.

(** [o[k] = v] on the property list: overwrite in place, or append. *)
Fixpoint assign (k : string) (v : A) (fs : list (string * A))
  : list (string * A) :=
  match fs with
  | [] => [(k, v)]
  | (k', v') :: fs' =>
      if String.eqb k k' then (k, v) :: fs' else (k', v') :: assign k v fs'
  end.

(** [delete o[k]] on the property list. *)
Fixpoint remove (k : string) (fs : list (string * A)) : list (string * A) :=
  match fs with
  | [] => []
  | (k', v') :: fs' =>
      if String.eqb k k' then remove k fs' else (k', v') :: remove k fs'
  end.
End Assoc.

(** The canonical property name of the array index [i]. *)
Definition index_key (i : nat) : string :=
  NilEmpty.string_of_uint (Nat.to_uint i).

Fixpoint indexed (i : nat) (xs : list value) : list (string * value) :=
  match xs with
  | [] => []
  | x :: xs' => (index_key i, x) :: indexed (S i) xs'
  end.

Fixpoint chars (s : string) : list value :=
  match s with
  | EmptyString => []
  | String c s' => VStr (String c EmptyString) :: chars s'
  end.

(** The own enumerable properties of a value: what [{...v}] copies. *)
Definition own_fields (v : value) : list (string * value) :=
  match v with
  | VObj fs => fs
  | VArr xs => indexed 0 xs
  | VStr s => indexed 0 (chars s)
  | _ => []
  end.

Definition nullish (v : value) : bool :=
  match v with
  | VUndefined | VNull => true
  | _ => false
  end.

(** [o.k] for an [o] that is neither [null] nor [undefined]: own properties
    only.  The members of the prototypes are not modelled; no property the
    sources read is one of them. *)
Definition get_field (o : value) (k : string) : value :=
  match o with
  | VArr xs =>
      if String.eqb k "length" then VNum (inject_Z (Z.of_nat (List.length xs)))
      else match lookup k (indexed 0 xs) with Some v => v | None => VUndefined end
  | VStr s =>
      if String.eqb k "length" then VNum (inject_Z (Z.of_nat (String.length s)))
      else match lookup k (indexed 0 (chars s)) with Some v => v | None => VUndefined end
  | VObj fs => match lookup k fs with Some v => v | None => VUndefined end
  | _ => VUndefined
  end.

(** ToBoolean. *)
Definition truthy (v : value) : bool :=
  match v with
  | VUndefined | VNull => false
  | VBool b => b
  | VNum q => negb (Qeq_bool q 0)
  | VStr s => negb (String.eqb s "")
  | VArr _ | VObj _ => true
  end.

(** [a || b]. *)
Definition or_else (a b : value) : value := if truthy a then a else b.

(** A default parameter value [p = d]: used when the argument is [undefined]. *)
Definition default_param (a d : value) : value :=
  match a with
  | VUndefined => d
  | _ => a
  end.

(** [v === lit] for a primitive literal [lit]. *)
Definition strict_eq (v lit : value) : bool :=
  match v, lit with
  | VUndefined, VUndefined => true
  | VNull, VNull => true
  | VBool a, VBool b => Bool.eqb a b
  | VNum a, VNum b => Qeq_bool a b
  | VStr a, VStr b => String.eqb a b
  | _, _ => false
  end.

(** [typeof v], for the two tests the sources make. *)
Definition typeof_number (v : value) : bool :=
  match v with VNum _ => true | _ => false end.

Definition typeof_object (v : value) : bool :=
  match v with VNull | VArr _ | VObj _ => true | _ => false end.

(** ToNumber on the primitives whose conversion needs no parsing. *)
Inductive numeric : Type :=
| Finite (q : Q)
| NotANumber.

Definition to_number (v : value) : option numeric :=
  match v with
  | VUndefined => Some NotANumber
  | VNull => Some (Finite 0)
  | VBool b => Some (Finite (if b then 1 else 0))
  | VNum q => Some (Finite q)
  | VStr _ | VArr _ | VObj _ => None
  end.

Definition compare (test : Q -> Q -> bool) (a b : value) : option bool :=
  match to_number a, to_number b with
  | Some (Finite x), Some (Finite y) => Some (test x y)
  | Some _, Some _ => Some false
  | _, _ => None
  end.

(** [a > b] and [a >= b]; [None] when an operand is a string or an object. *)
Definition gt : value -> value -> option bool :=
  compare (fun x y => negb (Qle_bool x y)).
Definition ge : value -> value -> option bool :=
  compare (fun x y => Qle_bool y x).

(** *** Double arithmetic

    The double nearest to a rational.  A positive [q] with
    [2^e <= q < 2^(e+1)] lies between two neighbouring multiples of
    [2^(e-52)], the numbers of 53 significant bits around it; the result is
    the nearer one, and of two equally near ones the one whose multiplier
    is even. *)

(** The exponent [e] of a positive rational: [2^e <= q < 2^(e+1)]. *)
Definition exponent (q : Q) : Z :=
  let e := (Z.log2 (Qnum q) - Z.log2 (Zpos (Qden q)))%Z in
  if Qle_bool (2 ^ e) q then e else (e - 1)%Z.

(** The nearest integer, ties to even. *)
Definition nearest_even (x : Q) : Z :=
  let f := Qfloor x in
  match Qcompare (x - inject_Z f) (1 # 2) with
  | Lt => f
  | Gt => (f + 1)%Z
  | Eq => if Z.even f then f else (f + 1)%Z
  end.

Definition round_positive (q : Q) : Q :=
  let ulp := 2 ^ (exponent q - 52) in
  inject_Z (nearest_even (q / ulp)) * ulp.

(** The result is in lowest terms, whatever fraction presents the
    argument. *)
Definition double (q : Q) : Q :=
  let q := Qred q in
  Qred (match Qnum q with
        | Z0 => 0
        | Zpos _ => round_positive q
        | Zneg _ => - round_positive (- q)
        end).

(** A binary arithmetic operation: the exact result of [op], rounded. *)
Definition arith (op : Q -> Q -> option Q) (a b : value) : option value :=
  match to_number a, to_number b with
  | Some (Finite x), Some (Finite y) =>
      match op x y with Some r => Some (VNum (double r)) | None => None end
  | _, _ => None
  end.

(** [a + b], [a - b], [a * b], [a / b] on finite numbers; [None] when the
    JavaScript result is a string, NaN or an infinity. *)
Definition add : value -> value -> option value :=
  arith (fun x y => Some (x + y)).
Definition sub : value -> value -> option value :=
  arith (fun x y => Some (x - y)).
Definition mul : value -> value -> option value :=
  arith (fun x y => Some (x * y)).
Definition div : value -> value -> option value :=
  arith (fun x y => if Qeq_bool y 0 then None else Some (x / y)).

(** Template-literal interpolation of a value that needs no number
    formatting. *)
Definition to_string (v : value) : option string :=
  match v with
  | VUndefined => Some "undefined"
  | VNull => Some "null"
  | VBool true => Some "true"
  | VBool false => Some "false"
  | VStr s => Some s
  | VObj _ => Some "[object Object]"
  | VNum _ | VArr _ => None
  end.


(** [Object.keys(v)] for a [v] that is neither [null] nor [undefined]. *)
Definition keys (v : value) : list string := map fst (own_fields v).

(** [s.toLowerCase()] for a string of ASCII characters; [None] when the
    string has another character, whose lower case is not modelled. *)
Definition lower_char (c : ascii) : option ascii :=
  let n := nat_of_ascii c in
  if Nat.leb 128 n then None
  else if Nat.leb 65 n && Nat.leb n 90 then Some (ascii_of_nat (n + 32))
  else Some c.

Fixpoint toLowerCase (s : string) : option string :=
  match s with
  | EmptyString => Some EmptyString
  | String c s' =>
      match lower_char c, toLowerCase s' with
      | Some c', Some r => Some (String c' r)
      | _, _ => None
      end
  end.

(** [s.includes(sub)] *)
Fixpoint includes (s sub : string) : bool :=
  if String.prefix sub s then true
  else match s with
       | EmptyString => false
       | String _ s' => includes s' sub
       end.

End Js.

(* ================================================================== *)
(** ** The hosted services *)

(** What [fetch(url)] resolves to.  The response is the host's choice,
    whatever URL was requested. *)
Inductive http_result : Type :=
| NetworkError (message : string)
| Response (ok : bool) (statusLine : string) (json : value + string).

(** The environment the page runs in.  Each oracle is indexed by the number
    of earlier calls of its kind. *)
Record Host : Type := {
  clock : nat -> Z;                   (* successive readings of Date.now() *)
  rejects : nat -> option string;     (* a database request fails with this message *)
  pushKey : nat -> string;            (* the keys push() generates *)
  http : nat -> http_result;          (* the responses to fetch() *)
  isoDate : Z -> string;              (* new Date(t).toISOString().split('T')[0] *)
  jsonParse : string -> option value; (* JSON.parse, None when it throws *)
  typeErrorMessage : string -> string (* message of the TypeError of null.k *)
}.

Record World : Type := {
  host : Host;
  database : value;                             (* the realtime database tree *)
  localStorage : option (list (string * string)); (* None: storage unavailable *)
  ticks : nat;
  requests : nat;
  pushes : nat;
  fetches : nat
}.

Definition with_database (t : value) (w : World) : World :=
  {| host := host w; database := t; localStorage := localStorage w;
     ticks := ticks w; requests := requests w; pushes := pushes w;
     fetches := fetches w |}.

Definition with_localStorage (st : option (list (string * string))) (w : World)
  : World :=
  {| host := host w; database := database w; localStorage := st;
     ticks := ticks w; requests := requests w; pushes := pushes w;
     fetches := fetches w |}.

Definition tick (w : World) : World :=
  {| host := host w; database := database w; localStorage := localStorage w;
     ticks := S (ticks w); requests := requests w; pushes := pushes w;
     fetches := fetches w |}.

Definition requested (w : World) : World :=
  {| host := host w; database := database w; localStorage := localStorage w;
     ticks := ticks w; requests := S (requests w); pushes := pushes w;
     fetches := fetches w |}.

Definition pushed (w : World) : World :=
  {| host := host w; database := database w; localStorage := localStorage w;
     ticks := ticks w; requests := requests w; pushes := S (pushes w);
     fetches := fetches w |}.

Definition fetched (w : World) : World :=
  {| host := host w; database := database w; localStorage := localStorage w;
     ticks := ticks w; requests := requests w; pushes := pushes w;
     fetches := S (fetches w) |}.

(** The reading the next [Date.now()] returns. *)
Definition now (w : World) : Z := clock (host w) (ticks w).

(** The host accepts the next database request. *)
Definition accepts (w : World) : Prop := rejects (host w) (requests w) = None.

(* ================================================================== *)
(** ** Computations: state, exceptions, and the unmodelled fragment *)

Inductive outcome (A : Type) : Type :=
| Ret (a : A)                 (* normal completion *)
| Throw (message : string)    (* a thrown Error, by its [message] *)
| Unsupported.                (* outside the modelled fragment *)
Arguments Ret {A} a.
Arguments Throw {A} message.
Arguments Unsupported {A}.

Definition M (A : Type) : Type := World -> outcome A * World.

Definition ret {A} (a : A) : M A := fun w => (Ret a, w).

Definition bind {A B} (m : M A) (k : A -> M B) : M B :=
  fun w =>
    match m w with
    | (Ret a, w') => k a w'
    | (Throw e, w') => (Throw e, w')
    | (Unsupported, w') => (Unsupported, w')
    end.

Definition throw {A} (message : string) : M A := fun w => (Throw message, w).

(** [try { m } catch (error) { h error.message }]. *)
Definition try_catch {A} (m : M A) (h : string -> M A) : M A :=
  fun w =>
    match m w with
    | (Throw e, w') => h e w'
    | r => r
    end.

Definition lift {A} (o : option A) : M A :=
  fun w => match o with Some a => (Ret a, w) | None => (Unsupported, w) end.

(** [Promise.all([ma, mb])]: both requests are issued. *)
Definition both {A B} (ma : M A) (mb : M B) : M (A * B) :=
  fun w =>
    let (ra, w1) := ma w in
    let (rb, w2) := mb w1 in
    match ra, rb with
    | Ret a, Ret b => (Ret (a, b), w2)
    | Throw e, _ => (Throw e, w2)
    | Unsupported, _ => (Unsupported, w2)
    | Ret _, Throw e => (Throw e, w2)
    | Ret _, Unsupported => (Unsupported, w2)
    end.

Declare Scope js_scope.
Delimit Scope js_scope with js.
Notation "x <- m ;; k" := (bind m (fun x => k))
  (at level 61, m at next level, right associativity) : js_scope.
Notation "' pat <- m ;; k" := (bind m (fun x => match x with pat => k end))
  (at level 61, pat pattern, m at next level, right associativity) : js_scope.
Notation "'try' m 'catch' h" := (try_catch m h)
  (at level 62, m at level 61, h at level 0) : js_scope.
Local Open Scope js_scope.

(** [Date.now()]. *)
Definition Date_now : M value :=
  fun w => (Ret (VNum (inject_Z (now w))), tick w).

(** [new Date().toISOString().split('T')[0]]. *)
Definition Date_today : M value :=
  fun w => (Ret (VStr (isoDate (host w) (now w))), tick w).

(** [o.k]: a TypeError when [o] is [null] or [undefined]. *)
Definition prop (o : value) (k : string) : M value :=
  fun w =>
    if Js.nullish o then (Throw (typeErrorMessage (host w) k), w)
    else (Ret (Js.get_field o k), w).

(* ================================================================== *)
(** ** The realtime database *)

(** The hosted store is a tree addressed by slash-delimited paths.  A write
    replaces the subtree at its path and creates the nodes on the way; a
    path that leads nowhere reads as [null].  A [null] that is written stays
    in the tree as a leaf, where the hosted store would drop the key: both
    read as [null] at the key's path, and as a falsy property of the parent's
    snapshot. *)
Module Store.

(** The pieces of a slash-delimited path; empty pieces are dropped. *)
Definition emit (cur : string) : list string :=
  if String.eqb cur "" then [] else [cur].

Fixpoint pieces_from (cur : string) (s : string) : list string :=
  match s with
  | EmptyString => emit cur
  | String c s' =>
      if Ascii.eqb c "/"%char then (emit cur ++ pieces_from "" s')%list
      else pieces_from (cur ++ String c "") s'
  end.

Definition pieces (path : string) : list string := pieces_from "" path.

(** The children of a node; a primitive has none. *)
Definition children (t : value) : list (string * value) :=
  match t with
  | VObj fs => fs
  | VArr xs => Js.indexed 0 xs
  | _ => []
  end.

(** An absent child reads as [null]. *)
Definition child (t : value) (k : string) : value :=
  match Js.lookup k (children t) with
  | Some v => v
  | None => VNull
  end.

Fixpoint tree_get (t : value) (p : list string) : value :=
  match p with
  | [] => t
  | k :: p' => tree_get (child t k) p'
  end.

Fixpoint tree_set (t : value) (p : list string) (v : value) : value :=
  match p with
  | [] => v
  | k :: p' => VObj (Js.assign k (tree_set (child t k) p' v) (children t))
  end.

(** Two paths diverge when they differ at some piece: neither is a prefix of
    the other. *)
Fixpoint diverge (p q : list string) : bool :=
  match p, q with
  | k :: p', k' :: q' => if String.eqb k' k then diverge p' q' else true
  | _, _ => false
  end.

(** [after p q]: what remains of [q] below [p], when [q] is at or below [p]. *)
Fixpoint after (p q : list string) : option (list string) :=
  match p, q with
  | [], _ => Some q
  | k :: p', k' :: q' => if String.eqb k' k then after p' q' else None
  | _ :: _, [] => None
  end.

(** A multi-location update writes every entry at its path. *)
Definition tree_update (t : value) (updates : list (string * value)) : value :=
  fold_left (fun t' kv => tree_set t' (pieces (fst kv)) (snd kv)) updates t.

(** Every request reaches the host, which may reject it. *)
Definition request : M unit :=
  fun w =>
    match rejects (host w) (requests w) with
    | Some message => (Throw message, requested w)
    | None => (Ret tt, requested w)
    end.

(** [(await get(ref(database, path))).val()] *)
Definition get (path : string) : M value :=
  _ <- request ;;
  fun w => (Ret (tree_get (database w) (pieces path)), w).

(** [snapshot.exists()] *)
Definition snapshot_exists (val : value) : bool := negb (Js.nullish val).

(** [await set(ref(database, path), v)] *)
Definition set (path : string) (v : value) : M unit :=
  _ <- request ;;
  fun w => (Ret tt, with_database (tree_set (database w) (pieces path) v) w).

(** [await update(ref(database), updates)] *)
Definition update (updates : list (string * value)) : M unit :=
  _ <- request ;;
  fun w => (Ret tt, with_database (tree_update (database w) updates) w).

(** [push(child(ref(database, 'devices'), 'temp')).key]: generated locally. *)
Definition push_key : M string :=
  fun w => (Ret (pushKey (host w) (pushes w)), pushed w).

(** Reading the database of a world at a path. *)
Definition read (w : World) (path : string) : value :=
  tree_get (database w) (pieces path).


(** What the hosted store presents of a stored node: a [null] leaf is absent,
    and so is a node left without children.  The functions that list the keys
    of a node, or test the existence of a node that a deletion may have
    emptied, read their snapshots through [present].  (No function of the
    repository stores an array; an array is presented as it is.) *)
Fixpoint present (t : value) : value :=
  match t with
  | VUndefined => VNull
  | VObj fs =>
      match
        (fix each (fs : list (string * value)) : list (string * value) :=
           match fs with
           | [] => []
           | (k, c) :: rest =>
               match present c with
               | VNull => each rest
               | c' => (k, c') :: each rest
               end
           end) fs
      with
      | [] => VNull
      | fs' => VObj fs'
      end
  | _ => t
  end.

(** The children of a node that the store presents. *)
Fixpoint present_fields (fs : list (string * value)) : list (string * value) :=
  match fs with
  | [] => []
  | (k, c) :: rest =>
      match present c with
      | VNull => present_fields rest
      | c' => (k, c') :: present_fields rest
      end
  end.

(** [(await get(ref(database, path)))]: the snapshot as the store presents
    it; [snapshot.val()] is this value and [snapshot.exists()] is
    [snapshot_exists] of it. *)
Definition snapshot (path : string) : M value :=
  _ <- request ;;
  fun w => (Ret (present (tree_get (database w) (pieces path))), w).

(** The presented node of a world's database at a path. *)
Definition presented (w : World) (path : string) : value :=
  present (tree_get (database w) (pieces path)).

End Store.

(** [await fetch(url)] *)
Definition fetch : M (bool * string * (value + string)) :=
  fun w =>
    match http (host w) (fetches w) with
    | NetworkError message => (Throw message, fetched w)
    | Response ok statusLine json => (Ret (ok, statusLine, json), fetched w)
    end.

(** [await response.json()] *)
Definition response_json (json : value + string) : M value :=
  match json with
  | inl data => ret data
  | inr message => throw message
  end.

Definition result_ok : value := VObj [("success", VBool true)].

Definition result_error (message : string) : value :=
  VObj [("success", VBool false); ("error", VStr message)].

(* ================================================================== *)
(** ** js/core/esp32-control.js *)

Module Esp32Control.

(** [updateSensorData(deviceId, sensorData)] *)
Definition updateSensorData (deviceId : string) (sensorData : value) : M value :=
  try (
    timestamp <- Date_now ;;
    let updates := [] in
    (* Update environment data *)
    environment <- prop sensorData "environment" ;;
    let updates :=
      if Js.truthy environment then
        Js.assign ("devices/" ++ deviceId ++ "/environment")
          (VObj (Js.assign "timestamp" timestamp (Js.own_fields environment)))
          updates
      else updates in
    (* Update panel parameters *)
    parameters <- prop sensorData "parameters" ;;
    updates <-
      (if Js.truthy parameters then
         v <- prop parameters "voltage" ;;
         let voltage := Js.or_else v (VNum 0) in
         c <- prop parameters "current" ;;
         let current := Js.or_else c (VNum 0) in
         power <- lift (Js.mul voltage current) ;;
         ret (Js.assign ("devices/" ++ deviceId ++ "/panelParameters")
                (VObj [("voltage", voltage); ("current", current);
                       ("power", power); ("timestamp", timestamp)])
                updates)
       else ret updates) ;;
    (* Update device info *)
    let updates :=
      Js.assign ("devices/" ++ deviceId ++ "/info/lastUpdated") timestamp updates in
    let updates :=
      Js.assign ("devices/" ++ deviceId ++ "/info/status") (VStr "online") updates in
    _ <- Store.update updates ;;
    ret result_ok
  ) catch (fun message => ret (result_error message)).

(** [updateCleaningProgress(deviceId, progress, waterUsed = 0)]; an omitted
    argument is [VUndefined]. *)
Definition updateCleaningProgress (deviceId : string) (progress waterUsed : value)
  : M value :=
  let waterUsed := Js.default_param waterUsed (VNum 0) in
  try (
    let updates := [] in
    let updates :=
      Js.assign ("devices/" ++ deviceId ++ "/cleaningControl/currentOperation/progress")
        progress updates in
    let updates :=
      Js.assign ("devices/" ++ deviceId ++ "/cleaningControl/currentOperation/waterUsed")
        waterUsed updates in
    (* If progress reaches 100%, mark as completed *)
    reached <- lift (Js.ge progress (VNum 100)) ;;
    updates <-
      (if reached : bool then
         let updates :=
           Js.assign ("devices/" ++ deviceId ++ "/cleaningControl/status")
             (VStr "completed") updates in
         let updates :=
           Js.assign ("devices/" ++ deviceId ++ "/cleaningControl/trigger")
             (VNum 0) updates in
         t <- Date_now ;;
         ret (Js.assign
                ("devices/" ++ deviceId ++ "/cleaningControl/autoSettings/lastCleaning")
                t updates)
       else ret updates) ;;
    _ <- Store.update updates ;;
    ret result_ok
  ) catch (fun message => ret (result_error message)).

(** [1000 * 60 * 60 * 24]: the milliseconds of a day. *)
Definition msPerDay : Q := 1000 * 60 * 60 * 24.

(** [shouldTriggerAutoCleaning(deviceId)] *)
Definition shouldTriggerAutoCleaning (deviceId : string) : M bool :=
  try (
    '(cleaningSnap, statusSnap) <-
      both (Store.get ("devices/" ++ deviceId ++ "/cleaningControl/autoSettings"))
           (Store.get ("devices/" ++ deviceId ++ "/panelStatus")) ;;
    if negb (Store.snapshot_exists cleaningSnap)
       || negb (Store.snapshot_exists statusSnap)
    then ret false
    else
      let autoSettings := cleaningSnap in
      let panelStatus := statusSnap in
      (* Check if auto mode is enabled *)
      enabled <- prop autoSettings "enabled" ;;
      if negb (Js.truthy enabled) then ret false
      else
        (* Check dust threshold *)
        dustLevel <- prop panelStatus "dustLevel" ;;
        dustThreshold <- prop autoSettings "dustThreshold" ;;
        exceeded <- lift (Js.ge dustLevel dustThreshold) ;;
        if exceeded : bool then ret true
        else
          (* Check schedule *)
          scheduleEnabled <- prop autoSettings "scheduleEnabled" ;;
          lastCleaning <- prop autoSettings "lastCleaning" ;;
          if Js.truthy scheduleEnabled && Js.truthy lastCleaning then
            now <- Date_now ;;
            lastCleaning <- prop autoSettings "lastCleaning" ;;
            elapsed <- lift (Js.sub now lastCleaning) ;;
            daysSinceLastCleaning <- lift (Js.div elapsed (VNum msPerDay)) ;;
            schedule <- prop autoSettings "schedule" ;;
            if Js.strict_eq schedule (VStr "daily") then
              lift (Js.ge daysSinceLastCleaning (VNum 1))
            else if Js.strict_eq schedule (VStr "weekly") then
              lift (Js.ge daysSinceLastCleaning (VNum 7))
            else if Js.strict_eq schedule (VStr "monthly") then
              lift (Js.ge daysSinceLastCleaning (VNum 30))
            else ret false
          else ret false
  ) catch (fun _ => ret false).

(** [selectCleaningMethod(deviceId)] *)
Definition selectCleaningMethod (deviceId : string) : M string :=
  try (
    '(statusSnap, envSnap) <-
      both (Store.get ("devices/" ++ deviceId ++ "/panelStatus"))
           (Store.get ("devices/" ++ deviceId ++ "/environment")) ;;
    if negb (Store.snapshot_exists statusSnap)
       || negb (Store.snapshot_exists envSnap)
    then ret "dry" (* Default to dry *)
    else
      let panelStatus := statusSnap in
      let environment := envSnap in
      dustLevel <- prop panelStatus "dustLevel" ;;
      heavy <- lift (Js.gt dustLevel (VNum 100)) ;;
      if heavy : bool then
        temperature <- prop environment "temperature" ;;
        hot <- lift (Js.gt temperature (VNum 45)) ;;
        if hot : bool then ret "dry" else ret "wet"
      else ret "dry"
  ) catch (fun _ => ret "dry").


(** [sendCleaningCommand(deviceId, trigger, method, pwm)] *)
Definition sendCleaningCommand (deviceId : string) (trigger method pwm : value)
  : M value :=
  try (
    let updates := [] in
    (* Set trigger signal *)
    let updates :=
      Js.assign ("devices/" ++ deviceId ++ "/cleaningControl/trigger")
        trigger updates in
    (* Set method *)
    let updates :=
      Js.assign ("devices/" ++ deviceId ++ "/cleaningControl/method")
        method updates in
    (* Set appropriate PWM *)
    let updates :=
      if Js.strict_eq method (VStr "dry") then
        Js.assign ("devices/" ++ deviceId ++ "/cleaningControl/pwmDry") pwm updates
      else
        Js.assign ("devices/" ++ deviceId ++ "/cleaningControl/pwmWet") pwm updates in
    (* Update status *)
    let updates :=
      Js.assign ("devices/" ++ deviceId ++ "/cleaningControl/status")
        (if Js.strict_eq trigger (VNum 1) then VStr "cleaning" else VStr "idle")
        updates in
    (* Update timestamp *)
    t <- Date_now ;;
    let updates :=
      Js.assign ("devices/" ++ deviceId ++ "/cleaningControl/lastUpdated")
        t updates in
    (* If starting, initialize operation *)
    updates <-
      (if Js.strict_eq trigger (VNum 1) then
         startTime <- Date_now ;;
         let updates :=
           Js.assign
             ("devices/" ++ deviceId ++ "/cleaningControl/currentOperation/startTime")
             startTime updates in
         let updates :=
           Js.assign
             ("devices/" ++ deviceId ++ "/cleaningControl/currentOperation/progress")
             (VNum 0) updates in
         ret (Js.assign
                ("devices/" ++ deviceId ++ "/cleaningControl/currentOperation/waterUsed")
                (VNum 0) updates)
       else ret updates) ;;
    _ <- Store.update updates ;;
    ret result_ok
  ) catch (fun message => ret (result_error message)).

(** [reportError(deviceId, errorMessage)] *)
Definition reportError (deviceId : string) (errorMessage : value) : M value :=
  try (
    let updates := [] in
    let updates :=
      Js.assign ("devices/" ++ deviceId ++ "/cleaningControl/status")
        (VStr "error") updates in
    let updates :=
      Js.assign ("devices/" ++ deviceId ++ "/cleaningControl/trigger")
        (VNum 0) updates in
    t <- Date_now ;;
    let updates :=
      Js.assign ("devices/" ++ deviceId ++ "/cleaningControl/lastError")
        (VObj [("message", errorMessage); ("timestamp", t)]) updates in
    _ <- Store.update updates ;;
    ret result_ok
  ) catch (fun message => ret (result_error message)).

(** [setDeviceStatus(deviceId, isOnline)] *)
Definition setDeviceStatus (deviceId : string) (isOnline : value) : M value :=
  try (
    let updates := [] in
    let updates :=
      Js.assign ("devices/" ++ deviceId ++ "/info/status")
        (if Js.truthy isOnline then VStr "online" else VStr "offline")
        updates in
    t <- Date_now ;;
    let updates :=
      Js.assign ("devices/" ++ deviceId ++ "/info/lastUpdated") t updates in
    _ <- Store.update updates ;;
    ret result_ok
  ) catch (fun message => ret (result_error message)).

End Esp32Control.

(* ================================================================== *)
(** ** The database initialisation module *)

Module Database.

(** The [deviceData] literal of [addDeviceToUser], by the values its
    expressions evaluate to, in evaluation order. *)
Definition deviceData (userId : string)
    (name location installDate panelRating lat lon : value)
    (infoUpdated envTime paramTime statusUpdated controlUpdated : value)
  : value :=
  VObj [
    ("info", VObj [
      ("name", name);
      ("location", location);
      ("installDate", installDate);
      ("panelRating", panelRating);
      ("lat", lat);
      ("lon", lon);
      ("ownerId", VStr userId);
      ("lastUpdated", infoUpdated);
      ("status", VStr "online")]);
    ("environment", VObj [
      ("humidity", VNum 0);
      ("temperature", VNum 0);
      ("dustPresence", VNum 0);
      ("timestamp", envTime)]);
    ("panelParameters", VObj [
      ("voltage", VNum 0);
      ("current", VNum 0);
      ("power", VNum 0);
      ("timestamp", paramTime)]);
    ("panelStatus", VObj [
      ("dustLevel", VNum 0);
      ("dustCategory", VStr "light");
      ("currentEfficiency", VNum 0);
      ("dailyLoss", VObj [
        ("kwh", VNum 0); ("percentage", VNum 0); ("currency", VNum 0)]);
      ("weeklyLoss", VObj [("kwh", VNum 0); ("avgPercentage", VNum 0)]);
      ("monthlyLoss", VObj [("kwh", VNum 0); ("avgPercentage", VNum 0)]);
      ("lastUpdated", statusUpdated)]);
    ("cleaningControl", VObj [
      ("mode", VStr "manual");
      ("method", VStr "dry");
      ("status", VStr "idle");
      ("pwmDry", VNum 150);
      ("pwmWet", VNum 180);
      ("trigger", VNum 0);
      ("autoSettings", VObj [
        ("enabled", VBool false);
        ("dustThreshold", VNum 100);
        ("scheduleEnabled", VBool false);
        ("schedule", VStr "daily");
        ("lastCleaning", VNull);
        ("nextScheduled", VNull)]);
      ("currentOperation", VObj [
        ("startTime", VNull);
        ("progress", VNum 0);
        ("waterUsed", VNum 0);
        ("estimatedCompletion", VNull)]);
      ("lastUpdated", controlUpdated)]);
    ("historicalData", VObj [("daily", VObj [])])
  ].

(** [addDeviceToUser(userId, deviceInfo = {})] *)
Definition addDeviceToUser (userId : string) (deviceInfo : value) : M value :=
  let deviceInfo := Js.default_param deviceInfo (VObj []) in
  try (
    (* Generate unique device ID *)
    deviceId <- Store.push_key ;;
    (* Add device reference to user *)
    _ <- Store.set ("users/" ++ userId ++ "/devices/" ++ deviceId) (VBool true) ;;
    (* Create complete device structure *)
    name <- prop deviceInfo "name" ;;
    location <- prop deviceInfo "location" ;;
    installDate <- Date_today ;;
    panelRating <- prop deviceInfo "panelRating" ;;
    lat <- prop deviceInfo "lat" ;;
    lon <- prop deviceInfo "lon" ;;
    infoUpdated <- Date_now ;;
    envTime <- Date_now ;;
    paramTime <- Date_now ;;
    statusUpdated <- Date_now ;;
    controlUpdated <- Date_now ;;
    _ <- Store.set ("devices/" ++ deviceId)
           (deviceData userId
              (Js.or_else name (VStr "Solar Panel Device"))
              (Js.or_else location (VStr "Not specified"))
              installDate
              (Js.or_else panelRating (VNum 300))
              (Js.or_else lat (VNum 0))
              (Js.or_else lon (VNum 0))
              infoUpdated envTime paramTime statusUpdated controlUpdated) ;;
    ret (VObj [("success", VBool true);
               ("deviceId", VStr deviceId);
               ("message", VStr "Device added successfully")])
  ) catch (fun message => ret (result_error message)).


(** [initializeDatabaseForUser(userId, userEmail, displayName)] *)
Definition initializeDatabaseForUser (userId : string)
    (userEmail displayName : value) : M value :=
  try (
    (* Check if user already exists *)
    snapshot <- Store.snapshot ("users/" ++ userId) ;;
    if Store.snapshot_exists snapshot then
      ret (VObj [("success", VBool true);
                 ("message", VStr "Already initialized")])
    else
      (* Create user profile *)
      createdAt <- Date_now ;;
      lastLogin <- Date_now ;;
      _ <- Store.set ("users/" ++ userId ++ "/profile")
             (VObj [("displayName", Js.or_else displayName (VStr "User"));
                    ("email", userEmail);
                    ("createdAt", createdAt);
                    ("photoURL", VNull);
                    ("lastLogin", lastLogin)]) ;;
      ret (VObj [("success", VBool true);
                 ("message", VStr "Database initialized successfully")])
  ) catch (fun message => ret (result_error message)).

(** The configuration [initializeGlobalConfig] writes. *)
Definition globalConfig : value :=
  VObj [
    ("weatherAPI", VObj [
      ("provider", VStr "openweathermap");
      ("apiKey", VStr "");
      ("updateInterval", VNum 1800000)]);
    ("ratesAndConstants", VObj [
      ("electricityRate", VNum 0.50);
      ("sunHoursAvg", VNum 5.5);
      ("efficiencyFactor", VNum 0.85)])
  ].

(** [initializeGlobalConfig()] *)
Definition initializeGlobalConfig : M value :=
  try (
    snapshot <- Store.snapshot "config" ;;
    _ <- (if negb (Store.snapshot_exists snapshot)
          then Store.set "config" globalConfig
          else ret tt) ;;
    ret result_ok
  ) catch (fun message => ret (result_error message)).

(** [getUserDevices(userId)] *)
Definition getUserDevices (userId : string) : M value :=
  try (
    snapshot <- Store.snapshot ("users/" ++ userId ++ "/devices") ;;
    if Store.snapshot_exists snapshot
    then ret (VArr (map VStr (Js.keys snapshot)))
    else ret (VArr [])
  ) catch (fun _ => ret (VArr [])).

(** [updateDeviceData(deviceId, path, value)] *)
Definition updateDeviceData (deviceId path : string) : value -> M value :=
  fun value =>
  try (
    let fullPath := "devices/" ++ deviceId ++ "/" ++ path in
    _ <- Store.set fullPath value ;;
    ret result_ok
  ) catch (fun message => ret (result_error message)).

(** [Object.keys(updates).forEach(key => { formattedUpdates[...] = updates[key] })] *)
Definition formatUpdates (deviceId : string) (updates : value)
  : list (string * value) :=
  fold_left
    (fun formattedUpdates key =>
       Js.assign ("devices/" ++ deviceId ++ "/" ++ key)
         (Js.get_field updates key) formattedUpdates)
    (Js.keys updates) [].

(** [batchUpdateDevice(deviceId, updates)] *)
Definition batchUpdateDevice (deviceId : string) (updates : value) : M value :=
  try (
    (* Object.keys(null) is a TypeError *)
    _ <- prop updates "keys" ;;
    let formattedUpdates := formatUpdates deviceId updates in
    _ <- Store.update formattedUpdates ;;
    ret result_ok
  ) catch (fun message => ret (result_error message)).

(** [addHistoricalData(deviceId, date, data)] *)
Definition addHistoricalData (deviceId date : string) (data : value) : M value :=
  try (
    let path := "devices/" ++ deviceId ++ "/historicalData/daily/" ++ date in
    timestamp <- Date_now ;;
    _ <- Store.set path
           (VObj (Js.assign "timestamp" timestamp (Js.own_fields data))) ;;
    ret result_ok
  ) catch (fun message => ret (result_error message)).

(** [deleteDevice(userId, deviceId)] *)
Definition deleteDevice (userId deviceId : string) : M value :=
  try (
    (* Remove from user's device list *)
    _ <- Store.set ("users/" ++ userId ++ "/devices/" ++ deviceId) VNull ;;
    (* Remove device data *)
    _ <- Store.set ("devices/" ++ deviceId) VNull ;;
    ret result_ok
  ) catch (fun message => ret (result_error message)).

End Database.

(* ================================================================== *)
(** ** The weather integration module *)

Module Weather.

(** [getWeatherConfig()] *)
Definition getWeatherConfig : M value :=
  try (
    snapshot <- Store.get "config/weatherAPI" ;;
    if Store.snapshot_exists snapshot then ret snapshot
    else ret (VObj [("provider", VStr "openweathermap");
                    ("apiKey", VStr "");
                    ("updateInterval", VNum 1800000)])
  ) catch (fun _ => ret VNull).

(** [fetchOpenWeatherMapData(lat, lon, apiKey)] *)
Definition fetchOpenWeatherMapData (lat lon apiKey : value) : M value :=
  if negb (Js.truthy apiKey) then ret VNull
  else
    try (
      '(ok, statusLine, json) <- fetch ;;
      if negb ok then throw ("API request failed: " ++ statusLine)
      else
        data <- response_json json ;;
        list <- prop data "list" ;;
        length <- (if Js.truthy list then prop list "length" else ret VUndefined) ;;
        if negb (Js.truthy list) || Js.strict_eq length (VNum 0)
        then throw "No air pollution data available"
        else
          first <- prop list "0" ;;
          components <- prop first "components" ;;
          (* PM2.5 and PM10 are the main dust indicators *)
          p <- prop components "pm2_5" ;;
          let pm25 := Js.or_else p (VNum 0) in
          p <- prop components "pm10" ;;
          let pm10 := Js.or_else p (VNum 0) in
          (* Calculate average dust level *)
          sum <- lift (Js.add pm25 pm10) ;;
          dustLevel <- lift (Js.div sum (VNum 2)) ;;
          (* Categorize dust level *)
          high <- lift (Js.gt dustLevel (VNum 150)) ;;
          moderate <- lift (Js.gt dustLevel (VNum 50)) ;;
          let category :=
            if high : bool then "high"
            else if moderate : bool then "moderate"
            else "light" in
          main <- prop first "main" ;;
          aqi <- prop main "aqi" ;;
          timestamp <- Date_now ;;
          ret (VObj [("dustLevel", dustLevel);
                     ("dustCategory", VStr category);
                     ("pm25", pm25);
                     ("pm10", pm10);
                     ("aqi", aqi);
                     ("timestamp", timestamp)])
    ) catch (fun _ => ret VNull).

(** [fetchWeatherAPIData(lat, lon, apiKey)] *)
Definition fetchWeatherAPIData (lat lon apiKey : value) : M value :=
  if negb (Js.truthy apiKey) then ret VNull
  else
    try (
      '(ok, statusLine, json) <- fetch ;;
      if negb ok then throw ("API request failed: " ++ statusLine)
      else
        data <- response_json json ;;
        current <- prop data "current" ;;
        quality <- (if Js.truthy current then prop current "air_quality"
                    else ret VUndefined) ;;
        if negb (Js.truthy current) || negb (Js.truthy quality)
        then throw "No air quality data available"
        else
          let airQuality := quality in
          (* Get PM2.5 and PM10 *)
          p <- prop airQuality "pm2_5" ;;
          let pm25 := Js.or_else p (VNum 0) in
          p <- prop airQuality "pm10" ;;
          let pm10 := Js.or_else p (VNum 0) in
          (* Calculate average dust level *)
          sum <- lift (Js.add pm25 pm10) ;;
          dustLevel <- lift (Js.div sum (VNum 2)) ;;
          (* Categorize dust level *)
          high <- lift (Js.gt dustLevel (VNum 150)) ;;
          moderate <- lift (Js.gt dustLevel (VNum 50)) ;;
          let category :=
            if high : bool then "high"
            else if moderate : bool then "moderate"
            else "light" in
          aqi <- prop airQuality "us-epa-index" ;;
          timestamp <- Date_now ;;
          ret (VObj [("dustLevel", dustLevel);
                     ("dustCategory", VStr category);
                     ("pm25", pm25);
                     ("pm10", pm10);
                     ("aqi", aqi);
                     ("timestamp", timestamp)])
    ) catch (fun _ => ret VNull).

(** [updateDustLevel(deviceId)] *)
Definition updateDustLevel (deviceId : string) : M value :=
  try (
    (* Get device location *)
    deviceInfo <- Store.get ("devices/" ++ deviceId ++ "/info") ;;
    if negb (Store.snapshot_exists deviceInfo) then throw "Device not found"
    else
      lat <- prop deviceInfo "lat" ;;
      lon <- prop deviceInfo "lon" ;;
      if negb (Js.truthy lat) || negb (Js.truthy lon)
      then throw "Device location not set"
      else
        (* Get weather API config *)
        config <- getWeatherConfig ;;
        if negb (Js.truthy config) then throw "Weather API config not available"
        else
          (* Fetch dust data based on provider *)
          provider <- prop config "provider" ;;
          dustData <-
            (if Js.strict_eq provider (VStr "openweathermap") then
               apiKey <- prop config "apiKey" ;;
               fetchOpenWeatherMapData lat lon apiKey
             else if Js.strict_eq provider (VStr "weatherapi") then
               apiKey <- prop config "apiKey" ;;
               fetchWeatherAPIData lat lon apiKey
             else
               shown <- lift (Js.to_string provider) ;;
               throw ("Unknown provider: " ++ shown)) ;;
          if negb (Js.truthy dustData) then throw "Failed to fetch dust data"
          else
            (* Update device panel status *)
            let updates := [] in
            dustLevel <- prop dustData "dustLevel" ;;
            let updates :=
              Js.assign ("devices/" ++ deviceId ++ "/panelStatus/dustLevel")
                dustLevel updates in
            dustCategory <- prop dustData "dustCategory" ;;
            let updates :=
              Js.assign ("devices/" ++ deviceId ++ "/panelStatus/dustCategory")
                dustCategory updates in
            t <- Date_now ;;
            let updates :=
              Js.assign ("devices/" ++ deviceId ++ "/panelStatus/lastUpdated")
                t updates in
            _ <- Store.update updates ;;
            ret (VObj [("success", VBool true); ("dustData", dustData)])
  ) catch (fun message => ret (result_error message)).


(** [getWeatherConditions(lat, lon)].  The message of the failed request,
    which only the console shows, is rendered from the status line. *)
Definition getWeatherConditions (lat lon : value) : M value :=
  try (
    config <- getWeatherConfig ;;
    apiKey <- (if Js.truthy config then prop config "apiKey" else ret VUndefined) ;;
    if negb (Js.truthy config) || negb (Js.truthy apiKey)
    then throw "Weather API not configured"
    else
      '(ok, statusLine, json) <- fetch ;;
      if negb ok then throw ("Weather API request failed: " ++ statusLine)
      else
        data <- response_json json ;;
        main <- prop data "main" ;;
        temperature <- prop main "temp" ;;
        main <- prop data "main" ;;
        humidity <- prop main "humidity" ;;
        weather <- prop data "weather" ;;
        first <- prop weather "0" ;;
        description <- prop first "description" ;;
        wind <- prop data "wind" ;;
        windSpeed <- prop wind "speed" ;;
        clouds <- prop data "clouds" ;;
        cloudiness <- prop clouds "all" ;;
        timestamp <- Date_now ;;
        ret (VObj [("temperature", temperature);
                   ("humidity", humidity);
                   ("description", description);
                   ("windSpeed", windSpeed);
                   ("cloudiness", cloudiness);
                   ("timestamp", timestamp)])
  ) catch (fun _ => ret VNull).

(** [weather.description.toLowerCase().includes('rain')]: a TypeError when
    the description is not a string. *)
Definition mentionsRain (description : value) : M bool :=
  match description with
  | VStr s =>
      lowered <- lift (Js.toLowerCase s) ;;
      ret (Js.includes lowered "rain")
  | _ => fun w => (Throw (typeErrorMessage (host w) "toLowerCase"), w)
  end.

(** [isSuitableForCleaning(lat, lon)] *)
Definition isSuitableForCleaning (lat lon : value) : M bool :=
  try (
    weather <- getWeatherConditions lat lon ;;
    if negb (Js.truthy weather) then
      ret true (* Default to allowing cleaning if we can't get weather *)
    else
      description <- prop weather "description" ;;
      raining <- mentionsRain description ;;
      if raining : bool then ret false
      else
        windSpeed <- prop weather "windSpeed" ;;
        windy <- lift (Js.gt windSpeed (VNum 15)) ;;
        if windy : bool then ret false
        else
          temperature <- prop weather "temperature" ;;
          hot <- lift (Js.gt temperature (VNum 50)) ;;
          if hot : bool then ret false
          else ret true
  ) catch (fun _ => ret true). (* Default to allowing cleaning *)

End Weather.

(* ================================================================== *)
(** ** js/shared/storage.js *)

Module StorageUtil.

(** [getItem(key, defaultValue = null)] *)
Definition getItem (key : string) (defaultValue : value) : M value :=
  let defaultValue := Js.default_param defaultValue VNull in
  fun w =>
    match localStorage w with
    | None => (Ret defaultValue, w)
    | Some storage =>
        if String.eqb key "" then (Ret defaultValue, w)
        else
          match Js.lookup key storage with
          | None => (Ret defaultValue, w)           (* raw == null *)
          | Some raw =>
              match jsonParse (host w) raw with
              | Some parsed => (Ret parsed, w)
              | None => (Ret defaultValue, w)       (* catch *)
              end
          end
    end.

(** [removeItem(key)] *)
Definition removeItem (key : string) : M bool :=
  fun w =>
    match localStorage w with
    | None => (Ret false, w)
    | Some storage =>
        if String.eqb key "" then (Ret false, w)
        else (Ret true, with_localStorage (Some (Js.remove key storage)) w)
    end.

(** [getWithExpiry(key, defaultValue = null)] *)
Definition getWithExpiry (key : string) (defaultValue : value) : M value :=
  let defaultValue := Js.default_param defaultValue VNull in
  payload <- getItem key VUndefined ;;
  if negb (Js.truthy payload) || negb (Js.typeof_object payload)
  then ret defaultValue
  else
    let value := Js.get_field payload "value" in
    let expiry := Js.get_field payload "expiry" in
    if negb (Js.typeof_number expiry) then ret defaultValue
    else
      now <- Date_now ;;
      expired <- lift (Js.gt now expiry) ;;
      if expired : bool then
        _ <- removeItem key ;;
        ret defaultValue
      else ret value.


(** [isStorageAvailable()] *)
Definition isStorageAvailable : M bool :=
  fun w => (Ret (match localStorage w with Some _ => true | None => false end), w).

(** [removeItem], [clearStorage], [getAllKeys] and [hasKey] read or empty the
    storage; [setItem] and [setWithExpiry] serialise.  [JSON.stringify] and
    the storage's quota belong to the browser. *)
Section Writing.
(** [JSON.stringify(v)] for a [v] other than [undefined]. *)
Variable JSON_stringify : value -> string.
(** [storage.setItem(key, raw)] throws: the quota is exceeded. *)
Variable quotaExceeded : list (string * string) -> string -> string -> bool.

(** The string [storage.setItem] stores for [JSON.stringify(v)]:
    [JSON.stringify(undefined)] is [undefined], stored as its name. *)
Definition stored (v : value) : string :=
  match v with
  | VUndefined => "undefined"
  | _ => JSON_stringify v
  end.

(** [setItem(key, value)] *)
Definition setItem (key : string) (value : value) : M bool :=
  fun w =>
    match localStorage w with
    | None => (Ret false, w)
    | Some storage =>
        if String.eqb key "" then (Ret false, w)
        else if quotaExceeded storage key (stored value) then (Ret false, w)
        else (Ret true,
              with_localStorage (Some (Js.assign key (stored value) storage)) w)
    end.

(** [setWithExpiry(key, value, ttl)] *)
Definition setWithExpiry (key : string) (value ttl : value) : M bool :=
  expired <- (if Js.typeof_number ttl then lift (Js.ge (VNum 0) ttl)
              else ret true) ;;
  if negb (Js.typeof_number ttl) || expired then ret false
  else
    now <- Date_now ;;
    expiry <- lift (Js.add now ttl) ;;
    let payload := VObj [("value", value); ("expiry", expiry)] in
    setItem key payload.

End Writing.

(** [clearStorage()] *)
Definition clearStorage : M bool :=
  fun w =>
    match localStorage w with
    | None => (Ret false, w)
    | Some _ => (Ret true, with_localStorage (Some []) w)
    end.

(** [getAllKeys()] *)
Definition getAllKeys : M (list string) :=
  fun w =>
    match localStorage w with
    | None => (Ret [], w)
    | Some storage => (Ret (map fst storage), w)
    end.

(** [hasKey(key)] *)
Definition hasKey (key : string) : M bool :=
  fun w =>
    match localStorage w with
    | None => (Ret false, w)
    | Some storage =>
        if String.eqb key "" then (Ret false, w)
        else (Ret (match Js.lookup key storage with
                   | Some _ => true
                   | None => false
                   end), w)
    end.

End StorageUtil.


(* ================================================================== *)
(** ** The dashboard page: the cleaning buttons *)

Module Dashboard.

(** [!selectedDeviceId]: no device is selected ([null]), or its identifier is
    the empty string. *)
Definition noDevice (selectedDeviceId : option string) : bool :=
  match selectedDeviceId with
  | None => true
  | Some deviceId => String.eqb deviceId ""
  end.

Definition selected (selectedDeviceId : option string) : string :=
  match selectedDeviceId with
  | None => ""
  | Some deviceId => deviceId
  end.

(** [startCleaning()], by the selected device.  [batchUpdateDevice] does not
    throw, and its result is not looked at. *)
Definition startCleaning (selectedDeviceId : option string) : M unit :=
  if noDevice selectedDeviceId then ret tt
  else
    try (
      startTime <- Date_now ;;
      let updates :=
        VObj [("cleaningControl/trigger", VNum 1);
              ("cleaningControl/status", VStr "cleaning");
              ("cleaningControl/currentOperation/startTime", startTime);
              ("cleaningControl/currentOperation/progress", VNum 0);
              ("cleaningControl/currentOperation/waterUsed", VNum 0)] in
      _ <- Database.batchUpdateDevice (selected selectedDeviceId) updates ;;
      ret tt
    ) catch (fun _ => ret tt).

(** [stopCleaning()] *)
Definition stopCleaning (selectedDeviceId : option string) : M unit :=
  if noDevice selectedDeviceId then ret tt
  else
    try (
      let updates :=
        VObj [("cleaningControl/trigger", VNum 0);
              ("cleaningControl/status", VStr "idle")] in
      _ <- Database.batchUpdateDevice (selected selectedDeviceId) updates ;;
      ret tt
    ) catch (fun _ => ret tt).

End Dashboard.

(* ================================================================== *)
(** ** Vocabulary of the statements *)

(** [v] is the number [q], up to the representation of the rational. *)
Definition is_num (v : value) (q : Q) : Prop :=
  exists d, v = VNum d /\ d == q.

(** The computation returns the boolean that decides [P]. *)
Definition returns_iff (r : outcome bool) (P : Prop) : Prop :=
  exists b, r = Ret b /\ (b = true <-> P).




(** The numeric telemetry of a device, by path under the device. *)
Definition zeroedTelemetry : list string :=
  ["environment/humidity"; "environment/temperature"; "environment/dustPresence";
   "panelParameters/voltage"; "panelParameters/current"; "panelParameters/power";
   "panelStatus/dustLevel"; "panelStatus/currentEfficiency";
   "panelStatus/dailyLoss/kwh"; "panelStatus/dailyLoss/percentage";
   "panelStatus/dailyLoss/currency";
   "panelStatus/weeklyLoss/kwh"; "panelStatus/weeklyLoss/avgPercentage";
   "panelStatus/monthlyLoss/kwh"; "panelStatus/monthlyLoss/avgPercentage";
   "cleaningControl/currentOperation/progress";
   "cleaningControl/currentOperation/waterUsed"].

(** The computation leaves the database and the browser storage as they
    are, whatever it returns. *)
Definition read_only {A : Type} (m : M A) : Prop :=
  forall w,
    database (snd (m w)) = database w /\
    localStorage (snd (m w)) = localStorage w.

(** The computation writes to the database only when it returns a value
    that satisfies [P]. *)
Definition writes_only_with {A : Type} (P : A -> Prop) (m : M A) : Prop :=
  forall w,
    match m w with
    | (Ret a, w') => database w' = database w \/ P a
    | (_, w') => database w' = database w
    end.

(** [s] has [sub] somewhere inside. *)
Definition contains (s sub : string) : Prop :=
  exists before after, s = before ++ sub ++ after.

(** The result object reports success. *)
Definition succeeded (result : value) : Prop :=
  Js.get_field result "success" = VBool true.

(** ** Sample worlds *)

Module Sample.

(** An air-pollution response of the first provider. *)
Definition airPollution (pm2_5 pm10 : Q) : value :=
  VObj [("list", VArr [VObj [
    ("main", VObj [("aqi", VNum 2)]);
    ("components", VObj [("pm2_5", VNum pm2_5); ("pm10", VNum pm10)])]])].


(** A parser knowing one stored envelope. *)
Definition parseEnvelope (raw : string) : option value :=
  if String.eqb raw "{'value':'dark','expiry':5000}"
  then Some (VObj [("value", VStr "dark"); ("expiry", VNum 5000)])
  else None.

Definition aHost (time : Z) (body : value) : Host := {|
  clock := fun _ => time;
  rejects := fun _ => None;
  pushKey := fun _ => "-NxPanel01";
  http := fun _ => Response true "200 OK" (inl body);
  isoDate := fun _ => "2024-05-01";
  jsonParse := parseEnvelope;
  typeErrorMessage := fun k => "Cannot read properties of undefined"
|}.

Definition aWorld (time : Z) (body : value) (db : value) : World := {|
  host := aHost time body;
  database := db;
  localStorage := Some [("theme", "{'value':'dark','expiry':5000}")];
  ticks := 0; requests := 0; pushes := 0; fetches := 0
|}.

(** A database holding one device, by the fields the decision rules read. *)
Definition deviceTree (autoSettings : list (string * value))
    (dustLevel temperature : Q) (lat lon : Q) : value :=
  VObj [("devices", VObj [("panel-7", VObj [
    ("info", VObj [("lat", VNum lat); ("lon", VNum lon)]);
    ("environment", VObj [("temperature", VNum temperature)]);
    ("panelStatus", VObj [("dustLevel", VNum dustLevel)]);
    ("cleaningControl", VObj [
      ("status", VStr "cleaning");
      ("trigger", VNum 1);
      ("autoSettings", VObj autoSettings)])])])].

(** A device that is being cleaned. *)
Definition cleaningWorld : World :=
  aWorld 9000 VNull (deviceTree [] 0 0 0 0).

(** Heavy dust at exactly 45 degrees. *)
Definition warmDustyWorld : World :=
  aWorld 9000 VNull (deviceTree [] 101 45 0 0).

(** Automatic cleaning enabled, the dust level at the threshold. *)
Definition thresholdWorld : World :=
  aWorld 9000 VNull
    (deviceTree [("enabled", VBool true); ("dustThreshold", VNum 100)]
       100 0 0 0).

(** A weekly schedule, the last cleaning eight days before the clock's
    reading, and little dust. *)
Definition weeklyWorld : World :=
  aWorld 1700000000000 VNull
    (deviceTree
       [("enabled", VBool true); ("dustThreshold", VNum 100);
        ("scheduleEnabled", VBool true); ("schedule", VStr "weekly");
        ("lastCleaning", VNum 1699308800000)]
       20 0 0 0).

(** The providers answer with PM2.5 = 40 and PM10 = 60. *)
Definition pollutedWorld : World := aWorld 9000 (airPollution 40 60) VNull.

(** An empty database; the stored envelope expired at 5000. *)
Definition emptyWorld : World := aWorld 9000 VNull VNull.

(** The same before the envelope expires. *)
Definition earlyWorld : World := aWorld 1000 VNull VNull.




(** A host that refuses the database requests from the [from]-th on, and
    answers every [fetch] with [answer]. *)
Definition hostWith (from : nat) (answer : http_result) : Host := {|
  clock := fun _ => 9000%Z;
  rejects := fun n => if Nat.leb from n then Some "PERMISSION_DENIED" else None;
  pushKey := fun _ => "-NxPanel01";
  http := fun _ => answer;
  isoDate := fun _ => "2024-05-01";
  jsonParse := parseEnvelope;
  typeErrorMessage := fun k => "Cannot read properties of undefined"
|}.

Definition worldWith (from : nat) (answer : http_result) (db : value) : World := {|
  host := hostWith from answer;
  database := db;
  localStorage := None;
  ticks := 0; requests := 0; pushes := 0; fetches := 0
|}.

(** The store refuses everything, or everything after the first request. *)
Definition refusedWorld : World :=
  worldWith 0 (NetworkError "Failed to fetch") (deviceTree [] 0 0 0 0).
Definition halfRefusedWorld : World :=
  worldWith 1 (NetworkError "Failed to fetch") (deviceTree [] 0 0 12 77).

(** The providers cannot be reached. *)
Definition offlineWorld : World :=
  worldWith 9 (NetworkError "Failed to fetch") VNull.

(** An owner with two devices, the reference to the second one deleted. *)
Definition ownerTree : value :=
  VObj [("users", VObj [("owner-1", VObj [
    ("profile", VObj [("displayName", VStr "Asha")]);
    ("devices", VObj [("panel-7", VBool true); ("panel-8", VNull)])])])].

Definition ownerWorld : World := aWorld 9000 VNull ownerTree.

(** A device with coordinates, and the weather settings. *)
Definition configuredTree (provider : value) (apiKey : string) : value :=
  VObj [
    ("devices", VObj [("panel-7", VObj [
      ("info", VObj [("lat", VNum 12); ("lon", VNum 77)]);
      ("panelStatus", VObj [("dustLevel", VNum 0); ("currentEfficiency", VNum 91)])])]);
    ("config", VObj [("weatherAPI", VObj [
      ("provider", provider); ("apiKey", VStr apiKey)])])].

Definition configuredWorld : World :=
  aWorld 9000 (airPollution 40 60) (configuredTree (VStr "openweathermap") "key").

Definition otherProviderWorld : World :=
  aWorld 9000 VNull (configuredTree (VStr "accuweather") "key").

(** A current-weather response. *)
Definition conditions (description : string) (windSpeed temperature : Q) : value :=
  VObj [("main", VObj [("temp", VNum temperature); ("humidity", VNum 40)]);
        ("weather", VArr [VObj [("description", VStr description)]]);
        ("wind", VObj [("speed", VNum windSpeed)]);
        ("clouds", VObj [("all", VNum 75)])].

Definition rainyWorld : World :=
  aWorld 9000 (conditions "Light Rain" 3 30)
    (configuredTree (VStr "openweathermap") "key").

(** An unknown schedule, the last cleaning long ago, and little dust. *)
Definition yearlyWorld : World :=
  aWorld 1700000000000 VNull
    (deviceTree
       [("enabled", VBool true); ("dustThreshold", VNum 100);
        ("scheduleEnabled", VBool true); ("schedule", VStr "yearly");
        ("lastCleaning", VNum 1000)]
       20 0 0 0).

(** A serialiser knowing the one envelope, and a storage without quota. *)
Definition stringifyEnvelope (v : value) : string :=
  "{'value':'dark','expiry':5000}".

Definition noQuota (storage : list (string * string)) (key raw : string) : bool :=
  false.

End Sample.

(* ================================================================== *)
(** * Properties *)

(** ** Property lists *)

Section AssocFacts.
Context {A : Type}.
Implicit Types (k : string) (v : A) (fs : list (string * A)).

Lemma lookup_assign_same k v fs : Js.lookup k (Js.assign k v fs) = Some v.
Proof.
  induction fs as [|[k' v'] fs IH]; simpl.
  - now rewrite String.eqb_refl.
  - destruct (String.eqb k k') eqn:E; simpl.
    + now rewrite String.eqb_refl.
    + now rewrite E.
Qed.

Lemma lookup_assign_other k k' v fs :
  String.eqb k' k = false ->
  Js.lookup k' (Js.assign k v fs) = Js.lookup k' fs.
Proof.
  intros Hne.
  induction fs as [|[k0 v0] fs IH]; simpl.
  - now rewrite Hne.
  - destruct (String.eqb k k0) eqn:E; simpl.
    + apply String.eqb_eq in E. subst k0. now rewrite Hne.
    + now rewrite IH.
Qed.

Lemma lookup_remove_same k fs : Js.lookup k (Js.remove k fs) = None.
Proof.
  induction fs as [|[k' v'] fs IH]; simpl; [reflexivity|].
  destruct (String.eqb k k') eqn:E; simpl; [assumption|].
  now rewrite E.
Qed.

Lemma lookup_remove_other k k' fs :
  String.eqb k' k = false ->
  Js.lookup k' (Js.remove k fs) = Js.lookup k' fs.
Proof.
  intros Hne.
  induction fs as [|[k0 v0] fs IH]; simpl; [reflexivity|].
  destruct (String.eqb k k0) eqn:E; simpl.
  - apply String.eqb_eq in E. subst k0. now rewrite Hne.
  - now rewrite IH.
Qed.
End AssocFacts.

Lemma string_eqb_app_l (s a b : string) :
  String.eqb (s ++ a) (s ++ b) = String.eqb a b.
Proof.
  induction s as [|c s IH]; simpl; [reflexivity|].
  now rewrite Ascii.eqb_refl.
Qed.

(** ** Rounding to doubles *)

Lemma two_power_pos (e : Z) : 0 < 2 ^ e.
Proof. now apply Qpower_0_lt. Qed.

Lemma two_power_le (a b : Z) : (a <= b)%Z -> 2 ^ a <= 2 ^ b.
Proof. intros H. apply Qpower_le_compat_l; [exact H|discriminate]. Qed.

Lemma two_power_succ (e : Z) : 2 ^ (e + 1) == 2 * 2 ^ e.
Proof. rewrite Qpower_plus by discriminate. ring. Qed.

Lemma two_power_Z (a : Z) : (0 <= a)%Z -> inject_Z (2 ^ a) == 2 ^ a.
Proof. intros H. now rewrite Zpower_Qpower. Qed.

Lemma exponent_spec (q : Q) :
  0 < q -> 2 ^ Js.exponent q <= q /\ q < 2 ^ (Js.exponent q + 1).
Proof.
  intros Hq. destruct q as [n d].
  assert (Hn : (0 < n)%Z).
  { unfold Qlt in Hq. cbn in Hq. lia. }
  unfold Js.exponent. cbn [Qnum Qden].
  set (a := Z.log2 n). set (b := Z.log2 (Zpos d)).
  destruct (Z.log2_spec n Hn) as [Ha1 Ha2]. fold a in Ha1, Ha2.
  destruct (Z.log2_spec (Zpos d) eq_refl) as [Hb1 Hb2]. fold b in Hb1, Hb2.
  assert (Ha0 : (0 <= a)%Z) by apply Z.log2_nonneg.
  assert (Hb0 : (0 <= b)%Z) by apply Z.log2_nonneg.
  assert (Hd : 0 < inject_Z (Zpos d)) by reflexivity.
  assert (E : n # d == inject_Z n / inject_Z (Zpos d)) by apply Qmake_Qdiv.
  assert (Qa1 : 2 ^ a <= inject_Z n).
  { rewrite <- two_power_Z by exact Ha0. now rewrite <- Zle_Qle. }
  assert (Qa2 : inject_Z n < 2 ^ (a + 1)).
  { rewrite <- two_power_Z by lia. rewrite <- Zlt_Qlt. lia. }
  assert (Qb1 : 2 ^ b <= inject_Z (Zpos d)).
  { rewrite <- two_power_Z by exact Hb0. now rewrite <- Zle_Qle. }
  assert (Qb2 : inject_Z (Zpos d) < 2 ^ (b + 1)).
  { rewrite <- two_power_Z by lia. rewrite <- Zlt_Qlt. lia. }
  destruct (Qle_bool (2 ^ (a - b)) (n # d)) eqn:Hle.
  - apply Qle_bool_iff in Hle. split; [exact Hle|].
    rewrite E. apply Qlt_shift_div_r; [exact Hd|].
    apply Qlt_le_trans with (2 ^ (a + 1)); [exact Qa2|].
    replace (a + 1)%Z with ((a - b + 1) + b)%Z by lia.
    rewrite Qpower_plus by discriminate.
    apply Qmult_le_l; [apply two_power_pos|exact Qb1].
  - assert (Hlt : n # d < 2 ^ (a - b)).
    { apply Qnot_le_lt. intros H. apply Qle_bool_iff in H. congruence. }
    replace (a - b - 1 + 1)%Z with (a - b)%Z by lia.
    split; [|exact Hlt].
    rewrite E. apply Qle_shift_div_l; [exact Hd|].
    apply Qle_trans with (2 ^ a); [|exact Qa1].
    replace a with ((a - b - 1) + (b + 1))%Z at 2 by lia.
    rewrite Qpower_plus by discriminate.
    apply Qmult_le_l; [apply two_power_pos|]. now apply Qlt_le_weak.
Qed.

Lemma exponent_mono (x y : Q) :
  0 < x -> x <= y -> (Js.exponent x <= Js.exponent y)%Z.
Proof.
  intros Hx Hxy.
  assert (Hy : 0 < y) by (apply Qlt_le_trans with x; assumption).
  destruct (exponent_spec x Hx) as [Hx1 _].
  destruct (exponent_spec y Hy) as [_ Hy2].
  destruct (Z_le_gt_dec (Js.exponent x) (Js.exponent y)) as [H|H]; [exact H|].
  exfalso. apply (Qlt_irrefl y).
  apply Qlt_le_trans with (2 ^ (Js.exponent y + 1)); [exact Hy2|].
  apply Qle_trans with (2 ^ Js.exponent x); [apply two_power_le; lia|].
  now apply Qle_trans with x.
Qed.

(** *** The nearest integer *)

Lemma nearest_even_floor (x : Q) :
  (Qfloor x <= Js.nearest_even x <= Qfloor x + 1)%Z.
Proof.
  unfold Js.nearest_even.
  destruct (Qcompare _ _); [destruct (Z.even _)| |]; lia.
Qed.

Lemma nearest_even_Z (z : Z) : Js.nearest_even (inject_Z z) = z.
Proof.
  unfold Js.nearest_even. rewrite Qfloor_Z.
  assert (E : inject_Z z - inject_Z z == 0) by ring.
  now rewrite E.
Qed.

Lemma nearest_even_mono (x y : Q) :
  x <= y -> (Js.nearest_even x <= Js.nearest_even y)%Z.
Proof.
  intros Hxy. pose proof (Qfloor_resp_le x y Hxy) as Hf.
  destruct (Z.eq_dec (Qfloor x) (Qfloor y)) as [E|E].
  - assert (Hr : x - inject_Z (Qfloor x) <= y - inject_Z (Qfloor y)).
    { rewrite E. apply Qplus_le_l with (inject_Z (Qfloor y)).
      ring_simplify. exact Hxy. }
    unfold Js.nearest_even. rewrite <- E in *.
    destruct (Qcompare_spec (x - inject_Z (Qfloor x)) (1 # 2));
      destruct (Qcompare_spec (y - inject_Z (Qfloor x)) (1 # 2));
      try (destruct (Z.even (Qfloor x))); try lia; exfalso; lra.
  - pose proof (nearest_even_floor x). pose proof (nearest_even_floor y). lia.
Qed.

(** *** Positive numbers *)

Lemma scaled_bounds (q : Q) :
  0 < q ->
  2 ^ 52 <= q / 2 ^ (Js.exponent q - 52) /\ q / 2 ^ (Js.exponent q - 52) <= 2 ^ 53.
Proof.
  intros Hq. destruct (exponent_spec q Hq) as [H1 H2].
  pose proof (two_power_pos (Js.exponent q - 52)) as Hu.
  split.
  - apply Qle_shift_div_l; [exact Hu|].
    rewrite <- Qpower_plus by discriminate.
    now replace (52 + (Js.exponent q - 52))%Z with (Js.exponent q) by lia.
  - apply Qle_shift_div_r; [exact Hu|].
    rewrite <- Qpower_plus by discriminate.
    replace (53 + (Js.exponent q - 52))%Z with (Js.exponent q + 1)%Z by lia.
    now apply Qlt_le_weak.
Qed.

Lemma round_positive_bounds (q : Q) :
  0 < q ->
  2 ^ Js.exponent q <= Js.round_positive q /\ Js.round_positive q <= 2 ^ (Js.exponent q + 1).
Proof.
  intros Hq. destruct (scaled_bounds q Hq) as [H1 H2].
  pose proof (two_power_pos (Js.exponent q - 52)) as Hu.
  unfold Js.round_positive.
  set (x := q / 2 ^ (Js.exponent q - 52)) in *.
  assert (L : (2 ^ 52 <= Js.nearest_even x)%Z).
  { rewrite <- (nearest_even_Z (2 ^ 52)). now apply nearest_even_mono. }
  assert (U : (Js.nearest_even x <= 2 ^ 53)%Z).
  { rewrite <- (nearest_even_Z (2 ^ 53)). now apply nearest_even_mono. }
  split.
  - replace (Js.exponent q) with (52 + (Js.exponent q - 52))%Z at 1 by lia.
    rewrite Qpower_plus by discriminate.
    apply Qmult_le_compat_r; [|now apply Qlt_le_weak].
    change (2 ^ 52) with (inject_Z (2 ^ 52)). now rewrite <- Zle_Qle.
  - replace (Js.exponent q + 1)%Z with (53 + (Js.exponent q - 52))%Z by lia.
    rewrite Qpower_plus by discriminate.
    apply Qmult_le_compat_r; [|now apply Qlt_le_weak].
    change (2 ^ 53) with (inject_Z (2 ^ 53)). now rewrite <- Zle_Qle.
Qed.

Lemma round_positive_pos (q : Q) : 0 < q -> 0 < Js.round_positive q.
Proof.
  intros Hq. apply Qlt_le_trans with (2 ^ Js.exponent q);
    [apply two_power_pos|apply (round_positive_bounds q Hq)].
Qed.

Lemma round_positive_mono (x y : Q) :
  0 < x -> x <= y -> Js.round_positive x <= Js.round_positive y.
Proof.
  intros Hx Hxy.
  assert (Hy : 0 < y) by (apply Qlt_le_trans with x; assumption).
  pose proof (exponent_mono x y Hx Hxy) as He.
  destruct (Z.eq_dec (Js.exponent x) (Js.exponent y)) as [E|E].
  - unfold Js.round_positive. rewrite E.
    pose proof (two_power_pos (Js.exponent y - 52)) as Hu.
    apply Qmult_le_compat_r; [|now apply Qlt_le_weak].
    rewrite <- Zle_Qle. apply nearest_even_mono.
    apply Qmult_le_compat_r; [exact Hxy|].
    apply Qlt_le_weak. now apply Qinv_lt_0_compat.
  - apply Qle_trans with (2 ^ (Js.exponent x + 1));
      [apply (round_positive_bounds x Hx)|].
    apply Qle_trans with (2 ^ Js.exponent y);
      [apply two_power_le; lia|apply (round_positive_bounds y Hy)].
Qed.

(** *** All numbers *)

(** [double] by the sign of its argument. *)
Lemma double_cases (q : Q) :
  (q == 0 /\ Js.double q == 0)
  \/ (0 < q /\ Js.double q == Js.round_positive (Qred q))
  \/ (q < 0 /\ Js.double q == - Js.round_positive (- Qred q)).
Proof.
  unfold Js.double. pose proof (Qred_correct q) as E.
  destruct (Qred q) as [n d] eqn:R. cbn [Qnum].
  destruct n as [|n|n]; rewrite Qred_correct.
  - left. split; [|reflexivity]. now rewrite <- E.
  - right. left. split; [|reflexivity]. now rewrite <- E.
  - right. right. split; [|reflexivity]. now rewrite <- E.
Qed.

Lemma double_proper (p q : Q) : p == q -> Js.double p = Js.double q.
Proof. intros H. unfold Js.double. now rewrite (Qred_complete p q H). Qed.

Lemma double_mono (x y : Q) : x <= y -> Js.double x <= Js.double y.
Proof.
  intros Hxy.
  assert (Pos : forall q, 0 < q -> 0 < Qred q) by (intros q H; now rewrite Qred_correct).
  assert (Neg : forall q, q < 0 -> 0 < - Qred q).
  { intros q H. rewrite Qred_correct. apply Qopp_lt_compat in H. exact H. }
  destruct (double_cases x) as [[Hx Ex]|[[Hx Ex]|[Hx Ex]]];
    destruct (double_cases y) as [[Hy Ey]|[[Hy Ey]|[Hy Ey]]];
    rewrite Ex, Ey; try (exfalso; lra).
  - apply Qle_refl.
  - pose proof (round_positive_pos _ (Pos y Hy)). lra.
  - apply round_positive_mono; [now apply Pos|now rewrite !Qred_correct].
  - pose proof (round_positive_pos _ (Neg x Hx)). lra.
  - pose proof (round_positive_pos _ (Neg x Hx)).
    pose proof (round_positive_pos _ (Pos y Hy)). lra.
  - apply Qopp_le_compat. apply round_positive_mono; [now apply Neg|].
    rewrite !Qred_correct. now apply Qopp_le_compat.
Qed.

(** *** Whole numbers *)

Lemma nearest_even_proper (x y : Q) :
  x == y -> Js.nearest_even x = Js.nearest_even y.
Proof.
  intros E. unfold Js.nearest_even.
  rewrite (Qfloor_comp x y E).
  assert (E2 : x - inject_Z (Qfloor y) == y - inject_Z (Qfloor y))
    by (now rewrite E).
  now rewrite E2.
Qed.

(** A whole number of at most 53 bits is its own rounding. *)
Lemma round_positive_whole (z : Z) :
  (0 < z <= 2 ^ 53)%Z -> Js.round_positive (inject_Z z) == inject_Z z.
Proof.
  intros [Hpos Hmax].
  destruct (Z.eq_dec z (2 ^ 53)) as [-> | Hne]; [vm_compute; reflexivity|].
  assert (Hq : 0 < inject_Z z) by (rewrite <- (Zlt_Qlt 0); exact Hpos).
  destruct (exponent_spec _ Hq) as [Hlow Hhigh].
  set (e := Js.exponent (inject_Z z)) in *.
  assert (He : (e <= 52)%Z).
  { destruct (Z_le_gt_dec e 52) as [H|H]; [exact H|exfalso].
    apply (Qlt_irrefl (inject_Z z)).
    apply Qlt_le_trans with (2 ^ 53).
    - change (2 ^ 53) with (inject_Z (2 ^ 53)). rewrite <- Zlt_Qlt. lia.
    - apply Qle_trans with (2 ^ e); [apply two_power_le; lia|exact Hlow]. }
  unfold Js.round_positive. fold e.
  assert (Hk : (0 <= 52 - e)%Z) by lia.
  assert (Hu : 2 ^ (e - 52) * 2 ^ (52 - e) == 1).
  { rewrite <- Qpower_plus by discriminate.
    now replace (e - 52 + (52 - e))%Z with 0%Z by lia. }
  pose proof (two_power_pos (e - 52)) as Hp.
  assert (Hinv : / 2 ^ (e - 52) == 2 ^ (52 - e)).
  { apply Qmult_inj_l with (2 ^ (e - 52)); [lra|].
    rewrite Qmult_inv_r by lra. now rewrite Hu. }
  assert (Hs : inject_Z z / 2 ^ (e - 52) == inject_Z (z * 2 ^ (52 - e))).
  { unfold Qdiv. now rewrite Hinv, inject_Z_mult, (two_power_Z _ Hk). }
  rewrite (nearest_even_proper _ _ Hs), nearest_even_Z.
  rewrite inject_Z_mult, (two_power_Z _ Hk).
  rewrite <- Qmult_assoc, (Qmult_comm (2 ^ (52 - e))), Hu. ring.
Qed.

Lemma double_reduced (q : Q) : Qred (Js.double q) = Js.double q.
Proof. unfold Js.double. apply Qred_complete, Qred_correct. Qed.

Lemma Qred_whole (n : Z) : Qred (inject_Z n) = inject_Z n.
Proof.
  pose proof (Qred_correct (inject_Z n)) as E.
  pose proof (gcd_Qred (inject_Z n)) as G.
  destruct (Qred (inject_Z n)) as [a d]. unfold Qeq in E. cbn in E, G.
  assert (Ea : a = (n * Zpos d)%Z) by lia. subst a.
  rewrite Z.gcd_comm, Z.mul_comm, Z.gcd_mul_diag_l in G by lia.
  injection G as ->. unfold inject_Z. f_equal. lia.
Qed.

(** [double] is the identity on the whole numbers up to [2 ^ 53]: the
    timestamps of [Date.now()] and their sums with whole intervals. *)
Lemma double_whole (z : Z) :
  (Z.abs z <= 2 ^ 53)%Z -> Js.double (inject_Z z) = inject_Z z.
Proof.
  intros Hz.
  assert (E : Js.double (inject_Z z) == inject_Z z).
  { unfold Js.double. rewrite Qred_correct, Qred_whole. cbn [Qnum inject_Z].
    destruct z as [|p|p].
    - reflexivity.
    - apply (round_positive_whole (Zpos p)). lia.
    - change (- (Z.neg p # 1)) with (inject_Z (Zpos p)).
      rewrite (round_positive_whole (Zpos p)) by lia. reflexivity. }
  transitivity (Qred (inject_Z z)); [|apply Qred_whole].
  rewrite <- double_reduced. apply Qred_complete, E.
Qed.

(** ** Paths and the database tree *)

Module StoreFacts.
Import Store.

Lemma pieces_from_slash (cur a b : string) :
  pieces_from cur (a ++ String "/" b) = (pieces_from cur a ++ pieces b)%list.
Proof.
  revert cur.
  induction a as [|c a IH]; intros cur; simpl.
  - reflexivity.
  - destruct (Ascii.eqb c "/"); [|apply IH].
    now rewrite IH, app_assoc.
Qed.

Lemma pieces_slash (a b : string) :
  pieces (a ++ String "/" b) = (pieces a ++ pieces b)%list.
Proof. apply pieces_from_slash. Qed.

(** The paths under a device. *)
Lemma pieces_device (deviceId rest : string) :
  pieces ("devices/" ++ deviceId ++ String "/" rest)
  = "devices" :: (pieces deviceId ++ pieces rest)%list.
Proof.
  change ("devices/" ++ deviceId ++ String "/" rest)
    with ("devices" ++ String "/" (deviceId ++ String "/" rest)).
  now rewrite !pieces_slash.
Qed.

Lemma pieces_device_sub (deviceId rest : string) :
  pieces ("devices/" ++ deviceId ++ "/" ++ rest)
  = "devices" :: (pieces deviceId ++ pieces rest)%list.
Proof. exact (pieces_device deviceId rest). Qed.

Lemma pieces_device_root (deviceId : string) :
  pieces ("devices/" ++ deviceId) = "devices" :: pieces deviceId.
Proof.
  change ("devices/" ++ deviceId) with ("devices" ++ String "/" deviceId).
  now rewrite pieces_slash.
Qed.

Lemma pieces_user_device (userId deviceId : string) :
  pieces ("users/" ++ userId ++ "/devices/" ++ deviceId)
  = "users" :: (pieces userId ++ "devices" :: pieces deviceId)%list.
Proof.
  change ("users/" ++ userId ++ "/devices/" ++ deviceId)
    with ("users" ++ String "/" (userId ++ String "/" ("devices" ++ String "/" deviceId))).
  now rewrite !pieces_slash.
Qed.

Lemma child_set_same t k p v :
  child (tree_set t (k :: p) v) k = tree_set (child t k) p v.
Proof.
  unfold child at 1. simpl. now rewrite lookup_assign_same.
Qed.

Lemma child_set_other t k k' p v :
  String.eqb k' k = false ->
  child (tree_set t (k :: p) v) k' = child t k'.
Proof.
  intros Hne. unfold child. simpl. now rewrite lookup_assign_other.
Qed.

(** Reading back what was written. *)
Lemma tree_get_set_same t p v : tree_get (tree_set t p v) p = v.
Proof.
  revert t. induction p as [|k p IH]; intros t; [reflexivity|].
  cbn [tree_get]. now rewrite child_set_same.
Qed.

Lemma tree_get_app t p q :
  tree_get t (p ++ q)%list = tree_get (tree_get t p) q.
Proof.
  revert t. induction p as [|k p IH]; intros t; simpl; [reflexivity|apply IH].
Qed.

Lemma tree_get_set_below t p q v :
  tree_get (tree_set t p v) (p ++ q)%list = tree_get v q.
Proof. now rewrite tree_get_app, tree_get_set_same. Qed.

(** A write leaves the paths that diverge from it as they were. *)
Lemma tree_get_set_diverge t p q v :
  diverge p q = true -> tree_get (tree_set t p v) q = tree_get t q.
Proof.
  revert t q. induction p as [|k p IH]; intros t q H; [discriminate|].
  destruct q as [|k' q]; [discriminate|].
  cbn [diverge] in H. cbn [tree_get].
  destruct (String.eqb k' k) eqn:E.
  - apply String.eqb_eq in E. subst k'.
    rewrite child_set_same. now apply IH.
  - now rewrite child_set_other.
Qed.

Lemma diverge_app r p q :
  diverge (r ++ p)%list (r ++ q)%list = diverge p q.
Proof.
  induction r as [|k r IH]; simpl; [reflexivity|].
  now rewrite String.eqb_refl.
Qed.

Lemma diverge_cons k p q : diverge (k :: p) (k :: q) = diverge p q.
Proof. simpl. now rewrite String.eqb_refl. Qed.

Lemma tree_get_set_after t p q s v :
  after p q = Some s -> tree_get (tree_set t p v) q = tree_get v s.
Proof.
  revert t q. induction p as [|k p IH]; intros t q H.
  - cbn in H. now injection H as ->.
  - destruct q as [|k' q]; [discriminate|].
    cbn [after] in H. cbn [tree_get].
    destruct (String.eqb k' k) eqn:E; [|discriminate].
    apply String.eqb_eq in E. subst k'.
    rewrite child_set_same. now apply IH.
Qed.

Lemma after_app r p q : after (r ++ p)%list (r ++ q)%list = after p q.
Proof.
  induction r as [|k r IH]; simpl; [reflexivity|].
  now rewrite String.eqb_refl.
Qed.

Lemma after_cons k p q : after (k :: p) (k :: q) = after p q.
Proof. simpl. now rewrite String.eqb_refl. Qed.

Lemma after_prefix r q : after r (r ++ q)%list = Some q.
Proof.
  induction r as [|k r IH]; simpl; [reflexivity|].
  now rewrite String.eqb_refl.
Qed.

End StoreFacts.


(** ** Running the computations *)

#[local] Arguments String.append : simpl never.
#[local] Arguments Store.pieces : simpl never.
#[local] Arguments Store.get : simpl never.
#[local] Arguments Store.read : simpl never.
#[local] Arguments both : simpl never.
#[local] Arguments Js.get_field : simpl never.
#[local] Arguments Js.truthy : simpl never.
#[local] Arguments Js.or_else : simpl never.
#[local] Arguments Js.double : simpl never.

(** The pieces of a literal path. *)
Ltac eval_pieces :=
  repeat match goal with
    | |- context [Store.pieces (String ?c ?s)] =>
        let r := eval vm_compute in (Store.pieces (String c s)) in
        change (Store.pieces (String c s)) with r
    end.

Ltac store_paths :=
  rewrite ?StoreFacts.pieces_device_sub, ?StoreFacts.pieces_device,
    ?StoreFacts.pieces_device_root, ?StoreFacts.pieces_user_device;
  eval_pieces.

(** Reading a path of a tree after a sequence of writes. *)
Ltac store_read :=
  repeat first
    [ rewrite StoreFacts.tree_get_set_same
    | rewrite StoreFacts.tree_get_set_diverge
        by (rewrite ?StoreFacts.diverge_cons, ?StoreFacts.diverge_app; reflexivity)
    | erewrite StoreFacts.tree_get_set_after
        by (rewrite ?StoreFacts.after_cons, ?StoreFacts.after_app,
              ?StoreFacts.after_prefix; reflexivity) ].

(** Reading the database of a world that is given by its writes. *)
Ltac read_back :=
  unfold Store.read; cbn [database with_database]; store_paths; store_read.

(** Property assignments on paths of one device. *)
Ltac assign_paths := cbn; repeat (rewrite !string_eqb_app_l; cbn).

Lemma Qle_bool_true (x y : Q) : x <= y -> Qle_bool x y = true.
Proof. apply Qle_bool_iff. Qed.

Lemma Qle_bool_false (x y : Q) : y < x -> Qle_bool x y = false.
Proof.
  intros H. destruct (Qle_bool x y) eqn:E; [|reflexivity].
  apply Qle_bool_iff in E. exfalso. now apply (Qlt_not_le _ _ H).
Qed.

Lemma is_num_intro (d q : Q) : d == q -> is_num (VNum d) q.
Proof. intros H. now exists d. Qed.


Lemma truthy_num (q : Q) : ~ q == 0 -> Js.truthy (VNum q) = true.
Proof.
  intros H. unfold Js.truthy.
  destruct (Qeq_bool q 0) eqn:E; [|reflexivity].
  apply Qeq_bool_eq in E. contradiction.
Qed.

Lemma falsy_zero (v : value) : is_num v 0 -> Js.truthy v = false.
Proof.
  intros (q & -> & Hq). unfold Js.truthy.
  now rewrite (proj2 (Qeq_bool_iff q 0) Hq).
Qed.

(** *** Property access *)

Lemma field_of_nullish (o : value) (k : string) :
  Js.nullish o = true -> Js.get_field o k = VUndefined.
Proof. now destruct o. Qed.

Lemma field_defined (o : value) (k : string) :
  Js.get_field o k <> VUndefined -> Js.nullish o = false.
Proof. destruct o; trivial; now intros []. Qed.

Lemma truthy_field_nonnull (o : value) (k : string) :
  Js.truthy (Js.get_field o k) = true -> Js.nullish o = false.
Proof. intros H. apply (field_defined o k). intros E. now rewrite E in H. Qed.

Lemma num_field_nonnull (o : value) (k : string) (q : Q) :
  Js.get_field o k = VNum q -> Js.nullish o = false.
Proof. intros H. apply (field_defined o k). now rewrite H. Qed.

(** Only the empty string is falsy and has a property: its [length]. *)
Lemma field_defined_truthy (o : value) (k : string) :
  String.eqb k "length" = false ->
  Js.get_field o k <> VUndefined -> Js.truthy o = true.
Proof.
  intros Hk. unfold Js.get_field, Js.truthy.
  destruct o as [| | | |s| |]; try (now intros []); trivial.
  rewrite Hk. destruct s; [now intros []|trivial].
Qed.


Lemma truthy_field_truthy (o : value) (k : string) :
  String.eqb k "length" = false ->
  Js.truthy (Js.get_field o k) = true -> Js.truthy o = true.
Proof.
  intros Hk H. apply (field_defined_truthy o k Hk). intros E. now rewrite E in H.
Qed.

Lemma prop_nonnull (o : value) (k : string) (w : World) :
  Js.nullish o = false -> prop o k w = (Ret (Js.get_field o k), w).
Proof. unfold prop. now intros ->. Qed.



(** *** Database requests *)

Lemma get_accepted (w : World) (path : string) :
  accepts w -> Store.get path w = (Ret (Store.read w path), requested w).
Proof.
  unfold accepts, Store.get, Store.request, bind. now intros ->.
Qed.

Lemma both_gets (w : World) (p1 p2 : string) :
  accepts w -> accepts (requested w) ->
  both (Store.get p1) (Store.get p2) w
  = (Ret (Store.read w p1, Store.read w p2), requested (requested w)).
Proof.
  unfold accepts. cbn. intros H1 H2.
  unfold both, Store.get, Store.request, bind.
  rewrite H1. cbn. rewrite H2. reflexivity.
Qed.

(** Whatever the host answers, two reads return the stored snapshots or
    throw. *)
Lemma both_gets_cases (w : World) (p1 p2 : string) :
  both (Store.get p1) (Store.get p2) w
    = (Ret (Store.read w p1, Store.read w p2), requested (requested w))
  \/ exists message,
       both (Store.get p1) (Store.get p2) w
         = (Throw message, requested (requested w)).
Proof.
  unfold both, Store.get, Store.request, bind. cbn.
  destruct (rejects (host w) (requests w)); cbn;
    destruct (rejects (host w) (S (requests w))); cbn;
    try (left; reflexivity); right; eexists; reflexivity.
Qed.

(* ================================================================== *)
(** ** js/core/esp32-control.js *)

(** *** Telemetry ingestion *)




(** *** Cleaning progress *)

(** C5. A progress update with [progress >= 100] that the store accepts sets
    [cleaningControl.status] to ['completed'], resets
    [cleaningControl.trigger] to [0] and sets
    [cleaningControl.autoSettings.lastCleaning] to the time of the update. *)
Theorem progress_complete (w : World) (deviceId : string) (p : Q)
    (waterUsed : value) :
  100 <= p -> accepts w ->
  exists w',
    Esp32Control.updateCleaningProgress deviceId (VNum p) waterUsed w
      = (Ret result_ok, w') /\
    Store.read w' ("devices/" ++ deviceId ++ "/cleaningControl/status")
      = VStr "completed" /\
    Store.read w' ("devices/" ++ deviceId ++ "/cleaningControl/trigger")
      = VNum 0 /\
    Store.read w'
      ("devices/" ++ deviceId ++ "/cleaningControl/autoSettings/lastCleaning")
      = VNum (inject_Z (now w)).
Proof.
  intros Hp Hacc. unfold accepts in Hacc.
  unfold Esp32Control.updateCleaningProgress, try_catch, bind, lift,
    Store.update, Store.request, bind.
  cbn. rewrite (Qle_bool_true _ _ Hp). cbn. rewrite Hacc.
  assign_paths.
  eexists; split; [reflexivity|].
  read_back. repeat split.
Qed.

Lemma progress_complete_witness :
  exists w',
    Esp32Control.updateCleaningProgress "panel-7" (VNum 100) VUndefined
      Sample.cleaningWorld
      = (Ret result_ok, w') /\
    Store.read w' "devices/panel-7/cleaningControl/status" = VStr "completed" /\
    Store.read w' "devices/panel-7/cleaningControl/trigger" = VNum 0 /\
    Store.read w' "devices/panel-7/cleaningControl/autoSettings/lastCleaning"
      = VNum 9000.
Proof.
  apply (progress_complete Sample.cleaningWorld "panel-7" 100 VUndefined).
  - vm_compute. discriminate.
  - reflexivity.
Defined.

(** C10. A progress update with [progress < 100] writes the two
    [currentOperation] fields only ([waterUsed] as [0] when the argument is
    omitted); [cleaningControl.status], [cleaningControl.trigger] and
    [cleaningControl.autoSettings.lastCleaning] read as before, whether the
    store accepts the update or not. *)
Theorem progress_partial (w : World) (deviceId : string) (p : Q)
    (waterUsed : value) :
  p < 100 ->
  let run := Esp32Control.updateCleaningProgress deviceId (VNum p) waterUsed w in
  let progressPath :=
    "devices/" ++ deviceId ++ "/cleaningControl/currentOperation/progress" in
  let waterPath :=
    "devices/" ++ deviceId ++ "/cleaningControl/currentOperation/waterUsed" in
  (accepts w ->
     fst run = Ret result_ok /\
     database (snd run)
       = Store.tree_update (database w)
           [(progressPath, VNum p);
            (waterPath, Js.default_param waterUsed (VNum 0))] /\
     Store.read (snd run) progressPath = VNum p /\
     Store.read (snd run) waterPath = Js.default_param waterUsed (VNum 0) /\
     (waterUsed = VUndefined -> Store.read (snd run) waterPath = VNum 0)) /\
  Store.read (snd run) ("devices/" ++ deviceId ++ "/cleaningControl/status")
    = Store.read w ("devices/" ++ deviceId ++ "/cleaningControl/status") /\
  Store.read (snd run) ("devices/" ++ deviceId ++ "/cleaningControl/trigger")
    = Store.read w ("devices/" ++ deviceId ++ "/cleaningControl/trigger") /\
  Store.read (snd run)
    ("devices/" ++ deviceId ++ "/cleaningControl/autoSettings/lastCleaning")
    = Store.read w
        ("devices/" ++ deviceId ++ "/cleaningControl/autoSettings/lastCleaning").
Proof.
  intros Hp run progressPath waterPath.
  subst run progressPath waterPath.
  unfold Esp32Control.updateCleaningProgress, try_catch, bind, lift,
    Store.update, Store.request, bind, accepts.
  cbn. rewrite (Qle_bool_false _ _ Hp). cbn.
  destruct (rejects (host w) (requests w)) as [message|] eqn:Hacc;
    assign_paths.
  - split; [discriminate|]. repeat split.
  - split.
    + intros _. read_back.
      repeat split. intros ->. reflexivity.
    + read_back. repeat split.
Qed.

Lemma progress_partial_witness :
  fst (Esp32Control.updateCleaningProgress "panel-7" (VNum 40) VUndefined
         Sample.cleaningWorld) = Ret result_ok /\
  Store.read
    (snd (Esp32Control.updateCleaningProgress "panel-7" (VNum 40) VUndefined
            Sample.cleaningWorld))
    "devices/panel-7/cleaningControl/currentOperation/waterUsed" = VNum 0 /\
  Store.read
    (snd (Esp32Control.updateCleaningProgress "panel-7" (VNum 40) VUndefined
            Sample.cleaningWorld))
    "devices/panel-7/cleaningControl/status" = VStr "cleaning" /\
  Store.read
    (snd (Esp32Control.updateCleaningProgress "panel-7" (VNum 40) VUndefined
            Sample.cleaningWorld))
    "devices/panel-7/cleaningControl/trigger" = VNum 1.
Proof.
  destruct (progress_partial Sample.cleaningWorld "panel-7" 40 VUndefined)
    as (Hok & Hs & Ht & _).
  - reflexivity.
  - destruct (Hok eq_refl) as (Hr & _ & _ & _ & Hw).
    split; [exact Hr|].
    split; [exact (Hw eq_refl)|].
    split; [exact Hs|exact Ht].
Defined.

(** *** The automatic cleaning decision *)

(** C3. [shouldTriggerAutoCleaning] returns [false] whenever
    [autoSettings.enabled] is false, whatever the dust level, the schedule
    and the answers of the store; when it is enabled and the store answers,
    a dust level equal to the threshold returns [true]. *)
Theorem auto_cleaning_gate (w : World) (deviceId : string) :
  let autoSettings :=
    Store.read w ("devices/" ++ deviceId ++ "/cleaningControl/autoSettings") in
  let panelStatus := Store.read w ("devices/" ++ deviceId ++ "/panelStatus") in
  (Js.truthy (Js.get_field autoSettings "enabled") = false ->
   fst (Esp32Control.shouldTriggerAutoCleaning deviceId w) = Ret false) /\
  (forall d t : Q,
     accepts w -> accepts (requested w) ->
     Js.truthy (Js.get_field autoSettings "enabled") = true ->
     Js.get_field panelStatus "dustLevel" = VNum d ->
     Js.get_field autoSettings "dustThreshold" = VNum t ->
     d == t ->
     fst (Esp32Control.shouldTriggerAutoCleaning deviceId w) = Ret true).
Proof.
  intros autoSettings panelStatus. subst autoSettings panelStatus. split.
  - intros Hoff.
    unfold Esp32Control.shouldTriggerAutoCleaning, try_catch, bind.
    destruct (both_gets_cases w
      ("devices/" ++ deviceId ++ "/cleaningControl/autoSettings")
      ("devices/" ++ deviceId ++ "/panelStatus")) as [E|[m E]];
      rewrite E; [|reflexivity].
    unfold Store.snapshot_exists.
    destruct (Js.nullish (Store.read w
      ("devices/" ++ deviceId ++ "/cleaningControl/autoSettings"))) eqn:Ha;
      [reflexivity|].
    destruct (Js.nullish (Store.read w ("devices/" ++ deviceId ++ "/panelStatus")));
      [reflexivity|].
    cbn. rewrite (prop_nonnull _ _ _ Ha), Hoff. reflexivity.
  - intros d t A1 A2 Hon Hd Ht Heq.
    pose proof (truthy_field_nonnull _ _ Hon) as Ha.
    pose proof (num_field_nonnull _ _ _ Hd) as Hp.
    unfold Esp32Control.shouldTriggerAutoCleaning, try_catch, bind.
    rewrite (both_gets _ _ _ A1 A2).
    unfold Store.snapshot_exists. rewrite Ha, Hp. cbn.
    rewrite !(prop_nonnull _ _ _ Ha), Hon. cbn.
    rewrite !(prop_nonnull _ _ _ Hp), !(prop_nonnull _ _ _ Ha), Hd, Ht. cbn.
    rewrite Qle_bool_true; [reflexivity|].
    rewrite Heq. apply Qle_refl.
Qed.

Lemma auto_cleaning_gate_witness :
  fst (Esp32Control.shouldTriggerAutoCleaning "panel-7" Sample.cleaningWorld)
    = Ret false /\
  fst (Esp32Control.shouldTriggerAutoCleaning "panel-7" Sample.thresholdWorld)
    = Ret true.
Proof.
  split.
  - apply (auto_cleaning_gate Sample.cleaningWorld "panel-7"). reflexivity.
  - apply (auto_cleaning_gate Sample.thresholdWorld "panel-7") with 100 100;
      reflexivity.
Defined.

(** The decision has reached the schedule rule. *)
Ltac run_to_schedule A1 A2 Ha Hp Hon Hd Ht Hlt :=
  unfold Esp32Control.shouldTriggerAutoCleaning, try_catch, bind;
  rewrite (both_gets _ _ _ A1 A2);
  unfold Store.snapshot_exists; rewrite Ha, Hp; cbn;
  rewrite !(prop_nonnull _ _ _ Ha), Hon; cbn;
  rewrite !(prop_nonnull _ _ _ Hp), !(prop_nonnull _ _ _ Ha), Hd, Ht; cbn;
  rewrite (Qle_bool_false _ _ Hlt); cbn;
  rewrite !(prop_nonnull _ _ _ Ha).

(** The days the rule computes from two numbers: [(now - lastCleaning) /
    (1000 * 60 * 60 * 24)] in double arithmetic. *)
Lemma days_of_whole (now since : Z) (lastCleaning : Q) :
  lastCleaning == inject_Z since ->
  Js.double (Js.double (inject_Z now - lastCleaning) / Esp32Control.msPerDay)
  = Js.double (Js.double (inject_Z (now - since)) / 86400000).
Proof.
  intros E. apply double_proper.
  assert (E1 : Js.double (inject_Z now - lastCleaning)
               = Js.double (inject_Z (now - since))).
  { apply double_proper. rewrite E. unfold Z.sub.
    rewrite inject_Z_plus, inject_Z_opp. reflexivity. }
  rewrite E1. reflexivity.
Qed.

(** For a whole number [e] of milliseconds, the days computed in doubles
    reach 1, 7 or 30 exactly when [e] reaches as many days of 86400000
    milliseconds: the rounding of the quotient does not reach the next
    whole day. *)
Lemma days_elapsed (n e : Z) :
  n = 1%Z \/ n = 7%Z \/ n = 30%Z ->
  Qle_bool (inject_Z n) (Js.double (Js.double (inject_Z e) / 86400000)) = true
  <-> (n * 86400000 <= e)%Z.
Proof.
  intros Hn. rewrite Qle_bool_iff. split.
  - intros Hdays.
    destruct (Z_le_gt_dec (n * 86400000) e) as [Hle|Hgt]; [exact Hle|exfalso].
    assert (He : inject_Z e <= inject_Z (n * 86400000 - 1))
      by (rewrite <- Zle_Qle; lia).
    apply double_mono in He.
    assert (Hq : Js.double (inject_Z e) / 86400000
                 <= Js.double (inject_Z (n * 86400000 - 1)) / 86400000).
    { apply Qmult_le_compat_r; [exact He|discriminate]. }
    apply double_mono in Hq.
    apply (Qle_not_lt _ _ (Qle_trans _ _ _ Hdays Hq)).
    destruct Hn as [-> | [-> | ->]]; vm_compute; reflexivity.
  - intros Hle.
    assert (He : inject_Z (n * 86400000) <= inject_Z e)
      by (now rewrite <- Zle_Qle).
    apply double_mono in He.
    assert (Hq : Js.double (inject_Z (n * 86400000)) / 86400000
                 <= Js.double (inject_Z e) / 86400000).
    { apply Qmult_le_compat_r; [exact He|discriminate]. }
    apply double_mono in Hq.
    apply Qle_trans with
      (Js.double (Js.double (inject_Z (n * 86400000)) / 86400000));
      [|exact Hq].
    destruct Hn as [-> | [-> | ->]]; vm_compute; discriminate.
Qed.

(** The days the rule computes, whatever number [lastCleaning] is. *)
Lemma days_computed (now : Z) (lastCleaning : Q) :
  Js.double (Js.double (inject_Z now - lastCleaning) / Esp32Control.msPerDay)
  = Js.double (Js.double (inject_Z now - lastCleaning) / 86400000).
Proof. apply double_proper. reflexivity. Qed.

(** C4. With automatic cleaning and the schedule enabled and the dust level
    below the threshold, and the store answering.  When [lastCleaning] is
    set, to a number other than 0, [shouldTriggerAutoCleaning] returns
    [true] exactly when the days since [lastCleaning], the elapsed
    milliseconds divided by 86400000 in double arithmetic, are at least 1
    for ['daily'], 7 for ['weekly'] and 30 for ['monthly'].  For a
    [lastCleaning] in whole milliseconds, as [Date.now()] gives them, that
    is exactly when the elapsed time is at least 1, 7 and 30 times 86400000
    milliseconds; so ['weekly'] with a last cleaning 8 days ago returns
    [true].  When [lastCleaning] is unset (falsy) it returns [false]. *)
Theorem schedule_rule (w : World) (deviceId : string) (d t : Q) :
  let autoSettings :=
    Store.read w ("devices/" ++ deviceId ++ "/cleaningControl/autoSettings") in
  let panelStatus := Store.read w ("devices/" ++ deviceId ++ "/panelStatus") in
  let run := fst (Esp32Control.shouldTriggerAutoCleaning deviceId w) in
  accepts w -> accepts (requested w) ->
  Js.truthy (Js.get_field autoSettings "enabled") = true ->
  Js.truthy (Js.get_field autoSettings "scheduleEnabled") = true ->
  Js.get_field panelStatus "dustLevel" = VNum d ->
  Js.get_field autoSettings "dustThreshold" = VNum t ->
  d < t ->
  (forall lastCleaning : Q,
     Js.get_field autoSettings "lastCleaning" = VNum lastCleaning ->
     ~ lastCleaning == 0 ->
     let days :=
       Js.double (Js.double (inject_Z (now w) - lastCleaning) / 86400000) in
     (Js.get_field autoSettings "schedule" = VStr "daily" ->
      returns_iff run (1 <= days)) /\
     (Js.get_field autoSettings "schedule" = VStr "weekly" ->
      returns_iff run (7 <= days)) /\
     (Js.get_field autoSettings "schedule" = VStr "monthly" ->
      returns_iff run (30 <= days))) /\
  (forall (lastCleaning : Q) (since : Z),
     Js.get_field autoSettings "lastCleaning" = VNum lastCleaning ->
     lastCleaning == inject_Z since ->
     since <> 0%Z ->
     let elapsed := (now w - since)%Z in
     (Js.get_field autoSettings "schedule" = VStr "daily" ->
      returns_iff run (1 * 86400000 <= elapsed)%Z) /\
     (Js.get_field autoSettings "schedule" = VStr "weekly" ->
      returns_iff run (7 * 86400000 <= elapsed)%Z) /\
     (Js.get_field autoSettings "schedule" = VStr "monthly" ->
      returns_iff run (30 * 86400000 <= elapsed)%Z) /\
     (Js.get_field autoSettings "schedule" = VStr "weekly" ->
      elapsed = (8 * 86400000)%Z ->
      run = Ret true)) /\
  (Js.truthy (Js.get_field autoSettings "lastCleaning") = false ->
   run = Ret false).
Proof.
  intros autoSettings panelStatus run A1 A2 Hon Hsched Hd Ht Hlt.
  subst run autoSettings panelStatus.
  pose proof (truthy_field_nonnull _ _ Hon) as Ha.
  pose proof (num_field_nonnull _ _ _ Hd) as Hp.
  split; [|split].
  - intros L HL HL0 days.
    run_to_schedule A1 A2 Ha Hp Hon Hd Ht Hlt.
    rewrite Hsched, HL, (truthy_num _ HL0). cbn.
    rewrite !(prop_nonnull _ _ _ Ha). rewrite HL. cbn.
    change (now (requested (requested w))) with (now w).
    rewrite (days_computed (now w) L). fold days.
    rewrite !(prop_nonnull _ _ _ Ha).
    repeat split.
    + intros ->. cbn. eexists; split; [reflexivity|]. apply Qle_bool_iff.
    + intros ->. cbn. eexists; split; [reflexivity|]. apply Qle_bool_iff.
    + intros ->. cbn. eexists; split; [reflexivity|]. apply Qle_bool_iff.
  - intros L since HL Hwhole Hset elapsed.
    assert (HL0 : ~ L == 0).
    { rewrite Hwhole. intros E. apply Hset.
      unfold Qeq in E. cbn in E. lia. }
    run_to_schedule A1 A2 Ha Hp Hon Hd Ht Hlt.
    rewrite Hsched, HL, (truthy_num _ HL0). cbn.
    rewrite !(prop_nonnull _ _ _ Ha). rewrite HL. cbn.
    change (now (requested (requested w))) with (now w).
    rewrite (days_of_whole (now w) since L Hwhole). fold elapsed.
    rewrite !(prop_nonnull _ _ _ Ha).
    repeat split.
    + intros ->. cbn. eexists; split; [reflexivity|].
      apply (days_elapsed 1 elapsed). now left.
    + intros ->. cbn. eexists; split; [reflexivity|].
      apply (days_elapsed 7 elapsed). right. now left.
    + intros ->. cbn. eexists; split; [reflexivity|].
      apply (days_elapsed 30 elapsed). right. now right.
    + intros -> He. cbn. f_equal.
      apply (days_elapsed 7 elapsed); [right; now left|]. rewrite He. lia.
  - intros Hunset.
    run_to_schedule A1 A2 Ha Hp Hon Hd Ht Hlt.
    rewrite Hsched, Hunset. reflexivity.
Qed.

Lemma schedule_rule_witness :
  fst (Esp32Control.shouldTriggerAutoCleaning "panel-7" Sample.weeklyWorld)
    = Ret true.
Proof.
  destruct (schedule_rule Sample.weeklyWorld "panel-7" 20 100
              eq_refl eq_refl eq_refl eq_refl eq_refl eq_refl eq_refl)
    as (_ & Hset & _).
  destruct (Hset 1699308800000 1699308800000%Z eq_refl ltac:(reflexivity)
              ltac:(discriminate)) as (_ & _ & _ & Hweekly).
  exact (Hweekly eq_refl eq_refl).
Defined.

(** *** The cleaning method *)

(** C2, as the code has it.  [selectCleaningMethod] returns ['dry'] when the
    dust level equals 100 exactly.  With the dust level above 100 and the
    store answering, a temperature of exactly 45 returns ['wet']: the
    temperature test is [temperature > 45], so ['dry'] needs a temperature
    above 45. *)
Theorem method_boundaries (w : World) (deviceId : string) :
  let panelStatus := Store.read w ("devices/" ++ deviceId ++ "/panelStatus") in
  let environment := Store.read w ("devices/" ++ deviceId ++ "/environment") in
  let run := fst (Esp32Control.selectCleaningMethod deviceId w) in
  (forall d : Q,
     Js.get_field panelStatus "dustLevel" = VNum d -> d == 100 ->
     run = Ret "dry") /\
  (forall d t : Q,
     accepts w -> accepts (requested w) ->
     Js.get_field panelStatus "dustLevel" = VNum d -> 100 < d ->
     Js.get_field environment "temperature" = VNum t ->
     (t == 45 -> run = Ret "wet") /\
     (t <= 45 -> run = Ret "wet") /\
     (45 < t -> run = Ret "dry")).
Proof.
  intros panelStatus environment run.
  subst run panelStatus environment. split.
  - intros d Hd Heq.
    pose proof (num_field_nonnull _ _ _ Hd) as Hp.
    unfold Esp32Control.selectCleaningMethod, try_catch, bind.
    destruct (both_gets_cases w
      ("devices/" ++ deviceId ++ "/panelStatus")
      ("devices/" ++ deviceId ++ "/environment")) as [E|[m E]];
      rewrite E; [|reflexivity].
    unfold Store.snapshot_exists. rewrite Hp.
    destruct (Js.nullish (Store.read w ("devices/" ++ deviceId ++ "/environment")));
      [reflexivity|].
    cbn. rewrite (prop_nonnull _ _ _ Hp), Hd. cbn.
    rewrite Qle_bool_true; [reflexivity|].
    rewrite Heq. apply Qle_refl.
  - intros d t A1 A2 Hd Hgt Ht.
    pose proof (num_field_nonnull _ _ _ Hd) as Hp.
    pose proof (num_field_nonnull _ _ _ Ht) as He.
    unfold Esp32Control.selectCleaningMethod, try_catch, bind.
    rewrite (both_gets _ _ _ A1 A2).
    unfold Store.snapshot_exists. rewrite Hp, He. cbn.
    rewrite (prop_nonnull _ _ _ Hp), Hd. cbn.
    rewrite (Qle_bool_false _ _ Hgt). cbn.
    rewrite (prop_nonnull _ _ _ He), Ht. cbn.
    repeat split; intros H.
    + rewrite Qle_bool_true; [reflexivity|]. rewrite H. apply Qle_refl.
    + now rewrite (Qle_bool_true _ _ H).
    + now rewrite (Qle_bool_false _ _ H).
Qed.

Lemma method_boundaries_witness :
  fst (Esp32Control.selectCleaningMethod "panel-7" Sample.thresholdWorld)
    = Ret "dry" /\
  fst (Esp32Control.selectCleaningMethod "panel-7" Sample.warmDustyWorld)
    = Ret "wet".
Proof.
  split.
  - apply (method_boundaries Sample.thresholdWorld "panel-7") with 100;
      reflexivity.
  - destruct (method_boundaries Sample.warmDustyWorld "panel-7") as (_ & Hhot).
    destruct (Hhot 101 45 eq_refl eq_refl eq_refl eq_refl eq_refl)
      as (Hat45 & _).
    apply Hat45. reflexivity.
Defined.

(** C2 as stated fails: with a dust level of 101 and a temperature of exactly
    45, the method is ['wet'], not ['dry']. *)
Lemma method_at_45_counterexample :
  Js.get_field (Store.read Sample.warmDustyWorld "devices/panel-7/panelStatus")
    "dustLevel" = VNum 101 /\
  Js.get_field (Store.read Sample.warmDustyWorld "devices/panel-7/environment")
    "temperature" = VNum 45 /\
  fst (Esp32Control.selectCleaningMethod "panel-7" Sample.warmDustyWorld)
    = Ret "wet" /\
  fst (Esp32Control.selectCleaningMethod "panel-7" Sample.warmDustyWorld)
    <> Ret "dry".
Proof.
  repeat split. discriminate.
Qed.

(* ================================================================== *)
(** ** The weather integration module *)







(** *** Dust-level updates and the device coordinates *)

Lemma location_not_set (w : World) (deviceId : string) :
  let info := Store.read w ("devices/" ++ deviceId ++ "/info") in
  accepts w ->
  Store.snapshot_exists info = true ->
  Js.truthy (Js.get_field info "lat") = false
  \/ Js.truthy (Js.get_field info "lon") = false ->
  Weather.updateDustLevel deviceId w
  = (Ret (result_error "Device location not set"), requested w).
Proof.
  intros info Hacc Hex Hzero. subst info.
  unfold Store.snapshot_exists in Hex. apply negb_true_iff in Hex.
  unfold Weather.updateDustLevel, try_catch, bind.
  rewrite (get_accepted _ _ Hacc).
  unfold Store.snapshot_exists. rewrite Hex. cbn.
  rewrite !(prop_nonnull _ _ _ Hex).
  destruct Hzero as [-> | ->]; cbn; [reflexivity|].
  now rewrite orb_true_r.
Qed.

(* ================================================================== *)
(** ** The database initialisation module *)

(** What an accepted [addDeviceToUser] returns and leaves behind. *)
Lemma addDeviceToUser_accepted (w : World) (userId : string) (deviceInfo : value) :
  accepts w -> accepts (requested w) -> deviceInfo <> VNull ->
  let info := Js.default_param deviceInfo (VObj []) in
  let deviceId := pushKey (host w) (pushes w) in
  let tree :=
    Database.deviceData userId
      (Js.or_else (Js.get_field info "name") (VStr "Solar Panel Device"))
      (Js.or_else (Js.get_field info "location") (VStr "Not specified"))
      (VStr (isoDate (host w) (clock (host w) (ticks w))))
      (Js.or_else (Js.get_field info "panelRating") (VNum 300))
      (Js.or_else (Js.get_field info "lat") (VNum 0))
      (Js.or_else (Js.get_field info "lon") (VNum 0))
      (VNum (inject_Z (clock (host w) (1 + ticks w))))
      (VNum (inject_Z (clock (host w) (2 + ticks w))))
      (VNum (inject_Z (clock (host w) (3 + ticks w))))
      (VNum (inject_Z (clock (host w) (4 + ticks w))))
      (VNum (inject_Z (clock (host w) (5 + ticks w)))) in
  Database.addDeviceToUser userId deviceInfo w
  = (Ret (VObj [("success", VBool true);
                ("deviceId", VStr deviceId);
                ("message", VStr "Device added successfully")]),
     {| host := host w;
        database :=
          Store.tree_set
            (Store.tree_set (database w)
               (Store.pieces ("users/" ++ userId ++ "/devices/" ++ deviceId))
               (VBool true))
            (Store.pieces ("devices/" ++ deviceId)) tree;
        localStorage := localStorage w;
        ticks := 6 + ticks w;
        requests := 2 + requests w;
        pushes := 1 + pushes w;
        fetches := fetches w |}).
Proof.
  intros A1 A2 Hinfo info deviceId tree. unfold accepts in *. cbn in A2.
  assert (Hn : Js.nullish info = false) by (subst info; now destruct deviceInfo).
  unfold Database.addDeviceToUser, try_catch, bind, Store.set, Store.request,
    Store.push_key, Date_today, Date_now, bind.
  cbn. rewrite A1. cbn. fold info. rewrite !(prop_nonnull _ _ _ Hn). cbn.
  rewrite A2. reflexivity.
Qed.

(** C6. When the store accepts both writes, [addDeviceToUser] returns the
    generated device identifier and leaves a reference under the owner.  The
    device subtree then reads back as the store presents the default tree
    [deviceData]: the numeric telemetry is zero, and [cleaningControl] has
    mode ['manual'], method ['dry'], status ['idle'], [pwmDry = 150],
    [pwmWet = 180] and [trigger = 0].  The leaves written as [null]
    ([lastCleaning], [nextScheduled], [startTime], [estimatedCompletion]) and
    the empty [historicalData] are not stored: they read [null] and are
    absent from the node read back. *)
Theorem provision_roundtrip (w : World) (userId : string) (deviceInfo : value) :
  accepts w -> accepts (requested w) -> deviceInfo <> VNull ->
  let info := Js.default_param deviceInfo (VObj []) in
  let deviceId := pushKey (host w) (pushes w) in
  let run := Database.addDeviceToUser userId deviceInfo w in
  let device path := Store.read (snd run) ("devices/" ++ deviceId ++ "/" ++ path) in
  let node path :=
    Store.presented (snd run) ("devices/" ++ deviceId ++ "/" ++ path) in
  fst run = Ret (VObj [("success", VBool true);
                       ("deviceId", VStr deviceId);
                       ("message", VStr "Device added successfully")]) /\
  Store.read (snd run) ("users/" ++ userId ++ "/devices/" ++ deviceId)
    = VBool true /\
  Store.presented (snd run) ("devices/" ++ deviceId)
    = Store.present
        (Database.deviceData userId
           (Js.or_else (Js.get_field info "name") (VStr "Solar Panel Device"))
           (Js.or_else (Js.get_field info "location") (VStr "Not specified"))
           (VStr (isoDate (host w) (clock (host w) (ticks w))))
           (Js.or_else (Js.get_field info "panelRating") (VNum 300))
           (Js.or_else (Js.get_field info "lat") (VNum 0))
           (Js.or_else (Js.get_field info "lon") (VNum 0))
           (VNum (inject_Z (clock (host w) (1 + ticks w))))
           (VNum (inject_Z (clock (host w) (2 + ticks w))))
           (VNum (inject_Z (clock (host w) (3 + ticks w))))
           (VNum (inject_Z (clock (host w) (4 + ticks w))))
           (VNum (inject_Z (clock (host w) (5 + ticks w))))) /\
  node "environment"
    = VObj [("humidity", VNum 0); ("temperature", VNum 0);
            ("dustPresence", VNum 0);
            ("timestamp", VNum (inject_Z (clock (host w) (2 + ticks w))))] /\
  node "panelParameters"
    = VObj [("voltage", VNum 0); ("current", VNum 0); ("power", VNum 0);
            ("timestamp", VNum (inject_Z (clock (host w) (3 + ticks w))))] /\
  node "panelStatus"
    = VObj [("dustLevel", VNum 0); ("dustCategory", VStr "light");
            ("currentEfficiency", VNum 0);
            ("dailyLoss", VObj [("kwh", VNum 0); ("percentage", VNum 0);
                                ("currency", VNum 0)]);
            ("weeklyLoss", VObj [("kwh", VNum 0); ("avgPercentage", VNum 0)]);
            ("monthlyLoss", VObj [("kwh", VNum 0); ("avgPercentage", VNum 0)]);
            ("lastUpdated", VNum (inject_Z (clock (host w) (4 + ticks w))))] /\
  node "cleaningControl"
    = VObj [("mode", VStr "manual"); ("method", VStr "dry");
            ("status", VStr "idle"); ("pwmDry", VNum 150);
            ("pwmWet", VNum 180); ("trigger", VNum 0);
            ("autoSettings",
             VObj [("enabled", VBool false); ("dustThreshold", VNum 100);
                   ("scheduleEnabled", VBool false);
                   ("schedule", VStr "daily")]);
            ("currentOperation",
             VObj [("progress", VNum 0); ("waterUsed", VNum 0)]);
            ("lastUpdated", VNum (inject_Z (clock (host w) (5 + ticks w))))] /\
  node "historicalData" = VNull /\
  device "cleaningControl/autoSettings/lastCleaning" = VNull /\
  device "cleaningControl/autoSettings/nextScheduled" = VNull /\
  device "cleaningControl/currentOperation/startTime" = VNull /\
  device "cleaningControl/currentOperation/estimatedCompletion" = VNull /\
  Forall (fun path => device path = VNum 0) zeroedTelemetry /\
  device "cleaningControl/mode" = VStr "manual" /\
  device "cleaningControl/method" = VStr "dry" /\
  device "cleaningControl/status" = VStr "idle" /\
  device "cleaningControl/pwmDry" = VNum 150 /\
  device "cleaningControl/pwmWet" = VNum 180 /\
  device "cleaningControl/trigger" = VNum 0.
Proof.
  intros A1 A2 Hinfo info deviceId run device node.
  subst run device node.
  rewrite (addDeviceToUser_accepted w userId deviceInfo A1 A2 Hinfo).
  fold info deviceId. cbn [fst snd].
  split; [reflexivity|].
  unfold Store.presented, zeroedTelemetry.
  repeat match goal with |- _ /\ _ => split end;
    repeat (apply Forall_cons || apply Forall_nil);
    read_back; reflexivity.
Qed.

Lemma provision_roundtrip_witness :
  let after :=
    snd (Database.addDeviceToUser "owner-1" VUndefined Sample.emptyWorld) in
  fst (Database.addDeviceToUser "owner-1" VUndefined Sample.emptyWorld)
    = Ret (VObj [("success", VBool true);
                 ("deviceId", VStr "-NxPanel01");
                 ("message", VStr "Device added successfully")]) /\
  Store.read after "users/owner-1/devices/-NxPanel01" = VBool true /\
  Store.presented after "devices/-NxPanel01/cleaningControl"
    = VObj [("mode", VStr "manual"); ("method", VStr "dry");
            ("status", VStr "idle"); ("pwmDry", VNum 150);
            ("pwmWet", VNum 180); ("trigger", VNum 0);
            ("autoSettings",
             VObj [("enabled", VBool false); ("dustThreshold", VNum 100);
                   ("scheduleEnabled", VBool false);
                   ("schedule", VStr "daily")]);
            ("currentOperation",
             VObj [("progress", VNum 0); ("waterUsed", VNum 0)]);
            ("lastUpdated", VNum 9000)] /\
  Store.presented after "devices/-NxPanel01/historicalData" = VNull /\
  Store.read after "devices/-NxPanel01/cleaningControl/autoSettings/lastCleaning"
    = VNull /\
  Store.read after "devices/-NxPanel01/cleaningControl/pwmWet" = VNum 180.
Proof.
  destruct (provision_roundtrip Sample.emptyWorld "owner-1" VUndefined
              eq_refl eq_refl)
    as (Hret & Hown & _ & _ & _ & _ & Hcontrol & Hhist & Hlast & _ & _ & _
        & _ & _ & _ & _ & _ & Hwet & _).
  - discriminate.
  - split; [exact Hret|]. split; [exact Hown|]. split; [exact Hcontrol|].
    split; [exact Hhist|]. split; [exact Hlast|exact Hwet].
Defined.

(* ================================================================== *)
(** ** Devices without coordinates *)

(** C9. For a device whose [info.lat] or [info.lon] is 0, [updateDustLevel]
    returns [{success: false, error: 'Device location not set'}] and writes
    nothing.  Coordinates of 0 are what [addDeviceToUser] writes when none
    are supplied, so a device provisioned that way is refused. *)
Theorem zero_coordinates_block_dust_updates :
  (forall (w : World) (deviceId : string),
     let info := Store.read w ("devices/" ++ deviceId ++ "/info") in
     accepts w ->
     Store.snapshot_exists info = true ->
     is_num (Js.get_field info "lat") 0 \/ is_num (Js.get_field info "lon") 0 ->
     fst (Weather.updateDustLevel deviceId w)
       = Ret (result_error "Device location not set") /\
     database (snd (Weather.updateDustLevel deviceId w)) = database w) /\
  (forall (w : World) (userId : string) (deviceInfo : value),
     let info := Js.default_param deviceInfo (VObj []) in
     let deviceId := pushKey (host w) (pushes w) in
     let provisioned := snd (Database.addDeviceToUser userId deviceInfo w) in
     accepts w -> accepts (requested w) -> accepts (requested (requested w)) ->
     deviceInfo <> VNull ->
     Js.truthy (Js.get_field info "lat") = false
     \/ Js.truthy (Js.get_field info "lon") = false ->
     (is_num (Store.read provisioned ("devices/" ++ deviceId ++ "/info/lat")) 0
      \/ is_num (Store.read provisioned ("devices/" ++ deviceId ++ "/info/lon")) 0) /\
     fst (Weather.updateDustLevel deviceId provisioned)
       = Ret (result_error "Device location not set") /\
     database (snd (Weather.updateDustLevel deviceId provisioned))
       = database provisioned).
Proof.
  split.
  - intros w deviceId info Hacc Hex Hzero.
    rewrite (location_not_set w deviceId Hacc Hex).
    + split; reflexivity.
    + destruct Hzero as [H|H]; [left|right]; exact (falsy_zero _ H).
  - intros w userId deviceInfo info deviceId provisioned A1 A2 A3 Hinfo Hmissing.
    subst provisioned.
    rewrite (addDeviceToUser_accepted w userId deviceInfo A1 A2 Hinfo).
    fold info deviceId. cbn [snd].
    match goal with |- context [Weather.updateDustLevel deviceId ?w1] =>
      set (provisioned := w1) end.
    assert (Hlat : Js.get_field
                     (Store.read provisioned ("devices/" ++ deviceId ++ "/info"))
                     "lat"
                   = Js.or_else (Js.get_field info "lat") (VNum 0)).
    { unfold provisioned. read_back. reflexivity. }
    assert (Hlon : Js.get_field
                     (Store.read provisioned ("devices/" ++ deviceId ++ "/info"))
                     "lon"
                   = Js.or_else (Js.get_field info "lon") (VNum 0)).
    { unfold provisioned. read_back. reflexivity. }
    split.
    + replace (Store.read provisioned ("devices/" ++ deviceId ++ "/info/lat"))
        with (Js.or_else (Js.get_field info "lat") (VNum 0))
        by (unfold provisioned; read_back; reflexivity).
      replace (Store.read provisioned ("devices/" ++ deviceId ++ "/info/lon"))
        with (Js.or_else (Js.get_field info "lon") (VNum 0))
        by (unfold provisioned; read_back; reflexivity).
      unfold Js.or_else.
      destruct Hmissing as [-> | ->]; [left|right]; now apply is_num_intro.
    + rewrite (location_not_set provisioned deviceId).
      * split; reflexivity.
      * exact A3.
      * unfold provisioned. read_back. reflexivity.
      * rewrite Hlat, Hlon. unfold Js.or_else.
        destruct Hmissing as [-> | ->]; [left|right]; reflexivity.
Qed.

Lemma zero_coordinates_witness :
  fst (Weather.updateDustLevel "panel-7" Sample.cleaningWorld)
    = Ret (result_error "Device location not set") /\
  fst (Weather.updateDustLevel "-NxPanel01"
         (snd (Database.addDeviceToUser "owner-1" VUndefined Sample.emptyWorld)))
    = Ret (result_error "Device location not set").
Proof.
  destruct zero_coordinates_block_dust_updates as (Hzero & Hdefault).
  split.
  - apply (Hzero Sample.cleaningWorld "panel-7" eq_refl eq_refl).
    left. apply is_num_intro. reflexivity.
  - apply (Hdefault Sample.emptyWorld "owner-1" VUndefined
             eq_refl eq_refl eq_refl).
    + discriminate.
    + left. reflexivity.
Defined.

(* ================================================================== *)
(** ** js/shared/storage.js *)

(** C8. For a stored key whose envelope carries the expiry [expiry]: when the
    clock is past it, [getWithExpiry] returns the caller's default, deletes
    the entry, and the entry reads as absent afterwards; otherwise it returns
    the stored value and leaves the storage as it is. *)
Theorem expiring_read (w : World) (key : string) (defaultValue : value)
    (storage : list (string * string)) (raw : string) (payload : value)
    (expiry : Q) :
  localStorage w = Some storage ->
  key <> "" ->
  Js.lookup key storage = Some raw ->
  jsonParse (host w) raw = Some payload ->
  Js.truthy payload = true -> Js.typeof_object payload = true ->
  Js.get_field payload "expiry" = VNum expiry ->
  let run := StorageUtil.getWithExpiry key defaultValue w in
  (expiry < inject_Z (now w) ->
     fst run = Ret (Js.default_param defaultValue VNull) /\
     localStorage (snd run) = Some (Js.remove key storage) /\
     fst (StorageUtil.getItem key VUndefined (snd run)) = Ret VNull) /\
  (inject_Z (now w) <= expiry ->
     fst run = Ret (Js.get_field payload "value") /\
     localStorage (snd run) = Some storage).
Proof.
  intros Hst Hkey Hraw Hparse Htruthy Hobj Hexp run. subst run.
  apply String.eqb_neq in Hkey.
  unfold StorageUtil.getWithExpiry, bind, StorageUtil.getItem.
  rewrite Hst, Hkey, Hraw, Hparse, Htruthy, Hobj, Hexp. cbn.
  split; intros Hnow.
  - rewrite (Qle_bool_false _ _ Hnow). cbn.
    unfold StorageUtil.removeItem. cbn. rewrite Hst, Hkey. cbn.
    repeat split. now rewrite lookup_remove_same.
  - rewrite (Qle_bool_true _ _ Hnow). cbn. now split.
Qed.

Lemma expiring_read_witness :
  (fst (StorageUtil.getWithExpiry "theme" (VStr "light") Sample.emptyWorld)
     = Ret (VStr "light") /\
   localStorage
     (snd (StorageUtil.getWithExpiry "theme" (VStr "light") Sample.emptyWorld))
     = Some []) /\
  fst (StorageUtil.getWithExpiry "theme" (VStr "light") Sample.earlyWorld)
    = Ret (VStr "dark").
Proof.
  split.
  - destruct (expiring_read Sample.emptyWorld "theme" (VStr "light")
                [("theme", "{'value':'dark','expiry':5000}")]
                "{'value':'dark','expiry':5000}"
                (VObj [("value", VStr "dark"); ("expiry", VNum 5000)]) 5000
                eq_refl ltac:(discriminate)
                eq_refl eq_refl eq_refl eq_refl eq_refl) as (Hexpired & _).
    destruct Hexpired as (Hret & Hgone & _); [reflexivity|].
    split; [exact Hret|exact Hgone].
  - destruct (expiring_read Sample.earlyWorld "theme" (VStr "light")
                [("theme", "{'value':'dark','expiry':5000}")]
                "{'value':'dark','expiry':5000}"
                (VObj [("value", VStr "dark"); ("expiry", VNum 5000)]) 5000
                eq_refl ltac:(discriminate)
                eq_refl eq_refl eq_refl eq_refl eq_refl) as (_ & Hfresh).
    destruct Hfresh as (Hret & _); [vm_compute; discriminate|].
    exact Hret.
Defined.

(* ================================================================== *)
(** * Further properties *)

(** ** Building the updates of one device *)

#[local] Arguments Js.assign : simpl never.

Lemma assign_nil {A : Type} (k : string) (v : A) : Js.assign k v [] = [(k, v)].
Proof. reflexivity. Qed.

Lemma assign_cons_other {A : Type} (k k' : string) (v v' : A) fs :
  String.eqb k k' = false ->
  Js.assign k v ((k', v') :: fs) = (k', v') :: Js.assign k v fs.
Proof. intros H. unfold Js.assign at 1. now rewrite H. Qed.

Lemma assign_cons_same {A : Type} (k : string) (v v' : A) fs :
  Js.assign k v ((k, v') :: fs) = (k, v) :: fs.
Proof. unfold Js.assign at 1. now rewrite String.eqb_refl. Qed.

(** The property list after a sequence of assignments to distinct paths. *)
Ltac assign_list :=
  repeat first
    [ rewrite assign_nil
    | rewrite assign_cons_same
    | rewrite assign_cons_other by (rewrite ?string_eqb_app_l; reflexivity) ].

Lemma pieces_device_control (deviceId path : string) :
  Store.pieces ("devices/" ++ deviceId ++ "/cleaningControl/" ++ path)
  = "devices" :: (Store.pieces deviceId ++ "cleaningControl" :: Store.pieces path)%list.
Proof.
  change ("devices/" ++ deviceId ++ "/cleaningControl/" ++ path)
    with ("devices" ++ String "/"
            (deviceId ++ String "/" ("cleaningControl" ++ String "/" path))).
  now rewrite !StoreFacts.pieces_slash.
Qed.

Lemma pieces_device_info (deviceId path : string) :
  Store.pieces ("devices/" ++ deviceId ++ "/info/" ++ path)
  = "devices" :: (Store.pieces deviceId ++ "info" :: Store.pieces path)%list.
Proof.
  change ("devices/" ++ deviceId ++ "/info/" ++ path)
    with ("devices" ++ String "/"
            (deviceId ++ String "/" ("info" ++ String "/" path))).
  now rewrite !StoreFacts.pieces_slash.
Qed.

(** Reading the database of a world that is given by its updates. *)
Ltac read_updates :=
  unfold Store.read, Store.tree_update;
  cbn [database with_database fst snd fold_left];
  rewrite ?pieces_device_control, ?pieces_device_info;
  store_paths.

(** A function that builds its updates and sends them in one request. *)
Ltac run_update Hacc :=
  unfold try_catch, bind, lift, Store.update, Store.request, bind;
  cbn; rewrite ?Hacc; cbn; assign_list.

(** ** Commands to the hardware *)

Lemma sendCleaningCommand_start (w : World) (deviceId : string)
    (trigger method pwm : value) :
  accepts w -> Js.strict_eq trigger (VNum 1) = true ->
  Esp32Control.sendCleaningCommand deviceId trigger method pwm w
  = (Ret result_ok,
     with_database
       (Store.tree_update (database w)
          [("devices/" ++ deviceId ++ "/cleaningControl/trigger", trigger);
           ("devices/" ++ deviceId ++ "/cleaningControl/method", method);
           (if Js.strict_eq method (VStr "dry")
            then "devices/" ++ deviceId ++ "/cleaningControl/pwmDry"
            else "devices/" ++ deviceId ++ "/cleaningControl/pwmWet", pwm);
           ("devices/" ++ deviceId ++ "/cleaningControl/status", VStr "cleaning");
           ("devices/" ++ deviceId ++ "/cleaningControl/lastUpdated",
            VNum (inject_Z (clock (host w) (ticks w))));
           ("devices/" ++ deviceId ++ "/cleaningControl/currentOperation/startTime",
            VNum (inject_Z (clock (host w) (S (ticks w)))));
           ("devices/" ++ deviceId ++ "/cleaningControl/currentOperation/progress",
            VNum 0);
           ("devices/" ++ deviceId ++ "/cleaningControl/currentOperation/waterUsed",
            VNum 0)])
       (requested (tick (tick w)))).
Proof.
  intros Hacc Hstart. unfold accepts in Hacc.
  unfold Esp32Control.sendCleaningCommand. rewrite Hstart.
  destruct (Js.strict_eq method (VStr "dry")); run_update Hacc; reflexivity.
Qed.

Lemma sendCleaningCommand_stop (w : World) (deviceId : string)
    (trigger method pwm : value) :
  accepts w -> Js.strict_eq trigger (VNum 1) = false ->
  Esp32Control.sendCleaningCommand deviceId trigger method pwm w
  = (Ret result_ok,
     with_database
       (Store.tree_update (database w)
          [("devices/" ++ deviceId ++ "/cleaningControl/trigger", trigger);
           ("devices/" ++ deviceId ++ "/cleaningControl/method", method);
           (if Js.strict_eq method (VStr "dry")
            then "devices/" ++ deviceId ++ "/cleaningControl/pwmDry"
            else "devices/" ++ deviceId ++ "/cleaningControl/pwmWet", pwm);
           ("devices/" ++ deviceId ++ "/cleaningControl/status", VStr "idle");
           ("devices/" ++ deviceId ++ "/cleaningControl/lastUpdated",
            VNum (inject_Z (clock (host w) (ticks w))))])
       (requested (tick w))).
Proof.
  intros Hacc Hstop. unfold accepts in Hacc.
  unfold Esp32Control.sendCleaningCommand. rewrite Hstop.
  destruct (Js.strict_eq method (VStr "dry")); run_update Hacc; reflexivity.
Qed.

(** X1. A start command ([trigger === 1]) that the store accepts sets the status
    to ['cleaning'], records the trigger, the method and the time, and starts
    a fresh operation: start time, progress 0, water 0.  The PWM value goes
    to [pwmDry] when the method is ['dry'] and to [pwmWet] otherwise, and the
    other PWM value is left as it was. *)
Theorem start_command (w : World) (deviceId : string) (trigger method pwm : value) :
  let run := Esp32Control.sendCleaningCommand deviceId trigger method pwm w in
  let control path :=
    Store.read (snd run) ("devices/" ++ deviceId ++ "/cleaningControl/" ++ path) in
  let before path :=
    Store.read w ("devices/" ++ deviceId ++ "/cleaningControl/" ++ path) in
  accepts w ->
  Js.strict_eq trigger (VNum 1) = true ->
  fst run = Ret result_ok /\
  control "status" = VStr "cleaning" /\
  control "trigger" = trigger /\
  control "method" = method /\
  control "lastUpdated" = VNum (inject_Z (clock (host w) (ticks w))) /\
  control "currentOperation/startTime"
    = VNum (inject_Z (clock (host w) (S (ticks w)))) /\
  control "currentOperation/progress" = VNum 0 /\
  control "currentOperation/waterUsed" = VNum 0 /\
  (Js.strict_eq method (VStr "dry") = true ->
   control "pwmDry" = pwm /\ control "pwmWet" = before "pwmWet") /\
  (Js.strict_eq method (VStr "dry") = false ->
   control "pwmWet" = pwm /\ control "pwmDry" = before "pwmDry").
Proof.
  intros run control before Hacc Hstart. subst run control before.
  rewrite (sendCleaningCommand_start _ _ _ _ _ Hacc Hstart).
  destruct (Js.strict_eq method (VStr "dry")); read_updates;
    repeat split; store_read; try discriminate; reflexivity.
Qed.

Lemma start_command_witness :
  let run :=
    Esp32Control.sendCleaningCommand "panel-7" (VNum 1) (VStr "wet") (VNum 180)
      Sample.emptyWorld in
  fst run = Ret result_ok /\
  Store.read (snd run) "devices/panel-7/cleaningControl/status" = VStr "cleaning" /\
  Store.read (snd run) "devices/panel-7/cleaningControl/pwmWet" = VNum 180.
Proof.
  destruct (start_command Sample.emptyWorld "panel-7" (VNum 1) (VStr "wet")
              (VNum 180) eq_refl eq_refl)
    as (Hok & Hstatus & _ & _ & _ & _ & _ & _ & _ & Hwet).
  split; [exact Hok|]. split; [exact Hstatus|].
  exact (proj1 (Hwet eq_refl)).
Defined.

(** X2. Any other trigger is a stop: the status becomes ['idle'], and the
    operation in progress (start time, progress, water used) is left as it
    was.  The command is accepted whatever the stored status is. *)
Theorem stop_command (w : World) (deviceId : string) (trigger method pwm : value) :
  let run := Esp32Control.sendCleaningCommand deviceId trigger method pwm w in
  let control path :=
    Store.read (snd run) ("devices/" ++ deviceId ++ "/cleaningControl/" ++ path) in
  let before path :=
    Store.read w ("devices/" ++ deviceId ++ "/cleaningControl/" ++ path) in
  accepts w ->
  Js.strict_eq trigger (VNum 1) = false ->
  fst run = Ret result_ok /\
  control "status" = VStr "idle" /\
  control "trigger" = trigger /\
  control "method" = method /\
  control "lastUpdated" = VNum (inject_Z (now w)) /\
  control "currentOperation/startTime" = before "currentOperation/startTime" /\
  control "currentOperation/progress" = before "currentOperation/progress" /\
  control "currentOperation/waterUsed" = before "currentOperation/waterUsed".
Proof.
  intros run control before Hacc Hstop. subst run control before.
  rewrite (sendCleaningCommand_stop _ _ _ _ _ Hacc Hstop).
  destruct (Js.strict_eq method (VStr "dry")); read_updates;
    repeat split; store_read; reflexivity.
Qed.

Lemma stop_command_witness :
  let run :=
    Esp32Control.sendCleaningCommand "panel-7" (VNum 0) (VStr "dry") (VNum 150)
      Sample.cleaningWorld in
  fst run = Ret result_ok /\
  Store.read (snd run) "devices/panel-7/cleaningControl/status" = VStr "idle".
Proof.
  destruct (stop_command Sample.cleaningWorld "panel-7" (VNum 0) (VStr "dry")
              (VNum 150) eq_refl eq_refl) as (Hok & Hstatus & _).
  split; [exact Hok|exact Hstatus].
Defined.

Lemma reportError_accepted (w : World) (deviceId : string) (errorMessage : value) :
  accepts w ->
  Esp32Control.reportError deviceId errorMessage w
  = (Ret result_ok,
     with_database
       (Store.tree_update (database w)
          [("devices/" ++ deviceId ++ "/cleaningControl/status", VStr "error");
           ("devices/" ++ deviceId ++ "/cleaningControl/trigger", VNum 0);
           ("devices/" ++ deviceId ++ "/cleaningControl/lastError",
            VObj [("message", errorMessage);
                  ("timestamp", VNum (inject_Z (now w)))])])
       (requested (tick w))).
Proof.
  intros Hacc. unfold accepts in Hacc.
  unfold Esp32Control.reportError. run_update Hacc. reflexivity.
Qed.

(** X3. An error report that the store accepts sets the status to ['error'],
    resets the trigger to 0 and records the message with the time of the
    report, whatever the stored status is; the method, the PWM values, the
    operation in progress and the automatic settings are left as they were. *)
Theorem error_report (w : World) (deviceId : string) (errorMessage : value) :
  let run := Esp32Control.reportError deviceId errorMessage w in
  let control path :=
    Store.read (snd run) ("devices/" ++ deviceId ++ "/cleaningControl/" ++ path) in
  let before path :=
    Store.read w ("devices/" ++ deviceId ++ "/cleaningControl/" ++ path) in
  accepts w ->
  fst run = Ret result_ok /\
  control "status" = VStr "error" /\
  control "trigger" = VNum 0 /\
  control "lastError/message" = errorMessage /\
  control "lastError/timestamp" = VNum (inject_Z (now w)) /\
  Forall (fun path => control path = before path)
    ["method"; "mode"; "pwmDry"; "pwmWet"; "currentOperation"; "autoSettings"].
Proof.
  intros run control before Hacc. subst run control before.
  rewrite (reportError_accepted _ _ _ Hacc).
  repeat rewrite Forall_cons_iff. rewrite Forall_nil_iff.
  read_updates. repeat split; store_read; reflexivity.
Qed.

Lemma error_report_witness :
  let run :=
    Esp32Control.reportError "panel-7" (VStr "motor stalled") Sample.cleaningWorld in
  fst run = Ret result_ok /\
  Store.read (snd run) "devices/panel-7/cleaningControl/status" = VStr "error" /\
  Store.read (snd run) "devices/panel-7/cleaningControl/trigger" = VNum 0.
Proof.
  destruct (error_report Sample.cleaningWorld "panel-7" (VStr "motor stalled")
              eq_refl) as (Hok & Hstatus & Htrigger & _).
  split; [exact Hok|]. split; [exact Hstatus|exact Htrigger].
Defined.

Lemma setDeviceStatus_accepted (w : World) (deviceId : string) (isOnline : value) :
  accepts w ->
  Esp32Control.setDeviceStatus deviceId isOnline w
  = (Ret result_ok,
     with_database
       (Store.tree_update (database w)
          [("devices/" ++ deviceId ++ "/info/status",
            if Js.truthy isOnline then VStr "online" else VStr "offline");
           ("devices/" ++ deviceId ++ "/info/lastUpdated",
            VNum (inject_Z (now w)))])
       (requested (tick w))).
Proof.
  intros Hacc. unfold accepts in Hacc.
  unfold Esp32Control.setDeviceStatus. run_update Hacc. reflexivity.
Qed.

(** X4. [setDeviceStatus] records ['online'] for a truthy flag and ['offline']
    for a falsy one, with the time of the call, and leaves the rest of the
    device's [info] as it was. *)
Theorem device_status (w : World) (deviceId : string) (isOnline : value) :
  let run := Esp32Control.setDeviceStatus deviceId isOnline w in
  let info path :=
    Store.read (snd run) ("devices/" ++ deviceId ++ "/info/" ++ path) in
  accepts w ->
  fst run = Ret result_ok /\
  (Js.truthy isOnline = true -> info "status" = VStr "online") /\
  (Js.truthy isOnline = false -> info "status" = VStr "offline") /\
  info "lastUpdated" = VNum (inject_Z (now w)) /\
  Forall (fun path =>
            info path = Store.read w ("devices/" ++ deviceId ++ "/info/" ++ path))
    ["name"; "location"; "lat"; "lon"; "ownerId"].
Proof.
  intros run info Hacc. subst run info.
  rewrite (setDeviceStatus_accepted _ _ _ Hacc).
  repeat rewrite Forall_cons_iff. rewrite Forall_nil_iff.
  read_updates.
  destruct (Js.truthy isOnline); repeat split; store_read;
    try discriminate; reflexivity.
Qed.

Lemma device_status_witness :
  let run := Esp32Control.setDeviceStatus "panel-7" (VBool false) Sample.cleaningWorld in
  fst run = Ret result_ok /\
  Store.read (snd run) "devices/panel-7/info/status" = VStr "offline".
Proof.
  destruct (device_status Sample.cleaningWorld "panel-7" (VBool false) eq_refl)
    as (Hok & _ & Hoff & _).
  split; [exact Hok|exact (Hoff eq_refl)].
Defined.

Lemma updateCleaningProgress_complete (w : World) (deviceId : string) (p : Q)
    (waterUsed : value) :
  100 <= p -> accepts w ->
  Esp32Control.updateCleaningProgress deviceId (VNum p) waterUsed w
  = (Ret result_ok,
     with_database
       (Store.tree_update (database w)
          [("devices/" ++ deviceId ++ "/cleaningControl/currentOperation/progress",
            VNum p);
           ("devices/" ++ deviceId ++ "/cleaningControl/currentOperation/waterUsed",
            Js.default_param waterUsed (VNum 0));
           ("devices/" ++ deviceId ++ "/cleaningControl/status", VStr "completed");
           ("devices/" ++ deviceId ++ "/cleaningControl/trigger", VNum 0);
           ("devices/" ++ deviceId ++ "/cleaningControl/autoSettings/lastCleaning",
            VNum (inject_Z (now w)))])
       (requested (tick w))).
Proof.
  intros Hp Hacc. unfold accepts in Hacc.
  unfold Esp32Control.updateCleaningProgress, try_catch, bind, lift,
    Store.update, Store.request, bind.
  cbn. rewrite (Qle_bool_true _ _ Hp). cbn. rewrite Hacc. cbn.
  assign_list. reflexivity.
Qed.

(** X5. The cycle of the state machine: a start command followed by a progress
    report of at least 100 leaves the status ['completed'] and the trigger 0,
    keeps the commanded method and the start time of the operation, and
    stamps [lastCleaning] with the time of the report. *)
Theorem command_then_complete (w : World) (deviceId : string)
    (method pwm waterUsed : value) (p : Q) :
  let started :=
    snd (Esp32Control.sendCleaningCommand deviceId (VNum 1) method pwm w) in
  let finished :=
    snd (Esp32Control.updateCleaningProgress deviceId (VNum p) waterUsed started) in
  let control w' path :=
    Store.read w' ("devices/" ++ deviceId ++ "/cleaningControl/" ++ path) in
  accepts w -> accepts (requested w) -> 100 <= p ->
  control started "status" = VStr "cleaning" /\
  control started "trigger" = VNum 1 /\
  control finished "status" = VStr "completed" /\
  control finished "trigger" = VNum 0 /\
  control finished "method" = method /\
  control finished "currentOperation/progress" = VNum p /\
  control finished "currentOperation/startTime"
    = VNum (inject_Z (clock (host w) (1 + ticks w))) /\
  control finished "autoSettings/lastCleaning"
    = VNum (inject_Z (clock (host w) (2 + ticks w))).
Proof.
  intros started finished control A1 A2 Hp.
  subst finished started control.
  rewrite (sendCleaningCommand_start w deviceId (VNum 1) method pwm A1 eq_refl).
  cbn [snd].
  rewrite updateCleaningProgress_complete; [|exact Hp|exact A2].
  destruct (Js.strict_eq method (VStr "dry")); read_updates;
    repeat split; store_read; reflexivity.
Qed.

Lemma command_then_complete_witness :
  let started :=
    snd (Esp32Control.sendCleaningCommand "panel-7" (VNum 1) (VStr "wet")
           (VNum 180) Sample.emptyWorld) in
  let finished :=
    snd (Esp32Control.updateCleaningProgress "panel-7" (VNum 100) VUndefined
           started) in
  Store.read finished "devices/panel-7/cleaningControl/status" = VStr "completed" /\
  Store.read finished "devices/panel-7/cleaningControl/method" = VStr "wet".
Proof.
  destruct (command_then_complete Sample.emptyWorld "panel-7" (VStr "wet")
              (VNum 180) VUndefined 100 eq_refl eq_refl (Qle_refl 100))
    as (_ & _ & Hstatus & _ & Hmethod & _).
  split; [exact Hstatus|exact Hmethod].
Defined.

(** ** Rejected and partial writes *)

(** X6. A function that writes in one request and is refused by the store
    returns [{success: false, error}] with the store's message and leaves
    the database as it was; the same holds for the two-step functions when
    their first write is refused. *)
Theorem rejected_write (w : World) (message : string) :
  rejects (host w) (requests w) = Some message ->
  let failed (run : outcome value * World) :=
    fst run = Ret (result_error message) /\ database (snd run) = database w in
  (forall deviceId trigger method pwm,
     failed (Esp32Control.sendCleaningCommand deviceId trigger method pwm w)) /\
  (forall deviceId errorMessage,
     failed (Esp32Control.reportError deviceId errorMessage w)) /\
  (forall deviceId isOnline,
     failed (Esp32Control.setDeviceStatus deviceId isOnline w)) /\
  (forall deviceId path value,
     failed (Database.updateDeviceData deviceId path value w)) /\
  (forall deviceId date data,
     failed (Database.addHistoricalData deviceId date data w)) /\
  (forall userId deviceInfo,
     failed (Database.addDeviceToUser userId deviceInfo w)) /\
  (forall userId deviceId,
     failed (Database.deleteDevice userId deviceId w)).
Proof.
  intros Hrej failed. subst failed.
  repeat split; intros;
    unfold Esp32Control.sendCleaningCommand, Esp32Control.reportError,
      Esp32Control.setDeviceStatus, Database.updateDeviceData,
      Database.addHistoricalData, Database.addDeviceToUser,
      Database.deleteDevice, try_catch, bind, lift, Store.update, Store.set,
      Store.request, Store.push_key, bind;
    cbn;
    try (destruct (Js.strict_eq trigger (VNum 1)); cbn);
    rewrite Hrej; reflexivity.
Qed.

Lemma rejected_write_witness :
  let run :=
    Esp32Control.reportError "panel-7" (VStr "motor stalled") Sample.refusedWorld in
  fst run = Ret (result_error "PERMISSION_DENIED") /\
  database (snd run) = database Sample.refusedWorld.
Proof.
  destruct (rejected_write Sample.refusedWorld "PERMISSION_DENIED" eq_refl)
    as (_ & Hreport & _).
  exact (Hreport "panel-7" (VStr "motor stalled")).
Defined.

(** X7. [addDeviceToUser] is not atomic: when the store accepts the reference
    under the owner and refuses the device tree, the call fails, the
    reference stays, and the device path reads as before. *)
Theorem provision_partial (w : World) (userId : string) (deviceInfo : value)
    (message : string) :
  let deviceId := pushKey (host w) (pushes w) in
  let run := Database.addDeviceToUser userId deviceInfo w in
  accepts w ->
  rejects (host w) (S (requests w)) = Some message ->
  deviceInfo <> VNull ->
  fst run = Ret (result_error message) /\
  Store.read (snd run) ("users/" ++ userId ++ "/devices/" ++ deviceId)
    = VBool true /\
  Store.read (snd run) ("devices/" ++ deviceId)
    = Store.read w ("devices/" ++ deviceId).
Proof.
  intros deviceId run A1 R2 Hinfo. subst run. unfold accepts in A1.
  assert (Hn : Js.nullish (Js.default_param deviceInfo (VObj [])) = false)
    by now destruct deviceInfo.
  unfold Database.addDeviceToUser, try_catch, bind, Store.set, Store.request,
    Store.push_key, Date_today, Date_now, bind.
  cbn. rewrite A1. cbn. rewrite !(prop_nonnull _ _ _ Hn). cbn.
  rewrite R2. cbn. fold deviceId.
  split; [reflexivity|].
  unfold Store.read.
  cbn [database with_database requested tick pushed snd]. store_paths.
  split; store_read; reflexivity.
Qed.

Lemma provision_partial_witness :
  let run := Database.addDeviceToUser "owner-1" VUndefined Sample.halfRefusedWorld in
  fst run = Ret (result_error "PERMISSION_DENIED") /\
  Store.read (snd run) "users/owner-1/devices/-NxPanel01" = VBool true.
Proof.
  destruct (provision_partial Sample.halfRefusedWorld "owner-1" VUndefined
              "PERMISSION_DENIED" eq_refl eq_refl ltac:(discriminate))
    as (Hfail & Href & _).
  split; [exact Hfail|exact Href].
Defined.

Lemma deleteDevice_accepted (w : World) (userId deviceId : string) :
  accepts w -> accepts (requested w) ->
  Database.deleteDevice userId deviceId w
  = (Ret result_ok,
     with_database
       (Store.tree_set
          (Store.tree_set (database w)
             (Store.pieces ("users/" ++ userId ++ "/devices/" ++ deviceId)) VNull)
          (Store.pieces ("devices/" ++ deviceId)) VNull)
       (requested (requested w))).
Proof.
  intros A1 A2. unfold accepts in *. cbn in A2.
  unfold Database.deleteDevice, try_catch, bind, Store.set, Store.request, bind.
  cbn. rewrite A1. cbn. rewrite A2. reflexivity.
Qed.

Lemma tree_get_null (p : list string) : Store.tree_get VNull p = VNull.
Proof. induction p as [|k p IH]; [reflexivity|exact IH]. Qed.

(** X8. An accepted [deleteDevice] leaves nothing at the owner's reference nor at
    or below the device path, and every path that diverges from both reads
    as before.  It is not atomic either: when the second write is refused the
    call fails, the reference is gone and the device tree is still there. *)
Theorem device_deletion (w : World) (userId deviceId : string) :
  let run := Database.deleteDevice userId deviceId w in
  let reference := "users/" ++ userId ++ "/devices/" ++ deviceId in
  accepts w ->
  (accepts (requested w) ->
   fst run = Ret result_ok /\
   Store.read (snd run) reference = VNull /\
   Store.read (snd run) ("devices/" ++ deviceId) = VNull /\
   (forall rest,
      Store.read (snd run) ("devices/" ++ deviceId ++ "/" ++ rest) = VNull) /\
   (forall path,
      Store.diverge (Store.pieces reference) (Store.pieces path) = true ->
      Store.diverge (Store.pieces ("devices/" ++ deviceId)) (Store.pieces path)
        = true ->
      Store.read (snd run) path = Store.read w path)) /\
  (forall message,
     rejects (host w) (S (requests w)) = Some message ->
     fst run = Ret (result_error message) /\
     Store.read (snd run) reference = VNull /\
     Store.read (snd run) ("devices/" ++ deviceId)
       = Store.read w ("devices/" ++ deviceId)).
Proof.
  intros run reference A1. subst run reference. split.
  - intros A2. rewrite (deleteDevice_accepted _ _ _ A1 A2).
    split; [reflexivity|].
    unfold Store.read. cbn [database with_database snd].
    repeat split.
    + store_paths. store_read. reflexivity.
    + store_read. reflexivity.
    + intros rest. store_paths. store_read. apply tree_get_null.
    + intros path H1 H2.
      now rewrite !StoreFacts.tree_get_set_diverge.
  - intros message R2. unfold accepts in A1.
    unfold Database.deleteDevice, try_catch, bind, Store.set, Store.request, bind.
    cbn. rewrite A1. cbn. rewrite R2. cbn.
    split; [reflexivity|].
    unfold Store.read. cbn [database with_database requested snd]. store_paths.
    split; store_read; reflexivity.
Qed.

Lemma device_deletion_witness :
  (let run := Database.deleteDevice "owner-1" "panel-7" Sample.cleaningWorld in
   fst run = Ret result_ok /\
   Store.read (snd run) "devices/panel-7/info/lat" = VNull) /\
  (let run := Database.deleteDevice "owner-1" "panel-7" Sample.halfRefusedWorld in
   fst run = Ret (result_error "PERMISSION_DENIED") /\
   Store.read (snd run) "devices/panel-7"
   = Store.read Sample.halfRefusedWorld "devices/panel-7").
Proof.
  split.
  - destruct (device_deletion Sample.cleaningWorld "owner-1" "panel-7" eq_refl)
      as (Hdone & _).
    destruct (Hdone eq_refl) as (Hok & _ & _ & Hbelow & _).
    split; [exact Hok|exact (Hbelow "info/lat")].
  - destruct (device_deletion Sample.halfRefusedWorld "owner-1" "panel-7" eq_refl)
      as (_ & Hhalf).
    destruct (Hhalf "PERMISSION_DENIED" eq_refl) as (Hfail & _ & Hkept).
    split; [exact Hfail|exact Hkept].
Defined.

(** ** What the store presents, and the devices of a user *)

Lemma present_obj (fs : list (string * value)) :
  Store.present (VObj fs)
  = match Store.present_fields fs with
    | [] => VNull
    | fs' => VObj fs'
    end.
Proof.
  cbn [Store.present].
  match goal with
  | |- match ?each fs with _ => _ end = _ =>
      assert (E : forall l, each l = Store.present_fields l)
  end.
  { induction l as [|[k c] l IH]; [reflexivity|].
    cbn [Store.present_fields]. rewrite <- IH. reflexivity. }
  now rewrite E.
Qed.

(** A key whose child is present is presented. *)
Lemma present_fields_keeps (k : string) (c : value) fs :
  Js.lookup k fs = Some c -> Store.present c <> VNull ->
  In k (map fst (Store.present_fields fs)).
Proof.
  induction fs as [|[k' c'] fs IH]; [discriminate|].
  cbn [Js.lookup Store.present_fields].
  destruct (String.eqb k k') eqn:E.
  - apply String.eqb_eq in E. subst k'. intros [= ->] Hc.
    destruct (Store.present c); try (now left). contradiction.
  - intros Hl Hc. specialize (IH Hl Hc).
    destruct (Store.present c'); try (now right). exact IH.
Qed.

(** A presented key has a present child. *)
Lemma present_fields_from (k : string) fs :
  In k (map fst (Store.present_fields fs)) ->
  exists c, In (k, c) fs /\ Store.present c <> VNull.
Proof.
  induction fs as [|[k' c'] fs IH]; [intros []|].
  cbn [Store.present_fields].
  destruct (Store.present c') eqn:E;
    try (intros [<- | H];
         [exists c'; split; [now left|rewrite E; discriminate]
         |destruct (IH H) as (c & Hin & Hc); exists c; split; [now right|exact Hc]]).
  intros H. destruct (IH H) as (c & Hin & Hc). exists c. split; [now right|exact Hc].
Qed.

Lemma lookup_in_nodup {A : Type} (k : string) (c : A) fs :
  NoDup (map fst fs) -> In (k, c) fs -> Js.lookup k fs = Some c.
Proof.
  induction fs as [|[k' c'] fs IH]; [intros _ []|].
  cbn [map fst Js.lookup]. intros Hnd [[= -> ->] | Hin].
  - now rewrite String.eqb_refl.
  - inversion Hnd as [|? ? Hnotin Hnd']; subst.
    destruct (String.eqb k k') eqn:E.
    + apply String.eqb_eq in E. subst k'. exfalso. apply Hnotin.
      change k with (fst (k, c)). now apply in_map.
    + now apply IH.
Qed.

(** With distinct keys, the presented keys are those whose child is present. *)
Lemma presented_keys (k : string) fs :
  NoDup (map fst fs) ->
  In k (map fst (Store.present_fields fs))
  <-> exists c, Js.lookup k fs = Some c /\ Store.present c <> VNull.
Proof.
  intros Hnd. split.
  - intros H. destruct (present_fields_from _ _ H) as (c & Hin & Hc).
    exists c. split; [now apply lookup_in_nodup|exact Hc].
  - intros (c & Hl & Hc). exact (present_fields_keeps _ _ _ Hl Hc).
Qed.

Lemma in_keys_assign {A : Type} (x k : string) (v : A) fs :
  In x (map fst (Js.assign k v fs)) -> x = k \/ In x (map fst fs).
Proof.
  induction fs as [|[k' v'] fs IH]; unfold Js.assign; fold (@Js.assign A).
  - cbn. intros [<- | []]. now left.
  - destruct (String.eqb k k') eqn:E; cbn [map fst In].
    + apply String.eqb_eq in E. subst k'. intros [<- | H]; [now left|now right; right].
    + intros [<- | H]; [now right; left|]. destruct (IH H); [now left|now right; right].
Qed.

Lemma nodup_assign {A : Type} (k : string) (v : A) fs :
  NoDup (map fst fs) -> NoDup (map fst (Js.assign k v fs)).
Proof.
  induction fs as [|[k' v'] fs IH]; unfold Js.assign; fold (@Js.assign A).
  - intros _. cbn. constructor; [intros []|constructor].
  - cbn [map fst]. intros Hnd. inversion Hnd as [|? ? Hnotin Hnd']; subst.
    destruct (String.eqb k k') eqn:E; cbn [map fst].
    + apply String.eqb_eq in E. subst k'. now constructor.
    + constructor; [|now apply IH].
      intros Hin. destruct (in_keys_assign _ _ _ _ Hin) as [-> | H];
        [now rewrite String.eqb_refl in E|contradiction].
Qed.

(** Reading the parent of a written key. *)
Lemma tree_get_set_parent t p k v :
  Store.tree_get (Store.tree_set t (p ++ [k]) v) p
  = VObj (Js.assign k v (Store.children (Store.tree_get t p))).
Proof.
  revert t. induction p as [|k' p IH]; intros t; [reflexivity|].
  cbn [app Store.tree_get]. rewrite StoreFacts.child_set_same. apply IH.
Qed.

Lemma pieces_user_devices (userId : string) :
  Store.pieces ("users/" ++ userId ++ "/devices")
  = "users" :: (Store.pieces userId ++ ["devices"])%list.
Proof.
  change ("users/" ++ userId ++ "/devices")
    with ("users" ++ String "/" (userId ++ String "/" "devices")).
  now rewrite !StoreFacts.pieces_slash.
Qed.

Lemma getUserDevices_accepted (w : World) (userId : string) :
  accepts w ->
  Database.getUserDevices userId w
  = (Ret (if Js.nullish (Store.presented w ("users/" ++ userId ++ "/devices"))
          then VArr []
          else VArr (map VStr
                       (Js.keys (Store.presented w ("users/" ++ userId ++ "/devices"))))),
     requested w).
Proof.
  intros Hacc. unfold accepts in Hacc.
  unfold Database.getUserDevices, try_catch, bind, Store.snapshot,
    Store.request, bind, Store.snapshot_exists, Store.presented.
  cbn. rewrite Hacc. cbn.
  now destruct (Js.nullish _).
Qed.

(** X9. The devices [getUserDevices] lists for a node of references with distinct
    keys are the keys whose reference is present: a reference that was
    deleted is not listed.  A refused read gives the empty list. *)
Theorem user_devices_listed (w : World) (userId : string)
    (references : list (string * value)) :
  Store.read w ("users/" ++ userId ++ "/devices") = VObj references ->
  NoDup (map fst references) ->
  (accepts w ->
   exists deviceIds,
     fst (Database.getUserDevices userId w) = Ret (VArr (map VStr deviceIds)) /\
     forall deviceId,
       In deviceId deviceIds
       <-> exists reference,
             Js.lookup deviceId references = Some reference /\
             Store.present reference <> VNull) /\
  (forall message,
     rejects (host w) (requests w) = Some message ->
     fst (Database.getUserDevices userId w) = Ret (VArr [])).
Proof.
  intros Hnode Hnd. split.
  - intros Hacc. rewrite (getUserDevices_accepted _ _ Hacc).
    unfold Store.presented. unfold Store.read in Hnode. rewrite Hnode.
    rewrite present_obj. cbn [fst].
    destruct (Store.present_fields references) as [|f fs] eqn:E.
    + exists []. split; [reflexivity|].
      intros deviceId. rewrite <- (presented_keys _ _ Hnd), E. reflexivity.
    + exists (map fst (f :: fs)). split; [reflexivity|].
      intros deviceId. rewrite <- (presented_keys _ _ Hnd), E. reflexivity.
  - intros message Hrej.
    unfold Database.getUserDevices, try_catch, bind, Store.snapshot,
      Store.request, bind.
    cbn. now rewrite Hrej.
Qed.

Lemma user_devices_listed_witness :
  (exists deviceIds,
     fst (Database.getUserDevices "owner-1" Sample.ownerWorld)
       = Ret (VArr (map VStr deviceIds)) /\
     In "panel-7" deviceIds /\ (In "panel-8" deviceIds -> False)).
Proof.
  destruct (user_devices_listed Sample.ownerWorld "owner-1"
              [("panel-7", VBool true); ("panel-8", VNull)] eq_refl)
    as (Hlisted & _).
  { repeat constructor; cbn; intuition discriminate. }
  destruct (Hlisted eq_refl) as (deviceIds & Hrun & Hin).
  exists deviceIds. split; [exact Hrun|]. split.
  - apply Hin. exists (VBool true). split; [reflexivity|discriminate].
  - intros H. apply Hin in H. destruct H as (reference & Hl & Hp).
    injection Hl as <-. now apply Hp.
Defined.

Lemma listed_result (fs : list (string * value)) :
  (if Js.nullish (Store.present (VObj fs))
   then VArr []
   else VArr (map VStr (Js.keys (Store.present (VObj fs)))))
  = VArr (map VStr (map fst (Store.present_fields fs))).
Proof.
  rewrite present_obj. now destruct (Store.present_fields fs).
Qed.

(** The node of references after a write to one reference. *)
Lemma references_after_write t (userId deviceId : string) v :
  Store.pieces deviceId = [deviceId] ->
  Store.tree_get
    (Store.tree_set t
       (Store.pieces ("users/" ++ userId ++ "/devices/" ++ deviceId)) v)
    (Store.pieces ("users/" ++ userId ++ "/devices"))
  = VObj (Js.assign deviceId v
            (Store.children
               (Store.tree_get t (Store.pieces ("users/" ++ userId ++ "/devices"))))).
Proof.
  intros Hkey.
  rewrite StoreFacts.pieces_user_device, pieces_user_devices, Hkey.
  change (Store.pieces userId ++ ["devices"; deviceId])%list
    with (Store.pieces userId ++ (["devices"] ++ [deviceId]))%list.
  rewrite app_assoc.
  exact (tree_get_set_parent t ("users" :: Store.pieces userId ++ ["devices"])
           deviceId v).
Qed.

Lemma references_untouched t (userId deviceId : string) v :
  Store.tree_get (Store.tree_set t (Store.pieces ("devices/" ++ deviceId)) v)
    (Store.pieces ("users/" ++ userId ++ "/devices"))
  = Store.tree_get t (Store.pieces ("users/" ++ userId ++ "/devices")).
Proof.
  rewrite StoreFacts.pieces_device_root, pieces_user_devices.
  now rewrite StoreFacts.tree_get_set_diverge.
Qed.

(** X10. The listing follows provisioning and deletion (a device key being one
    path piece, as the keys of [push] are): after [addDeviceToUser],
    [getUserDevices] lists the new device; after [deleteDevice] it no longer
    lists the device, and lists the other devices exactly as before. *)
Theorem listing_follows_devices (w : World) (userId : string) :
  accepts w -> accepts (requested w) -> accepts (requested (requested w)) ->
  (forall deviceInfo,
     let deviceId := pushKey (host w) (pushes w) in
     let provisioned := snd (Database.addDeviceToUser userId deviceInfo w) in
     deviceInfo <> VNull ->
     Store.pieces deviceId = [deviceId] ->
     exists deviceIds,
       fst (Database.getUserDevices userId provisioned)
         = Ret (VArr (map VStr deviceIds)) /\
       In deviceId deviceIds) /\
  (forall deviceId,
     let references :=
       Store.children (Store.read w ("users/" ++ userId ++ "/devices")) in
     let deleted := snd (Database.deleteDevice userId deviceId w) in
     Store.pieces deviceId = [deviceId] ->
     NoDup (map fst references) ->
     exists deviceIds,
       fst (Database.getUserDevices userId deleted)
         = Ret (VArr (map VStr deviceIds)) /\
       ~ In deviceId deviceIds /\
       forall other,
         other <> deviceId ->
         (In other deviceIds
          <-> exists reference,
                Js.lookup other references = Some reference /\
                Store.present reference <> VNull)).
Proof.
  intros A1 A2 A3. split.
  - intros deviceInfo deviceId provisioned Hinfo Hkey. subst provisioned.
    rewrite (addDeviceToUser_accepted w userId deviceInfo A1 A2 Hinfo).
    fold deviceId. cbn [snd].
    rewrite getUserDevices_accepted by exact A3.
    unfold Store.presented. cbn [database fst].
    rewrite references_untouched, (references_after_write _ _ _ _ Hkey).
    rewrite listed_result.
    eexists. split; [reflexivity|].
    apply (present_fields_keeps deviceId (VBool true)).
    + apply lookup_assign_same.
    + discriminate.
  - intros deviceId references deleted Hkey Hnd. subst deleted.
    rewrite (deleteDevice_accepted _ _ _ A1 A2). cbn [snd].
    rewrite getUserDevices_accepted by exact A3.
    unfold Store.presented. cbn [database with_database fst].
    rewrite references_untouched, (references_after_write _ _ _ _ Hkey).
    rewrite listed_result.
    fold (Store.read w ("users/" ++ userId ++ "/devices")).
    fold references.
    eexists. split; [reflexivity|].
    pose proof (nodup_assign deviceId VNull references Hnd) as Hnd'.
    split.
    + rewrite (presented_keys _ _ Hnd'). intros (c & Hl & Hc).
      rewrite lookup_assign_same in Hl. injection Hl as <-. now apply Hc.
    + intros other Hother. rewrite (presented_keys _ _ Hnd').
      rewrite lookup_assign_other; [reflexivity|].
      now apply String.eqb_neq.
Qed.

Lemma listing_follows_devices_witness :
  (exists deviceIds,
     fst (Database.getUserDevices "owner-1"
            (snd (Database.addDeviceToUser "owner-1" VUndefined Sample.ownerWorld)))
       = Ret (VArr (map VStr deviceIds)) /\
     In "-NxPanel01" deviceIds) /\
  (exists deviceIds,
     fst (Database.getUserDevices "owner-1"
            (snd (Database.deleteDevice "owner-1" "panel-7" Sample.ownerWorld)))
       = Ret (VArr (map VStr deviceIds)) /\
     (In "panel-7" deviceIds -> False)).
Proof.
  destruct (listing_follows_devices Sample.ownerWorld "owner-1"
              eq_refl eq_refl eq_refl) as (Hadded & Hdeleted).
  split.
  - exact (Hadded VUndefined ltac:(discriminate) eq_refl).
  - destruct (Hdeleted "panel-7" eq_refl) as (deviceIds & Hrun & Hgone & _).
    { repeat constructor; cbn; intuition discriminate. }
    exists deviceIds. split; [exact Hrun|exact Hgone].
Defined.

(** ** Initialisation *)

Lemma snapshot_accepted (w : World) (path : string) :
  accepts w ->
  Store.snapshot path w = (Ret (Store.presented w path), requested w).
Proof.
  unfold accepts, Store.snapshot, Store.request, bind. now intros ->.
Qed.

Lemma present_obj_nonnull (k : string) (c : value) fs :
  Js.lookup k fs = Some c -> Store.present c <> VNull ->
  Js.nullish (Store.present (VObj fs)) = false.
Proof.
  intros Hl Hc. rewrite present_obj.
  pose proof (present_fields_keeps _ _ _ Hl Hc) as Hin.
  now destruct (Store.present_fields fs).
Qed.

Lemma pieces_user (userId : string) :
  Store.pieces ("users/" ++ userId) = "users" :: Store.pieces userId.
Proof.
  change ("users/" ++ userId) with ("users" ++ String "/" userId).
  now rewrite StoreFacts.pieces_slash.
Qed.

Lemma pieces_user_profile (userId : string) :
  Store.pieces ("users/" ++ userId ++ "/profile")
  = (("users" :: Store.pieces userId) ++ ["profile"])%list.
Proof.
  change ("users/" ++ userId ++ "/profile")
    with ("users" ++ String "/" (userId ++ String "/" "profile")).
  now rewrite !StoreFacts.pieces_slash.
Qed.

Lemma pieces_user_profile_field (userId field : string) :
  Store.pieces ("users/" ++ userId ++ "/profile/" ++ field)
  = ((("users" :: Store.pieces userId) ++ ["profile"]) ++ Store.pieces field)%list.
Proof.
  change ("users/" ++ userId ++ "/profile/" ++ field)
    with ("users" ++ String "/"
            (userId ++ String "/" ("profile" ++ String "/" field))).
  rewrite !StoreFacts.pieces_slash. cbn [app Store.pieces Store.pieces_from].
  now rewrite <- app_assoc.
Qed.

Lemma initializeDatabaseForUser_found (w : World) (userId : string)
    (userEmail displayName : value) :
  accepts w -> Js.nullish (Store.presented w ("users/" ++ userId)) = false ->
  Database.initializeDatabaseForUser userId userEmail displayName w
  = (Ret (VObj [("success", VBool true); ("message", VStr "Already initialized")]),
     requested w).
Proof.
  intros Hacc Hex.
  unfold Database.initializeDatabaseForUser, try_catch, bind.
  rewrite (snapshot_accepted _ _ Hacc).
  unfold Store.snapshot_exists. now rewrite Hex.
Qed.

Lemma initializeDatabaseForUser_absent (w : World) (userId : string)
    (userEmail displayName : value) :
  accepts w -> accepts (requested w) ->
  Store.presented w ("users/" ++ userId) = VNull ->
  Database.initializeDatabaseForUser userId userEmail displayName w
  = (Ret (VObj [("success", VBool true);
                ("message", VStr "Database initialized successfully")]),
     with_database
       (Store.tree_set (database w)
          (Store.pieces ("users/" ++ userId ++ "/profile"))
          (VObj [("displayName", Js.or_else displayName (VStr "User"));
                 ("email", userEmail);
                 ("createdAt", VNum (inject_Z (clock (host w) (ticks w))));
                 ("photoURL", VNull);
                 ("lastLogin", VNum (inject_Z (clock (host w) (S (ticks w)))))]))
       (requested (tick (tick (requested w))))).
Proof.
  intros A1 A2 Habsent. unfold accepts in A2. cbn in A2.
  unfold Database.initializeDatabaseForUser, try_catch, bind.
  rewrite (snapshot_accepted _ _ A1).
  unfold Store.snapshot_exists. rewrite Habsent.
  unfold Store.set, Store.request, Date_now, bind. cbn. now rewrite A2.
Qed.

(** X11. [initializeDatabaseForUser] never touches a user the store presents: it
    answers ['Already initialized'].  For a user that is absent it writes
    the profile, with ['User'] for a missing display name, and a second call
    then finds the user and writes nothing. *)
Theorem user_initialised_once (w : World) (userId : string)
    (userEmail displayName : value) :
  let run := Database.initializeDatabaseForUser userId userEmail displayName w in
  let already :=
    Ret (VObj [("success", VBool true); ("message", VStr "Already initialized")]) in
  let profile field :=
    Store.read (snd run) ("users/" ++ userId ++ "/profile/" ++ field) in
  accepts w ->
  (Js.nullish (Store.presented w ("users/" ++ userId)) = false ->
   fst run = already /\ database (snd run) = database w) /\
  (Store.presented w ("users/" ++ userId) = VNull ->
   accepts (requested w) ->
   fst run = Ret (VObj [("success", VBool true);
                        ("message", VStr "Database initialized successfully")]) /\
   profile "displayName" = Js.or_else displayName (VStr "User") /\
   profile "email" = userEmail /\
   profile "createdAt" = VNum (inject_Z (clock (host w) (ticks w))) /\
   profile "lastLogin" = VNum (inject_Z (clock (host w) (S (ticks w)))) /\
   profile "photoURL" = VNull /\
   (accepts (requested (requested w)) ->
    forall email name,
      fst (Database.initializeDatabaseForUser userId email name (snd run))
        = already /\
      database (snd (Database.initializeDatabaseForUser userId email name (snd run)))
        = database (snd run))).
Proof.
  intros run already profile A1. subst run already profile. split.
  - intros Hex. now rewrite (initializeDatabaseForUser_found _ _ _ _ A1 Hex).
  - intros Habsent A2.
    rewrite (initializeDatabaseForUser_absent _ _ _ _ A1 A2 Habsent).
    cbn [fst snd].
    split; [reflexivity|].
    assert (Hfield : forall field,
              Store.read
                (with_database
                   (Store.tree_set (database w)
                      (Store.pieces ("users/" ++ userId ++ "/profile"))
                      (VObj [("displayName", Js.or_else displayName (VStr "User"));
                             ("email", userEmail);
                             ("createdAt",
                              VNum (inject_Z (clock (host w) (ticks w))));
                             ("photoURL", VNull);
                             ("lastLogin",
                              VNum (inject_Z (clock (host w) (S (ticks w)))))]))
                   (requested (tick (tick (requested w)))))
                ("users/" ++ userId ++ "/profile/" ++ field)
              = Store.tree_get
                  (VObj [("displayName", Js.or_else displayName (VStr "User"));
                         ("email", userEmail);
                         ("createdAt",
                          VNum (inject_Z (clock (host w) (ticks w))));
                         ("photoURL", VNull);
                         ("lastLogin",
                          VNum (inject_Z (clock (host w) (S (ticks w)))))])
                  (Store.pieces field)).
    { intros field. unfold Store.read. cbn [database with_database].
      rewrite pieces_user_profile_field, pieces_user_profile.
      apply StoreFacts.tree_get_set_below. }
    rewrite !Hfield. clear Hfield.
    do 5 (split; [reflexivity|]).
    intros A3 email name.
      rewrite initializeDatabaseForUser_found.
      * split; reflexivity.
      * exact A3.
      * unfold Store.presented. cbn [database with_database].
        rewrite pieces_user_profile, pieces_user, tree_get_set_parent.
        apply (present_obj_nonnull "profile" _ _ (lookup_assign_same _ _ _)).
        intros Hnull.
        match type of Hnull with Store.present ?profile = _ =>
          assert (Hn : Js.nullish (Store.present profile) = false)
        end.
        { apply (present_obj_nonnull "createdAt"
                   (VNum (inject_Z (clock (host w) (ticks w)))));
            [reflexivity|discriminate]. }
        now rewrite Hnull in Hn.
Qed.

Lemma user_initialised_once_witness :
  (fst (Database.initializeDatabaseForUser "owner-1" (VStr "asha@example.org")
          VUndefined Sample.ownerWorld)
   = Ret (VObj [("success", VBool true); ("message", VStr "Already initialized")])) /\
  (let run :=
     Database.initializeDatabaseForUser "owner-2" (VStr "ravi@example.org")
       VUndefined Sample.ownerWorld in
   fst run
   = Ret (VObj [("success", VBool true);
                ("message", VStr "Database initialized successfully")]) /\
   Store.read (snd run) "users/owner-2/profile/displayName" = VStr "User" /\
   Store.read (snd run) "users/owner-2/profile/email" = VStr "ravi@example.org").
Proof.
  split.
  - destruct (user_initialised_once Sample.ownerWorld "owner-1"
                (VStr "asha@example.org") VUndefined eq_refl) as (Hfound & _).
    exact (proj1 (Hfound eq_refl)).
  - destruct (user_initialised_once Sample.ownerWorld "owner-2"
                (VStr "ravi@example.org") VUndefined eq_refl) as (_ & Hnew).
    destruct (Hnew eq_refl eq_refl) as (Hok & Hname & Hemail & _).
    split; [exact Hok|]. split; [exact Hname|exact Hemail].
Defined.

(** ** Computations that do not write *)

Section ReadOnly.
Context {A B : Type}.

Lemma read_only_ret (a : A) : read_only (ret a).
Proof. intros w. now split. Qed.

Lemma read_only_throw (message : string) : read_only (@throw A message).
Proof. intros w. now split. Qed.

Lemma read_only_lift (o : option A) : read_only (lift o).
Proof. intros w. unfold lift. now destruct o. Qed.

Lemma read_only_bind (m : M A) (k : A -> M B) :
  read_only m -> (forall a, read_only (k a)) -> read_only (bind m k).
Proof.
  intros Hm Hk w. unfold bind. specialize (Hm w).
  destruct (m w) as [[a|e|] w1]; cbn [snd] in *; try exact Hm.
  destruct (Hk a w1) as [Hd Hs], Hm as [Hd' Hs'].
  split; congruence.
Qed.

Lemma read_only_try (m : M A) (h : string -> M A) :
  read_only m -> (forall e, read_only (h e)) -> read_only (try_catch m h).
Proof.
  intros Hm Hh w. unfold try_catch. specialize (Hm w).
  destruct (m w) as [[a|e|] w1]; cbn [snd] in *; try exact Hm.
  destruct (Hh e w1) as [Hd Hs], Hm as [Hd' Hs'].
  split; congruence.
Qed.

Lemma read_only_both (ma : M A) (mb : M B) :
  read_only ma -> read_only mb -> read_only (both ma mb).
Proof.
  intros Ha Hb w. unfold both. specialize (Ha w).
  destruct (ma w) as [ra w1]. specialize (Hb w1).
  destruct (mb w1) as [rb w2]. cbn [snd] in *.
  destruct Ha as [Hd Hs], Hb as [Hd' Hs'].
  destruct ra, rb; cbn [snd]; split; congruence.
Qed.
End ReadOnly.

Lemma read_only_prop (o : value) (k : string) : read_only (prop o k).
Proof. intros w. unfold prop. now destruct (Js.nullish o). Qed.

Lemma read_only_Date_now : read_only Date_now.
Proof. intros w. now split. Qed.

Lemma read_only_fetch : read_only fetch.
Proof. intros w. unfold fetch. now destruct (http (host w) (fetches w)). Qed.

Lemma read_only_response_json (json : value + string) :
  read_only (response_json json).
Proof. destruct json; [apply read_only_ret|apply read_only_throw]. Qed.

Lemma read_only_get (path : string) : read_only (Store.get path).
Proof.
  intros w. unfold Store.get, Store.request, bind.
  now destruct (rejects (host w) (requests w)).
Qed.

Lemma read_only_snapshot (path : string) : read_only (Store.snapshot path).
Proof.
  intros w. unfold Store.snapshot, Store.request, bind.
  now destruct (rejects (host w) (requests w)).
Qed.

Lemma read_only_mentionsRain (description : value) :
  read_only (Weather.mentionsRain description).
Proof.
  destruct description; try (intros w; now split).
  apply read_only_bind; [apply read_only_lift|intros; apply read_only_ret].
Qed.

(** One step of a proof that a computation does not write. *)
Ltac read_only_step :=
  first
    [ apply read_only_ret | apply read_only_throw | apply read_only_lift
    | apply read_only_prop | apply read_only_Date_now | apply read_only_fetch
    | apply read_only_response_json | apply read_only_get
    | apply read_only_snapshot | apply read_only_mentionsRain
    | apply read_only_both
    | apply read_only_try; [|intros ?]
    | apply read_only_bind; [|intros ?]
    | match goal with
      | |- read_only (if ?b then _ else _) => destruct b
      | |- read_only (match ?x with (_, _) => _ end) => destruct x
      end ].

Lemma read_only_getWeatherConfig : read_only Weather.getWeatherConfig.
Proof. unfold Weather.getWeatherConfig. repeat read_only_step. Qed.

Lemma read_only_adapters (lat lon apiKey : value) :
  read_only (Weather.fetchOpenWeatherMapData lat lon apiKey) /\
  read_only (Weather.fetchWeatherAPIData lat lon apiKey).
Proof.
  split; unfold Weather.fetchOpenWeatherMapData, Weather.fetchWeatherAPIData;
    repeat read_only_step.
Qed.

Lemma read_only_getWeatherConditions (lat lon : value) :
  read_only (Weather.getWeatherConditions lat lon).
Proof.
  unfold Weather.getWeatherConditions.
  apply read_only_try; [|intros; apply read_only_ret].
  apply read_only_bind; [apply read_only_getWeatherConfig|intros config].
  repeat read_only_step.
Qed.

(** X12. The decision rules, the weather queries and the listing of devices only
    read: whatever the store and the providers answer, and whatever they
    return, the database and the browser storage are left as they were. *)
Theorem queries_do_not_write :
  (forall deviceId, read_only (Esp32Control.shouldTriggerAutoCleaning deviceId)) /\
  (forall deviceId, read_only (Esp32Control.selectCleaningMethod deviceId)) /\
  read_only Weather.getWeatherConfig /\
  (forall lat lon apiKey, read_only (Weather.fetchOpenWeatherMapData lat lon apiKey)) /\
  (forall lat lon apiKey, read_only (Weather.fetchWeatherAPIData lat lon apiKey)) /\
  (forall lat lon, read_only (Weather.getWeatherConditions lat lon)) /\
  (forall lat lon, read_only (Weather.isSuitableForCleaning lat lon)) /\
  (forall userId, read_only (Database.getUserDevices userId)).
Proof.
  repeat split; intros.
  - unfold Esp32Control.shouldTriggerAutoCleaning. repeat read_only_step.
  - unfold Esp32Control.shouldTriggerAutoCleaning. repeat read_only_step.
  - unfold Esp32Control.selectCleaningMethod. repeat read_only_step.
  - unfold Esp32Control.selectCleaningMethod. repeat read_only_step.
  - apply read_only_getWeatherConfig.
  - apply read_only_getWeatherConfig.
  - apply read_only_adapters.
  - apply read_only_adapters.
  - apply read_only_adapters.
  - apply read_only_adapters.
  - apply read_only_getWeatherConditions.
  - apply read_only_getWeatherConditions.
  - unfold Weather.isSuitableForCleaning.
    apply read_only_try; [|intros; apply read_only_ret].
    apply read_only_bind; [apply read_only_getWeatherConditions|intros].
    repeat read_only_step.
  - unfold Weather.isSuitableForCleaning.
    apply read_only_try; [|intros; apply read_only_ret].
    apply read_only_bind; [apply read_only_getWeatherConditions|intros].
    repeat read_only_step.
  - unfold Database.getUserDevices. repeat read_only_step.
  - unfold Database.getUserDevices. repeat read_only_step.
Qed.

(** ** Computations that write only when they succeed *)

Section WritesOnly.
Context {A B : Type} (P : B -> Prop).

Lemma writes_only_read_only (m : M B) : read_only m -> writes_only_with P m.
Proof.
  intros H w. specialize (H w).
  destruct (m w) as [[a|e|] w']; cbn [snd] in H; intuition.
Qed.

Lemma writes_only_bind (m : M A) (k : A -> M B) :
  read_only m -> (forall a, writes_only_with P (k a)) ->
  writes_only_with P (bind m k).
Proof.
  intros Hm Hk w. unfold bind. specialize (Hm w).
  destruct (m w) as [[a|e|] w1]; cbn [snd] in Hm; try apply Hm.
  specialize (Hk a w1). destruct Hm as [Hd _].
  destruct (k a w1) as [[b|e|] w2]; rewrite <- Hd; exact Hk.
Qed.

Lemma writes_only_try (m : M B) (h : string -> M B) :
  writes_only_with P m -> (forall e, read_only (h e)) ->
  writes_only_with P (try_catch m h).
Proof.
  intros Hm Hh w. unfold try_catch. specialize (Hm w).
  destruct (m w) as [[a|e|] w1]; try exact Hm.
  pose proof (writes_only_read_only _ (Hh e) w1) as H.
  destruct (h e w1) as [[b|e'|] w2]; rewrite <- Hm; exact H.
Qed.

Lemma writes_only_update (updates : list (string * value)) (b : B) :
  P b -> writes_only_with P (bind (Store.update updates) (fun _ => ret b)).
Proof.
  intros Hb w. unfold bind, Store.update, Store.request, bind, ret.
  destruct (rejects (host w) (requests w)); cbn; auto.
Qed.

Lemma writes_only_set (path : string) (v : value) (b : B) :
  P b -> writes_only_with P (bind (Store.set path v) (fun _ => ret b)).
Proof.
  intros Hb w. unfold bind, Store.set, Store.request, bind, ret.
  destruct (rejects (host w) (requests w)); cbn; auto.
Qed.
End WritesOnly.

(** One step of a proof that a computation writes on success only. *)
Ltac writes_only_step :=
  first
    [ apply writes_only_update; reflexivity
    | apply writes_only_set; reflexivity
    | apply writes_only_try; [|intros ?; apply read_only_ret]
    | apply writes_only_bind; [solve [repeat read_only_step]|intros ?]
    | match goal with
      | |- writes_only_with _ (if ?b then _ else _) => destruct b
      end
    | apply writes_only_read_only; solve [repeat read_only_step] ].

(** X13. A result other than [{success: true, ...}] of a function that sends one
    write means that nothing was written: the dust update, the controller's
    reports and commands, and the single-path and batch updates change the
    database only when they report success. *)
Theorem writes_only_on_success (deviceId : string) :
  writes_only_with succeeded (Weather.updateDustLevel deviceId) /\
  (forall sensorData,
     writes_only_with succeeded (Esp32Control.updateSensorData deviceId sensorData)) /\
  (forall progress waterUsed,
     writes_only_with succeeded
       (Esp32Control.updateCleaningProgress deviceId progress waterUsed)) /\
  (forall trigger method pwm,
     writes_only_with succeeded
       (Esp32Control.sendCleaningCommand deviceId trigger method pwm)) /\
  (forall errorMessage,
     writes_only_with succeeded (Esp32Control.reportError deviceId errorMessage)) /\
  (forall isOnline,
     writes_only_with succeeded (Esp32Control.setDeviceStatus deviceId isOnline)) /\
  (forall path value,
     writes_only_with succeeded (Database.updateDeviceData deviceId path value)) /\
  (forall updates,
     writes_only_with succeeded (Database.batchUpdateDevice deviceId updates)) /\
  (forall date data,
     writes_only_with succeeded (Database.addHistoricalData deviceId date data)).
Proof.
  repeat split; intros.
  - unfold Weather.updateDustLevel.
    apply writes_only_try; [|intros ?; apply read_only_ret].
    apply writes_only_bind; [repeat read_only_step|intros deviceInfo].
    destruct (negb (Store.snapshot_exists deviceInfo));
      [apply writes_only_read_only; apply read_only_throw|].
    apply writes_only_bind; [repeat read_only_step|intros lat].
    apply writes_only_bind; [repeat read_only_step|intros lon].
    destruct (negb (Js.truthy lat) || negb (Js.truthy lon));
      [apply writes_only_read_only; apply read_only_throw|].
    apply writes_only_bind; [apply read_only_getWeatherConfig|intros config].
    destruct (negb (Js.truthy config));
      [apply writes_only_read_only; apply read_only_throw|].
    apply writes_only_bind; [repeat read_only_step|intros provider].
    apply writes_only_bind.
    { destruct (Js.strict_eq provider (VStr "openweathermap")).
      - apply read_only_bind; [apply read_only_prop|intros; apply read_only_adapters].
      - destruct (Js.strict_eq provider (VStr "weatherapi")).
        + apply read_only_bind; [apply read_only_prop|intros; apply read_only_adapters].
        + repeat read_only_step. }
    intros dustData.
    destruct (negb (Js.truthy dustData));
      [apply writes_only_read_only; apply read_only_throw|].
    repeat writes_only_step.
  - unfold Esp32Control.updateSensorData. repeat writes_only_step.
  - unfold Esp32Control.updateCleaningProgress. repeat writes_only_step.
  - unfold Esp32Control.sendCleaningCommand. repeat writes_only_step.
  - unfold Esp32Control.reportError. repeat writes_only_step.
  - unfold Esp32Control.setDeviceStatus. repeat writes_only_step.
  - unfold Database.updateDeviceData. repeat writes_only_step.
  - unfold Database.batchUpdateDevice. repeat writes_only_step.
  - unfold Database.addHistoricalData. repeat writes_only_step.
Qed.

(** ** The global configuration *)

Lemma initializeGlobalConfig_found (w : World) :
  accepts w -> Js.nullish (Store.presented w "config") = false ->
  Database.initializeGlobalConfig w = (Ret result_ok, requested w).
Proof.
  intros Hacc Hex.
  unfold Database.initializeGlobalConfig, try_catch, bind.
  rewrite (snapshot_accepted _ _ Hacc).
  unfold Store.snapshot_exists. now rewrite Hex.
Qed.

Lemma initializeGlobalConfig_absent (w : World) :
  accepts w -> accepts (requested w) -> Store.presented w "config" = VNull ->
  Database.initializeGlobalConfig w
  = (Ret result_ok,
     with_database (Store.tree_set (database w) ["config"] Database.globalConfig)
       (requested (requested w))).
Proof.
  intros A1 A2 Habsent. unfold accepts in A2. cbn in A2.
  unfold Database.initializeGlobalConfig, try_catch, bind.
  rewrite (snapshot_accepted _ _ A1).
  unfold Store.snapshot_exists. rewrite Habsent.
  unfold Store.set, Store.request, bind. cbn. now rewrite A2.
Qed.

(** X14. [initializeGlobalConfig] leaves a configuration the store presents as it
    is.  When there is none it stores the defaults, and the weather
    settings read back are the provider ['openweathermap'] with an empty
    API key: the settings [getWeatherConfig] falls back to when nothing is
    stored. *)
Theorem global_config_defaults (w : World) :
  let run := Database.initializeGlobalConfig w in
  let fallback :=
    VObj [("provider", VStr "openweathermap"); ("apiKey", VStr "");
          ("updateInterval", VNum 1800000)] in
  accepts w ->
  (Js.nullish (Store.presented w "config") = false ->
   fst run = Ret result_ok /\ database (snd run) = database w) /\
  (Store.presented w "config" = VNull -> accepts (requested w) ->
   fst run = Ret result_ok /\
   Store.read (snd run) "config" = Database.globalConfig /\
   (accepts (requested (requested w)) ->
    fst (Weather.getWeatherConfig (snd run)) = Ret fallback)) /\
  (Store.read w "config/weatherAPI" = VNull ->
   fst (Weather.getWeatherConfig w) = Ret fallback).
Proof.
  intros run fallback A1. subst run. repeat split.
  - now rewrite (initializeGlobalConfig_found w A1 H).
  - now rewrite (initializeGlobalConfig_found w A1 H).
  - now rewrite (initializeGlobalConfig_absent w A1 H0 H).
  - rewrite (initializeGlobalConfig_absent w A1 H0 H). cbn [snd].
    unfold Store.read. cbn [database with_database]. eval_pieces.
    now rewrite StoreFacts.tree_get_set_same.
  - intros A3. rewrite (initializeGlobalConfig_absent w A1 H0 H). cbn [snd].
    unfold Weather.getWeatherConfig, try_catch, bind.
    rewrite get_accepted by exact A3.
    unfold Store.read. cbn [database with_database requested]. eval_pieces.
    change ["config"; "weatherAPI"] with (["config"] ++ ["weatherAPI"])%list.
    rewrite StoreFacts.tree_get_set_below. reflexivity.
  - intros Habsent.
    unfold Weather.getWeatherConfig, try_catch, bind.
    rewrite get_accepted by exact A1.
    now rewrite Habsent.
Qed.

Lemma global_config_defaults_witness :
  let run := Database.initializeGlobalConfig Sample.emptyWorld in
  fst run = Ret result_ok /\
  Store.read (snd run) "config" = Database.globalConfig /\
  fst (Weather.getWeatherConfig (snd run))
  = Ret (VObj [("provider", VStr "openweathermap"); ("apiKey", VStr "");
               ("updateInterval", VNum 1800000)]).
Proof.
  destruct (global_config_defaults Sample.emptyWorld eq_refl) as (_ & Hnew & _).
  destruct (Hnew eq_refl eq_refl) as (Hok & Hconfig & Hread).
  split; [exact Hok|]. split; [exact Hconfig|exact (Hread eq_refl)].
Defined.

(** ** Dust updates *)

(** [getWeatherConfig] catches its own failures: it always returns. *)
Lemma getWeatherConfig_returns (w : World) :
  exists config, Weather.getWeatherConfig w = (Ret config, requested w).
Proof.
  unfold Weather.getWeatherConfig, try_catch, bind, Store.get, Store.request, bind.
  destruct (rejects (host w) (requests w)); cbn; [eexists; reflexivity|].
  destruct (Store.snapshot_exists _); eexists; reflexivity.
Qed.

Lemma getWeatherConfig_result (w : World) (config : value) :
  fst (Weather.getWeatherConfig w) = Ret config ->
  Weather.getWeatherConfig w = (Ret config, requested w).
Proof.
  destruct (getWeatherConfig_returns w) as [c Hc]. rewrite Hc. cbn.
  now intros [= ->].
Qed.

(** The run of [updateDustLevel] up to the weather settings, for a device
    that has coordinates. *)
Ltac dust_update_to_config Hacc Hex Hlat Hlon Hconfig :=
  unfold Weather.updateDustLevel, try_catch, bind;
  rewrite (get_accepted _ _ Hacc);
  unfold Store.snapshot_exists; rewrite Hex; cbn [negb];
  rewrite !(prop_nonnull _ _ _ Hex), Hlat, Hlon; cbn [negb orb];
  rewrite (getWeatherConfig_result _ _ Hconfig).

(** X15. The failures of [updateDustLevel] before a provider is asked, each with
    its message: a rejected read surfaces the store's message, a device
    without [info] is ['Device not found'], weather settings that cannot be
    read are ['Weather API config not available'], and a provider other than
    the two known ones is named in ['Unknown provider: ...']. *)
Theorem dust_update_refusals (w : World) (deviceId : string) :
  let info := Store.read w ("devices/" ++ deviceId ++ "/info") in
  let run := Weather.updateDustLevel deviceId w in
  (forall message, rejects (host w) (requests w) = Some message ->
     fst run = Ret (result_error message)) /\
  (accepts w -> Store.snapshot_exists info = false ->
     fst run = Ret (result_error "Device not found")) /\
  (accepts w -> Store.snapshot_exists info = true ->
   Js.truthy (Js.get_field info "lat") = true ->
   Js.truthy (Js.get_field info "lon") = true ->
   (forall message, rejects (host w) (S (requests w)) = Some message ->
      fst run = Ret (result_error "Weather API config not available")) /\
   (forall config provider,
      fst (Weather.getWeatherConfig (requested w)) = Ret config ->
      Js.get_field config "provider" = VStr provider ->
      String.eqb provider "openweathermap" = false ->
      String.eqb provider "weatherapi" = false ->
      fst run = Ret (result_error ("Unknown provider: " ++ provider)))).
Proof.
  intros info run. subst info run. split; [|split].
  - intros message Hrej.
    unfold Weather.updateDustLevel, try_catch, bind, Store.get, Store.request, bind.
    now rewrite Hrej.
  - intros Hacc Hex.
    unfold Weather.updateDustLevel, try_catch, bind.
    rewrite (get_accepted _ _ Hacc). now rewrite Hex.
  - intros Hacc Hex Hlat Hlon.
    unfold Store.snapshot_exists in Hex. apply negb_true_iff in Hex.
    split.
    + intros message Hrej.
      assert (Hconfig : fst (Weather.getWeatherConfig (requested w)) = Ret VNull).
      { unfold Weather.getWeatherConfig, try_catch, bind, Store.get,
          Store.request, bind.
        cbn [host requests requested]. now rewrite Hrej. }
      dust_update_to_config Hacc Hex Hlat Hlon Hconfig. reflexivity.
    + intros config provider Hconfig Hprovider Hne1 Hne2.
      assert (Hc : Js.nullish config = false).
      { apply (field_defined config "provider"). now rewrite Hprovider. }
      assert (Ht : Js.truthy config = true).
      { apply (field_defined_truthy config "provider" eq_refl).
        now rewrite Hprovider. }
      dust_update_to_config Hacc Hex Hlat Hlon Hconfig.
      rewrite Ht. cbn [negb].
      rewrite (prop_nonnull _ _ _ Hc), Hprovider.
      cbn [Js.strict_eq]. rewrite Hne1, Hne2. reflexivity.
Qed.

Lemma dust_update_refusals_witness :
  fst (Weather.updateDustLevel "panel-9" Sample.configuredWorld)
    = Ret (result_error "Device not found") /\
  fst (Weather.updateDustLevel "panel-7" Sample.halfRefusedWorld)
    = Ret (result_error "Weather API config not available") /\
  fst (Weather.updateDustLevel "panel-7" Sample.otherProviderWorld)
    = Ret (result_error "Unknown provider: accuweather").
Proof.
  split; [|split].
  - destruct (dust_update_refusals Sample.configuredWorld "panel-9")
      as (_ & Hmissing & _).
    exact (Hmissing eq_refl eq_refl).
  - destruct (dust_update_refusals Sample.halfRefusedWorld "panel-7")
      as (_ & _ & Hlocated).
    destruct (Hlocated eq_refl eq_refl eq_refl eq_refl) as (Hconfig & _).
    exact (Hconfig "PERMISSION_DENIED" eq_refl).
  - destruct (dust_update_refusals Sample.otherProviderWorld "panel-7")
      as (_ & _ & Hlocated).
    destruct (Hlocated eq_refl eq_refl eq_refl eq_refl) as (_ & Hprovider).
    exact (Hprovider
             (VObj [("provider", VStr "accuweather"); ("apiKey", VStr "key")])
             "accuweather" eq_refl eq_refl eq_refl eq_refl).
Defined.

(** *** The adapters' failures *)

Lemma adapters_without_key (w : World) (lat lon apiKey : value) :
  Js.truthy apiKey = false ->
  Weather.fetchOpenWeatherMapData lat lon apiKey w = (Ret VNull, w) /\
  Weather.fetchWeatherAPIData lat lon apiKey w = (Ret VNull, w).
Proof.
  intros H.
  unfold Weather.fetchOpenWeatherMapData, Weather.fetchWeatherAPIData.
  now rewrite H.
Qed.

(** X16. Both adapters answer [null] to every failure of the provider and never
    throw: without an API key (and then without a request), on a network
    error, on a status that is not ok, on a body that is not JSON, and on a
    body without the air-quality data. *)
Theorem adapters_fail_to_null (w : World) (lat lon apiKey : value) :
  let first := Weather.fetchOpenWeatherMapData lat lon apiKey w in
  let second := Weather.fetchWeatherAPIData lat lon apiKey w in
  (Js.truthy apiKey = false ->
   first = (Ret VNull, w) /\ second = (Ret VNull, w)) /\
  (Js.truthy apiKey = true ->
   (forall message, http (host w) (fetches w) = NetworkError message ->
      fst first = Ret VNull /\ fst second = Ret VNull) /\
   (forall statusLine json,
      http (host w) (fetches w) = Response false statusLine json ->
      fst first = Ret VNull /\ fst second = Ret VNull) /\
   (forall statusLine message,
      http (host w) (fetches w) = Response true statusLine (inr message) ->
      fst first = Ret VNull /\ fst second = Ret VNull) /\
   (forall statusLine data,
      http (host w) (fetches w) = Response true statusLine (inl data) ->
      (Js.truthy (Js.get_field data "list") = false
       \/ Js.get_field data "list" = VArr [] -> fst first = Ret VNull) /\
      (Js.truthy (Js.get_field data "current") = false
       \/ Js.truthy (Js.get_field (Js.get_field data "current") "air_quality")
          = false -> fst second = Ret VNull))) /\
  (forall message, fst first <> Throw message /\ fst second <> Throw message).
Proof.
  intros first second. subst first second.
  split; [apply adapters_without_key|]. split.
  - intros Hkey.
    unfold Weather.fetchOpenWeatherMapData, Weather.fetchWeatherAPIData.
    rewrite Hkey. cbn [negb]. unfold try_catch, bind, fetch.
    repeat split; intros; rewrite H; try reflexivity.
    + cbn. unfold prop at 1. destruct (Js.nullish data) eqn:Hd; [reflexivity|].
      destruct H0 as [Hl | Hl]; rewrite Hl; [reflexivity|].
      reflexivity.
    + cbn. unfold prop at 1. destruct (Js.nullish data) eqn:Hd; [reflexivity|].
      destruct H0 as [Hl | Hl].
      * rewrite Hl. reflexivity.
      * destruct (Js.truthy (Js.get_field data "current")) eqn:Hc;
          [|reflexivity].
        unfold prop at 1.
        destruct (Js.nullish (Js.get_field data "current")); [reflexivity|].
        rewrite Hl. reflexivity.
  - intros message.
    unfold Weather.fetchOpenWeatherMapData, Weather.fetchWeatherAPIData.
    destruct (negb (Js.truthy apiKey)); [split; discriminate|].
    unfold try_catch.
    split.
    + match goal with |- fst (match ?m with _ => _ end) <> _ =>
        destruct m as [[r|e|] w'] end; discriminate.
    + match goal with |- fst (match ?m with _ => _ end) <> _ =>
        destruct m as [[r|e|] w'] end; discriminate.
Qed.

Lemma adapters_fail_to_null_witness :
  Weather.fetchOpenWeatherMapData (VNum 12) (VNum 77) (VStr "") Sample.pollutedWorld
    = (Ret VNull, Sample.pollutedWorld) /\
  fst (Weather.fetchOpenWeatherMapData (VNum 12) (VNum 77) (VStr "key")
         Sample.offlineWorld) = Ret VNull /\
  fst (Weather.fetchWeatherAPIData (VNum 12) (VNum 77) (VStr "key")
         Sample.pollutedWorld) = Ret VNull.
Proof.
  split; [|split].
  - destruct (adapters_fail_to_null Sample.pollutedWorld (VNum 12) (VNum 77)
                (VStr "")) as (Hkey & _).
    exact (proj1 (Hkey eq_refl)).
  - destruct (adapters_fail_to_null Sample.offlineWorld (VNum 12) (VNum 77)
                (VStr "key")) as (_ & Hfail & _).
    destruct (Hfail eq_refl) as (Hnetwork & _).
    exact (proj1 (Hnetwork "Failed to fetch" eq_refl)).
  - destruct (adapters_fail_to_null Sample.pollutedWorld (VNum 12) (VNum 77)
                (VStr "key")) as (_ & Hfail & _).
    destruct (Hfail eq_refl) as (_ & _ & _ & Hbody).
    destruct (Hbody "200 OK" (Sample.airPollution 40 60) eq_refl) as (_ & Hcurrent).
    exact (Hcurrent (or_introl eq_refl)).
Defined.

(** *** The adapters' readings *)

Lemma bind_returns {A B : Type} (m : M A) (k : A -> M B) (w w' : World) (b : B) :
  bind m k w = (Ret b, w') ->
  exists a w1, m w = (Ret a, w1) /\ k a w1 = (Ret b, w').
Proof.
  unfold bind. destruct (m w) as [[a|e|] w1]; try discriminate.
  intros H. now exists a, w1.
Qed.

Lemma lift_returns {A : Type} (o : option A) (w w' : World) (a : A) :
  lift o w = (Ret a, w') -> o = Some a.
Proof. unfold lift. destruct o; [now intros [= -> _]|discriminate]. Qed.

Lemma div_number (a b v : value) : Js.div a b = Some v -> exists d, v = VNum d.
Proof.
  unfold Js.div, Js.arith.
  destruct (Js.to_number a) as [[x|]|]; try discriminate.
  destruct (Js.to_number b) as [[y|]|]; try discriminate.
  destruct (Qeq_bool y 0); [discriminate|].
  intros [= <-]. now eexists.
Qed.

(** The steps of a run that returned. *)
Ltac returned H :=
  repeat first
    [ discriminate H
    | apply bind_returns in H; destruct H as (? & ? & ? & H); cbv beta in H
    | match type of H with
      | (if ?c then _ else _) _ = _ => destruct c
      | (let (_, _) := ?x in _) _ = _ => destruct x
      | (match ?x with (_, _) => _ end) _ = _ => destruct x
      end ].

(** The dust level of a reading is a number: the level both adapters
    return is a quotient. *)
Lemma adapter_level_numeric (w w' : World) (lat lon apiKey r : value) :
  Weather.fetchOpenWeatherMapData lat lon apiKey w = (Ret r, w')
  \/ Weather.fetchWeatherAPIData lat lon apiKey w = (Ret r, w') ->
  Js.truthy r = true ->
  exists d, Js.get_field r "dustLevel" = VNum d.
Proof.
  unfold Weather.fetchOpenWeatherMapData, Weather.fetchWeatherAPIData.
  intros Hrun Hr.
  destruct (negb (Js.truthy apiKey)).
  { destruct Hrun as [[= <- _] | [= <- _]]; discriminate. }
  unfold try_catch in Hrun.
  destruct Hrun as [Hrun | Hrun];
    match type of Hrun with
    | (match ?m with _ => _ end) = _ =>
        destruct m as [[r0|e|] w0] eqn:H; try discriminate
    end;
    try (injection Hrun as <- _; discriminate);
    injection Hrun as -> ->;
    returned H;
    match goal with
    | Hd : lift (Js.div _ _) _ = (Ret ?level, _) |- _ =>
        apply lift_returns, div_number in Hd; destruct Hd as [d ->]
    end;
    injection H as <- _; now exists d.
Qed.

Lemma pieces_device_status (deviceId path : string) :
  Store.pieces ("devices/" ++ deviceId ++ "/panelStatus/" ++ path)
  = "devices" :: (Store.pieces deviceId ++ "panelStatus" :: Store.pieces path)%list.
Proof.
  change ("devices/" ++ deviceId ++ "/panelStatus/" ++ path)
    with ("devices" ++ String "/"
            (deviceId ++ String "/" ("panelStatus" ++ String "/" path))).
  now rewrite !StoreFacts.pieces_slash.
Qed.

(** A path that leaves a node at its first piece diverges from every path
    below that node. *)
Lemma diverge_below (k : string) (p q : list string) :
  Store.diverge [k] q = true -> Store.diverge (k :: p) q = true.
Proof.
  destruct q as [|k' q]; [discriminate|]. cbn.
  destruct (String.eqb k' k); [|reflexivity].
  now destruct q.
Qed.

(** X17. What [updateDustLevel] does with the answer of the configured provider,
    for a device that has coordinates.  An answer of [null] gives ['Failed
    to fetch dust data'].  Any other answer is copied: the stored
    [panelStatus.dustLevel] and [panelStatus.dustCategory] are the
    reading's, [panelStatus.lastUpdated] is the time, the result carries the
    reading, and nothing of the device outside [panelStatus] changes.  The
    level of a reading is a number, so the level can always be formatted
    for the log after the write. *)
Theorem dust_update_outcome (w : World) (deviceId : string)
    (config provider apiKey dustData : value) (answered : World)
    (adapter : value -> value -> value -> M value) :
  let info := Store.read w ("devices/" ++ deviceId ++ "/info") in
  let run := Weather.updateDustLevel deviceId w in
  let status path :=
    Store.read (snd run) ("devices/" ++ deviceId ++ "/panelStatus/" ++ path) in
  accepts w ->
  Store.snapshot_exists info = true ->
  Js.truthy (Js.get_field info "lat") = true ->
  Js.truthy (Js.get_field info "lon") = true ->
  fst (Weather.getWeatherConfig (requested w)) = Ret config ->
  Js.truthy config = true ->
  Js.get_field config "provider" = provider ->
  Js.get_field config "apiKey" = apiKey ->
  (provider = VStr "openweathermap" /\ adapter = Weather.fetchOpenWeatherMapData)
  \/ (provider = VStr "weatherapi" /\ adapter = Weather.fetchWeatherAPIData) ->
  adapter (Js.get_field info "lat") (Js.get_field info "lon") apiKey
    (requested (requested w)) = (Ret dustData, answered) ->
  (Js.truthy dustData = false ->
   fst run = Ret (result_error "Failed to fetch dust data")) /\
  (Js.truthy dustData = true -> accepts answered ->
   fst run = Ret (VObj [("success", VBool true); ("dustData", dustData)]) /\
   status "dustLevel" = Js.get_field dustData "dustLevel" /\
   (exists level, Js.get_field dustData "dustLevel" = VNum level) /\
   status "dustCategory" = Js.get_field dustData "dustCategory" /\
   status "lastUpdated" = VNum (inject_Z (now answered)) /\
   (forall rest, Store.diverge ["panelStatus"] (Store.pieces rest) = true ->
      Store.read (snd run) ("devices/" ++ deviceId ++ "/" ++ rest)
      = Store.read w ("devices/" ++ deviceId ++ "/" ++ rest))).
Proof.
  intros info run status Hacc Hex Hlat Hlon Hconfig Ht Hprovider Hkey Hadapter Hrun.
  subst info. unfold Store.snapshot_exists in Hex. apply negb_true_iff in Hex.
  assert (Hc : Js.nullish config = false) by (now destruct config).
  assert (Hdb : database answered = database w).
  { match type of Hrun with ?a ?lat ?lon _ _ = _ =>
      pose proof (read_only_adapters lat lon apiKey) as [H1 H2]
    end.
    destruct Hadapter as [[_ ->] | [_ ->]];
      [specialize (H1 (requested (requested w))); rewrite Hrun in H1;
       exact (proj1 H1)
      |specialize (H2 (requested (requested w))); rewrite Hrun in H2;
       exact (proj1 H2)]. }
  assert (Hstart :
    Weather.updateDustLevel deviceId w
    = try_catch
        (fun w2 =>
           if negb (Js.truthy dustData) then (Throw "Failed to fetch dust data", w2)
           else
             (_ <- Store.update
                     [("devices/" ++ deviceId ++ "/panelStatus/dustLevel",
                       Js.get_field dustData "dustLevel");
                      ("devices/" ++ deviceId ++ "/panelStatus/dustCategory",
                       Js.get_field dustData "dustCategory");
                      ("devices/" ++ deviceId ++ "/panelStatus/lastUpdated",
                       VNum (inject_Z (now w2)))] ;;
              ret (VObj [("success", VBool true); ("dustData", dustData)]))
               (tick w2))
        (fun message => ret (result_error message)) answered).
  { dust_update_to_config Hacc Hex Hlat Hlon Hconfig.
    rewrite Ht. cbn [negb].
    rewrite (prop_nonnull _ _ _ Hc).
    destruct Hadapter as [[Hp Ha] | [Hp Ha]]; subst provider adapter;
      rewrite Hp;
      repeat match goal with
        | |- context [Js.strict_eq (VStr ?a) (VStr ?b)] =>
            let r := eval vm_compute in (Js.strict_eq (VStr a) (VStr b)) in
            change (Js.strict_eq (VStr a) (VStr b)) with r
        end;
      cbv beta iota;
      rewrite (prop_nonnull _ _ _ Hc), Hkey, Hrun;
      unfold try_catch; destruct (Js.truthy dustData) eqn:Hd; cbn [negb];
        try reflexivity;
      (assert (Hn : Js.nullish dustData = false) by (now destruct dustData));
      rewrite !(prop_nonnull _ _ _ Hn); unfold Date_now; assign_list;
      reflexivity. }
  subst run status. rewrite Hstart. clear Hstart. split.
  - intros Hd. unfold try_catch. now rewrite Hd.
  - intros Hd Hans. unfold accepts in Hans.
    unfold try_catch, bind, Store.update, Store.request, bind. rewrite Hd.
    cbn [negb host requests tick]. rewrite Hans. cbn [fst snd ret].
    unfold Store.read, Store.tree_update.
    cbn [database with_database requested tick fst snd fold_left].
    rewrite !pieces_device_status. store_paths.
    split; [reflexivity|]. split; [store_read; reflexivity|].
    split.
    { apply (adapter_level_numeric (requested (requested w)) answered
               (Js.get_field (Store.read w ("devices/" ++ deviceId ++ "/info")) "lat")
               (Js.get_field (Store.read w ("devices/" ++ deviceId ++ "/info")) "lon")
               apiKey); [|exact Hd].
      destruct Hadapter as [[_ ->] | [_ ->]]; [left|right]; exact Hrun. }
    repeat split; store_read; try reflexivity.
    intros rest Hrest. store_paths.
    rewrite !StoreFacts.tree_get_set_diverge; [now rewrite Hdb| | |];
      rewrite StoreFacts.diverge_cons, StoreFacts.diverge_app;
      now apply diverge_below.
Qed.

Lemma dust_update_outcome_witness :
  let run := Weather.updateDustLevel "panel-7" Sample.configuredWorld in
  let reading :=
    VObj [("dustLevel", VNum 50); ("dustCategory", VStr "light");
          ("pm25", VNum 40); ("pm10", VNum 60); ("aqi", VNum 2);
          ("timestamp", VNum 9000)] in
  fst run = Ret (VObj [("success", VBool true); ("dustData", reading)]) /\
  Store.read (snd run) "devices/panel-7/panelStatus/dustCategory" = VStr "light" /\
  Store.read (snd run) "devices/panel-7/panelStatus/lastUpdated" = VNum 9000 /\
  Store.read (snd run) "devices/panel-7/info/lat" = VNum 12.
Proof.
  destruct (dust_update_outcome Sample.configuredWorld "panel-7"
              (VObj [("provider", VStr "openweathermap"); ("apiKey", VStr "key")])
              (VStr "openweathermap") (VStr "key")
              (VObj [("dustLevel", VNum 50);
                     ("dustCategory", VStr "light");
                     ("pm25", VNum 40); ("pm10", VNum 60); ("aqi", VNum 2);
                     ("timestamp", VNum 9000)])
              (tick (fetched (requested (requested Sample.configuredWorld))))
              Weather.fetchOpenWeatherMapData
              eq_refl eq_refl eq_refl eq_refl eq_refl eq_refl eq_refl eq_refl
              (or_introl (conj eq_refl eq_refl)) eq_refl) as (_ & Hdone).
  destruct (Hdone eq_refl eq_refl) as (Hok & _ & _ & Hcategory & Htime & Hframe).
  split; [exact Hok|]. split; [exact Hcategory|]. split; [exact Htime|].
  exact (Hframe "info/lat" eq_refl).
Defined.

(** ** Weather and cleaning *)

Lemma prefix_split (sub s : string) :
  String.prefix sub s = true <-> exists rest, s = sub ++ rest.
Proof.
  revert s. induction sub as [|c sub IH]; intros s.
  - split; [intros _; now exists s|intros _; now destruct s].
  - destruct s as [|d s]; cbn [String.prefix].
    + split; [discriminate|]. intros [rest H]. discriminate.
    + destruct (ascii_dec c d) as [->|Hne].
      * rewrite IH. split; intros [rest H]; exists rest.
        -- cbn. now rewrite H.
        -- cbn in H. now injection H.
      * split; [discriminate|]. intros [rest H]. cbn in H.
        injection H as H _. now subst.
Qed.

(** [includes] decides the presence of a substring. *)
Lemma includes_contains (s sub : string) :
  Js.includes s sub = true <-> contains s sub.
Proof.
  induction s as [|c s IH].
  - cbn [Js.includes]. destruct (String.prefix sub "") eqn:E.
    + split; [intros _|intros _; reflexivity].
      apply prefix_split in E as [rest H]. now exists "", rest.
    + split; [discriminate|]. intros (before & rest & H).
      destruct before; [|discriminate]. cbn in H.
      assert (String.prefix sub "" = true) by (apply prefix_split; now exists rest).
      congruence.
  - cbn [Js.includes]. destruct (String.prefix sub (String c s)) eqn:E.
    + split; [intros _|intros _; reflexivity].
      apply prefix_split in E as [rest H]. now exists "", rest.
    + rewrite IH. split; intros (before & rest & H).
      * exists (String c before), rest. cbn. now rewrite H.
      * destruct before as [|d before].
        -- cbn in H.
           assert (String.prefix sub (String c s) = true)
             by (apply prefix_split; now exists rest).
           congruence.
        -- cbn in H. injection H as _ H. now exists before, rest.
Qed.

Lemma negb_Qle_bool (x y : Q) : negb (Qle_bool x y) = false <-> x <= y.
Proof.
  rewrite negb_false_iff. apply Qle_bool_iff.
Qed.

(** X18. The rule of [isSuitableForCleaning] on the conditions it obtains.
    Without conditions ([null]) cleaning is allowed.  With conditions whose
    description is a string, cleaning is allowed exactly when the
    description does not mention rain, in any case of the letters, the wind
    speed is at most 15 and the temperature is at most 50.  A description
    that is not a string allows cleaning whatever the wind and the
    temperature are: the failed test is caught. *)
Theorem cleaning_weather_rule (w w1 : World) (lat lon weather : value) :
  let run := Weather.isSuitableForCleaning lat lon w in
  Weather.getWeatherConditions lat lon w = (Ret weather, w1) ->
  (Js.truthy weather = false -> fst run = Ret true) /\
  (forall description lowered windSpeed temperature,
     Js.get_field weather "description" = VStr description ->
     Js.toLowerCase description = Some lowered ->
     Js.get_field weather "windSpeed" = VNum windSpeed ->
     Js.get_field weather "temperature" = VNum temperature ->
     returns_iff (fst run)
       (~ contains lowered "rain" /\ windSpeed <= 15 /\ temperature <= 50)) /\
  (Js.truthy weather = true ->
   (forall description, Js.get_field weather "description" <> VStr description) ->
   fst run = Ret true).
Proof.
  intros run Hweather. subst run.
  unfold Weather.isSuitableForCleaning, try_catch, bind. rewrite Hweather.
  split; [|split].
  - intros ->. reflexivity.
  - intros description lowered windSpeed temperature Hd Hl Hw Ht.
    assert (Hn : Js.nullish weather = false).
    { apply (field_defined weather "description"). now rewrite Hd. }
    assert (Htr : Js.truthy weather = true).
    { apply (field_defined_truthy weather "description" eq_refl). now rewrite Hd. }
    rewrite Htr. cbn [negb].
    rewrite (prop_nonnull _ _ _ Hn), Hd.
    unfold Weather.mentionsRain, bind, lift. rewrite Hl. cbn [ret].
    destruct (Js.includes lowered "rain") eqn:Hrain.
    { exists false. split; [reflexivity|]. split; [discriminate|].
      intros [Hno _]. exfalso. apply Hno. now apply includes_contains. }
    assert (Hno : ~ contains lowered "rain").
    { intros H. apply includes_contains in H. congruence. }
    rewrite (prop_nonnull _ _ _ Hn), Hw. cbn.
    destruct (negb (Qle_bool windSpeed 15)) eqn:Hwind.
    { exists false. split; [reflexivity|]. split; [discriminate|].
      intros (_ & Hle & _). apply negb_Qle_bool in Hle. congruence. }
    apply negb_Qle_bool in Hwind.
    rewrite (prop_nonnull _ _ _ Hn), Ht. cbn.
    destruct (negb (Qle_bool temperature 50)) eqn:Htemp.
    { exists false. split; [reflexivity|]. split; [discriminate|].
      intros (_ & _ & Hle). apply negb_Qle_bool in Hle. congruence. }
    apply negb_Qle_bool in Htemp.
    exists true. split; [reflexivity|]. now split.
  - intros Htr Hdesc. rewrite Htr. cbn [negb].
    assert (Hn : Js.nullish weather = false) by (now destruct weather).
    rewrite (prop_nonnull _ _ _ Hn).
    destruct (Js.get_field weather "description") eqn:Hd; try reflexivity.
    now destruct (Hdesc s).
Qed.

Lemma cleaning_weather_rule_witness :
  returns_iff
    (fst (Weather.isSuitableForCleaning (VNum 12) (VNum 77) Sample.rainyWorld))
    (~ contains "light rain" "rain" /\ 3 <= 15 /\ 30 <= 50).
Proof.
  destruct (cleaning_weather_rule Sample.rainyWorld
              (tick (fetched (requested Sample.rainyWorld)))
              (VNum 12) (VNum 77)
              (VObj [("temperature", VNum 30); ("humidity", VNum 40);
                     ("description", VStr "Light Rain");
                     ("windSpeed", VNum 3); ("cloudiness", VNum 75);
                     ("timestamp", VNum 9000)])
              eq_refl) as (_ & Hrule & _).
  exact (Hrule "Light Rain" "light rain" 3 30 eq_refl eq_refl eq_refl eq_refl).
Defined.

(** X19. [getWeatherConditions] answers [null] when the weather service is not
    configured or fails, and [isSuitableForCleaning] then allows cleaning:
    without settings or without an API key no request is made; with a key, a
    network error, a status that is not ok and a body that is not JSON all
    allow cleaning. *)
Theorem weather_failure_allows_cleaning (w : World) (lat lon config : value) :
  let conditions := Weather.getWeatherConditions lat lon w in
  let run := Weather.isSuitableForCleaning lat lon w in
  fst (Weather.getWeatherConfig w) = Ret config ->
  (Js.truthy config = false \/ Js.truthy (Js.get_field config "apiKey") = false ->
   fst conditions = Ret VNull /\ fst run = Ret true /\
   fetches (snd run) = fetches w) /\
  (Js.truthy (Js.get_field config "apiKey") = true ->
   (forall message, http (host w) (fetches w) = NetworkError message ->
      fst conditions = Ret VNull /\ fst run = Ret true) /\
   (forall statusLine json,
      http (host w) (fetches w) = Response false statusLine json ->
      fst conditions = Ret VNull /\ fst run = Ret true) /\
   (forall statusLine message,
      http (host w) (fetches w) = Response true statusLine (inr message) ->
      fst conditions = Ret VNull /\ fst run = Ret true)).
Proof.
  intros conditions run Hconfig. subst conditions run.
  apply getWeatherConfig_result in Hconfig.
  unfold Weather.isSuitableForCleaning, Weather.getWeatherConditions,
    try_catch, bind.
  rewrite Hconfig. split.
  - intros Hmissing.
    destruct (Js.truthy config) eqn:Ht.
    + destruct Hmissing as [|Hkey]; [discriminate|].
      assert (Hn : Js.nullish config = false) by (now destruct config).
      rewrite (prop_nonnull _ _ _ Hn), Hkey. repeat split; reflexivity.
    + repeat split; reflexivity.
  - intros Hkey.
    assert (Ht : Js.truthy config = true).
    { apply (truthy_field_truthy config "apiKey" eq_refl Hkey). }
    assert (Hn : Js.nullish config = false) by (now destruct config).
    rewrite Ht, (prop_nonnull _ _ _ Hn), Hkey. cbn [negb orb].
    unfold fetch. cbn [host fetches requested].
    repeat split; intros; rewrite H; reflexivity.
Qed.

Lemma weather_failure_allows_cleaning_witness :
  fst (Weather.isSuitableForCleaning (VNum 12) (VNum 77) Sample.emptyWorld)
    = Ret true /\
  fetches (snd (Weather.isSuitableForCleaning (VNum 12) (VNum 77) Sample.emptyWorld))
    = fetches Sample.emptyWorld.
Proof.
  destruct (weather_failure_allows_cleaning Sample.emptyWorld (VNum 12) (VNum 77)
              (VObj [("provider", VStr "openweathermap"); ("apiKey", VStr "");
                     ("updateInterval", VNum 1800000)])
              eq_refl) as (Hunset & _).
  destruct (Hunset (or_intror eq_refl)) as (_ & Hallowed & Hquiet).
  split; [exact Hallowed|exact Hquiet].
Defined.

(** ** The browser storage *)

Lemma assigned_key_listed {A : Type} (k : string) (v : A) fs :
  In k (map fst (Js.assign k v fs)).
Proof.
  induction fs as [|[k' v'] fs IH]; unfold Js.assign; fold (@Js.assign A).
  - now left.
  - destruct (String.eqb k k'); cbn [map fst In]; [now left|now right].
Qed.

Section Storage.
Context (JSON_stringify : value -> string).
Context (quotaExceeded : list (string * string) -> string -> string -> bool).

Lemma setItem_stored (w : World) (key : string) (v : value)
    (storage : list (string * string)) :
  let text := StorageUtil.stored JSON_stringify v in
  localStorage w = Some storage -> key <> "" ->
  quotaExceeded storage key text = false ->
  StorageUtil.setItem JSON_stringify quotaExceeded key v w
  = (Ret true, with_localStorage (Some (Js.assign key text storage)) w).
Proof.
  intros text Hst Hkey Hquota. subst text. apply String.eqb_neq in Hkey.
  unfold StorageUtil.setItem.
  now rewrite Hst, Hkey, Hquota.
Qed.

(** X20. What [setItem] stores is what [getItem] returns: for a value that the
    parser reads back from its serialisation, the write succeeds, a read of
    the key returns the value whatever default is given, [hasKey] finds the
    key and [getAllKeys] lists it, and every other key reads as before. *)
Theorem stored_item_roundtrip (w : World) (key : string) (v : value)
    (storage : list (string * string)) :
  let text := StorageUtil.stored JSON_stringify v in
  let run := StorageUtil.setItem JSON_stringify quotaExceeded key v w in
  localStorage w = Some storage ->
  key <> "" ->
  quotaExceeded storage key text = false ->
  jsonParse (host w) text = Some v ->
  fst run = Ret true /\
  (forall defaultValue,
     fst (StorageUtil.getItem key defaultValue (snd run)) = Ret v) /\
  fst (StorageUtil.hasKey key (snd run)) = Ret true /\
  (forall keys, fst (StorageUtil.getAllKeys (snd run)) = Ret keys -> In key keys) /\
  (forall other defaultValue, other <> key ->
     fst (StorageUtil.getItem other defaultValue (snd run))
     = fst (StorageUtil.getItem other defaultValue w) /\
     fst (StorageUtil.hasKey other (snd run)) = fst (StorageUtil.hasKey other w)).
Proof.
  intros text run Hst Hkey Hquota Hparse. subst run.
  rewrite (setItem_stored w key v storage Hst Hkey Hquota). fold text.
  cbn [fst snd].
  pose proof Hkey as Hk. apply String.eqb_neq in Hk.
  repeat split.
  - intros defaultValue. unfold StorageUtil.getItem.
    cbn [localStorage with_localStorage host]. rewrite Hk.
    now rewrite lookup_assign_same, Hparse.
  - unfold StorageUtil.hasKey. cbn [localStorage with_localStorage].
    now rewrite Hk, lookup_assign_same.
  - intros keys. unfold StorageUtil.getAllKeys.
    cbn [localStorage with_localStorage fst]. intros [= <-].
    apply assigned_key_listed.
  - apply String.eqb_neq in H. unfold StorageUtil.getItem.
    cbn [localStorage with_localStorage host]. rewrite Hst.
    rewrite lookup_assign_other by assumption.
    destruct (String.eqb other ""); [reflexivity|].
    destruct (Js.lookup other storage) as [raw|]; [|reflexivity].
    now destruct (jsonParse (host w) raw).
  - apply String.eqb_neq in H. unfold StorageUtil.hasKey.
    cbn [localStorage with_localStorage]. rewrite Hst.
    rewrite lookup_assign_other by assumption.
    now destruct (String.eqb other "").
Qed.

Lemma setWithExpiry_stored (w : World) (key : string) (v : value) (ttl : Q)
    (storage : list (string * string)) :
  let text :=
    StorageUtil.stored JSON_stringify
      (VObj [("value", v);
             ("expiry", VNum (Js.double (inject_Z (now w) + ttl)))]) in
  localStorage w = Some storage -> key <> "" -> 0 < ttl ->
  quotaExceeded storage key text = false ->
  StorageUtil.setWithExpiry JSON_stringify quotaExceeded key v (VNum ttl) w
  = (Ret true, with_localStorage (Some (Js.assign key text storage)) (tick w)).
Proof.
  intros text Hst Hkey Httl Hquota. subst text.
  unfold StorageUtil.setWithExpiry, bind, lift, Date_now.
  unfold Js.ge, Js.add, Js.compare, Js.arith.
  cbn [Js.typeof_number Js.to_number negb orb].
  rewrite (Qle_bool_false _ _ Httl).
  exact (setItem_stored (tick w) key _ storage Hst Hkey Hquota).
Qed.

(** X21. An entry written by [setWithExpiry] with a positive time to live is
    returned by [getWithExpiry] as long as the clock has not passed the
    expiry; once it has, the caller's default is returned and the entry is
    gone.  The expiry is the writing time plus the time to live, as the
    double that sum makes: for a whole time to live and a sum of at most
    [2 ^ 53], the sum itself. *)
Theorem expiring_entry_roundtrip (w : World) (key : string) (v : value)
    (ttl : Q) (storage : list (string * string)) :
  let expiry := Js.double (inject_Z (now w) + ttl) in
  let payload := VObj [("value", v); ("expiry", VNum expiry)] in
  let text := StorageUtil.stored JSON_stringify payload in
  let run :=
    StorageUtil.setWithExpiry JSON_stringify quotaExceeded key v (VNum ttl) w in
  localStorage w = Some storage ->
  key <> "" ->
  0 < ttl ->
  quotaExceeded storage key text = false ->
  jsonParse (host w) text = Some payload ->
  fst run = Ret true /\
  (forall defaultValue,
     let read := StorageUtil.getWithExpiry key defaultValue (snd run) in
     (inject_Z (now (snd run)) <= expiry ->
      fst read = Ret v /\ localStorage (snd read) = localStorage (snd run)) /\
     (expiry < inject_Z (now (snd run)) ->
      fst read = Ret (Js.default_param defaultValue VNull) /\
      fst (StorageUtil.hasKey key (snd read)) = Ret false)) /\
  (forall whole : Z,
     ttl == inject_Z whole -> (Z.abs (now w + whole) <= 2 ^ 53)%Z ->
     expiry = inject_Z (now w + whole)).
Proof.
  intros expiry payload text run Hst Hkey Httl Hquota Hparse. subst run.
  rewrite (setWithExpiry_stored w key v ttl storage Hst Hkey Httl Hquota).
  fold expiry. fold payload. fold text. cbn [fst snd]. split; [reflexivity|].
  split.
  - intros defaultValue.
    apply String.eqb_neq in Hkey.
    unfold StorageUtil.getWithExpiry, bind, StorageUtil.getItem.
    cbn [localStorage with_localStorage host tick]. rewrite Hkey.
    rewrite lookup_assign_same, Hparse.
    change (Js.truthy payload) with true.
    change (Js.typeof_object payload) with true.
    change (Js.get_field payload "expiry") with (VNum expiry).
    change (Js.get_field payload "value") with v.
    cbn [negb orb Js.typeof_number]. unfold Date_now, lift, Js.gt, Js.compare.
    cbn [Js.to_number].
    split; intros Hnow.
    + rewrite (Qle_bool_true _ _ Hnow). cbn. now split.
    + rewrite (Qle_bool_false _ _ Hnow). cbn [negb].
      unfold StorageUtil.removeItem, StorageUtil.hasKey.
      cbn [localStorage with_localStorage tick]. rewrite Hkey.
      cbn [fst snd ret localStorage with_localStorage tick].
      now rewrite lookup_remove_same.
  - intros whole Hwhole Hmax. subst expiry.
    rewrite <- (double_whole _ Hmax). apply double_proper.
    now rewrite Hwhole, inject_Z_plus.
Qed.

(** X22. Nothing is stored by a refused write: [setWithExpiry] with a time to
    live that is not a number or not positive, and any write with an empty
    key, without storage or over the quota, return [false] and leave the
    storage as it was. *)
Theorem refused_writes_store_nothing (w : World) (key : string) (v ttl : value) :
  let write := StorageUtil.setItem JSON_stringify quotaExceeded key v w in
  let expiring :=
    StorageUtil.setWithExpiry JSON_stringify quotaExceeded key v ttl w in
  ((Js.typeof_number ttl = false \/ exists t, ttl = VNum t /\ t <= 0) ->
   expiring = (Ret false, w)) /\
  (key = "" \/ localStorage w = None ->
   write = (Ret false, w) /\
   fst expiring = Ret false /\
   localStorage (snd expiring) = localStorage w) /\
  (forall storage, localStorage w = Some storage ->
     quotaExceeded storage key (StorageUtil.stored JSON_stringify v) = true ->
     write = (Ret false, w)).
Proof.
  intros write expiring. subst write expiring. split; [|split].
  - unfold StorageUtil.setWithExpiry, bind, lift.
    intros [H | (t & -> & Ht)].
    + now rewrite H.
    + cbn. now rewrite (Qle_bool_true _ _ Ht).
  - intros Hno.
    assert (Hset : forall x w0, localStorage w0 = localStorage w ->
                     StorageUtil.setItem JSON_stringify quotaExceeded key x w0
                     = (Ret false, w0)).
    { intros x w0 Hw0. unfold StorageUtil.setItem. rewrite Hw0.
      destruct Hno as [-> | ->]; [|reflexivity].
      now destruct (localStorage w). }
    split; [now apply Hset|].
    unfold StorageUtil.setWithExpiry, bind, lift.
    destruct ttl as [| | |t| | |]; try (now split).
    cbn. destruct (Qle_bool t 0); cbn; [now split|].
    rewrite Hset by reflexivity. now split.
  - intros storage Hst Hquota. unfold StorageUtil.setItem.
    rewrite Hst, Hquota. now destruct (String.eqb key "").
Qed.

End Storage.

Lemma stored_item_roundtrip_witness :
  let v := VObj [("value", VStr "dark"); ("expiry", VNum 5000)] in
  let run :=
    StorageUtil.setItem Sample.stringifyEnvelope Sample.noQuota "accent" v
      Sample.earlyWorld in
  fst run = Ret true /\
  fst (StorageUtil.getItem "accent" VUndefined (snd run)) = Ret v /\
  fst (StorageUtil.hasKey "accent" (snd run)) = Ret true.
Proof.
  destruct (stored_item_roundtrip Sample.stringifyEnvelope Sample.noQuota
              Sample.earlyWorld "accent"
              (VObj [("value", VStr "dark"); ("expiry", VNum 5000)])
              [("theme", "{'value':'dark','expiry':5000}")]
              eq_refl ltac:(discriminate) eq_refl eq_refl)
    as (Hok & Hread & Hhas & _).
  split; [exact Hok|]. split; [exact (Hread VUndefined)|exact Hhas].
Defined.

Lemma expiring_entry_roundtrip_witness :
  let run :=
    StorageUtil.setWithExpiry Sample.stringifyEnvelope Sample.noQuota "accent"
      (VStr "dark") (VNum 4000) Sample.earlyWorld in
  fst run = Ret true /\
  fst (StorageUtil.getWithExpiry "accent" VUndefined (snd run)) = Ret (VStr "dark").
Proof.
  destruct (expiring_entry_roundtrip Sample.stringifyEnvelope Sample.noQuota
              Sample.earlyWorld "accent" (VStr "dark") 4000
              [("theme", "{'value':'dark','expiry':5000}")]
              eq_refl ltac:(discriminate) eq_refl eq_refl eq_refl)
    as (Hok & Hread & _).
  split; [exact Hok|].
  destruct (Hread VUndefined) as (Hfresh & _).
  refine (proj1 (Hfresh _)). vm_compute. discriminate.
Defined.

Lemma refused_writes_store_nothing_witness :
  StorageUtil.setWithExpiry Sample.stringifyEnvelope Sample.noQuota "accent"
    (VStr "dark") (VStr "soon") Sample.earlyWorld
  = (Ret false, Sample.earlyWorld) /\
  StorageUtil.setWithExpiry Sample.stringifyEnvelope Sample.noQuota "accent"
    (VStr "dark") (VNum 0) Sample.earlyWorld
  = (Ret false, Sample.earlyWorld) /\
  StorageUtil.setItem Sample.stringifyEnvelope Sample.noQuota ""
    (VStr "dark") Sample.earlyWorld
  = (Ret false, Sample.earlyWorld).
Proof.
  split; [|split].
  - destruct (refused_writes_store_nothing Sample.stringifyEnvelope Sample.noQuota
                Sample.earlyWorld "accent" (VStr "dark") (VStr "soon"))
      as (Httl & _).
    exact (Httl (or_introl eq_refl)).
  - destruct (refused_writes_store_nothing Sample.stringifyEnvelope Sample.noQuota
                Sample.earlyWorld "accent" (VStr "dark") (VNum 0))
      as (Httl & _).
    exact (Httl (or_intror (ex_intro _ 0 (conj eq_refl (Qle_refl 0))))).
  - destruct (refused_writes_store_nothing Sample.stringifyEnvelope Sample.noQuota
                Sample.earlyWorld "" (VStr "dark") (VNum 4000))
      as (_ & Hkey & _).
    exact (proj1 (Hkey (or_introl eq_refl))).
Defined.

(** X23. After [removeItem] the key is absent: [hasKey] answers [false] and
    [getItem] the default, and the other keys read as before.  After
    [clearStorage] no key is left. *)
Theorem removal_and_clearing (w : World) (key : string)
    (storage : list (string * string)) :
  let removed := StorageUtil.removeItem key w in
  let cleared := StorageUtil.clearStorage w in
  localStorage w = Some storage ->
  (key <> "" ->
   fst removed = Ret true /\
   fst (StorageUtil.hasKey key (snd removed)) = Ret false /\
   (forall defaultValue,
      fst (StorageUtil.getItem key defaultValue (snd removed))
      = Ret (Js.default_param defaultValue VNull)) /\
   (forall other defaultValue, other <> key ->
      fst (StorageUtil.getItem other defaultValue (snd removed))
      = fst (StorageUtil.getItem other defaultValue w))) /\
  fst cleared = Ret true /\
  fst (StorageUtil.getAllKeys (snd cleared)) = Ret [] /\
  (forall other, fst (StorageUtil.hasKey other (snd cleared)) = Ret false).
Proof.
  intros removed cleared Hst. subst removed cleared.
  unfold StorageUtil.removeItem, StorageUtil.clearStorage. rewrite Hst.
  split.
  - intros Hkey. apply String.eqb_neq in Hkey. rewrite Hkey. cbn [fst snd].
    unfold StorageUtil.hasKey, StorageUtil.getItem.
    cbn [localStorage with_localStorage host]. rewrite Hkey.
    rewrite lookup_remove_same. repeat split.
    intros other defaultValue Hne. apply String.eqb_neq in Hne.
    rewrite Hst. rewrite lookup_remove_other by assumption.
    destruct (String.eqb other ""); [reflexivity|].
    destruct (Js.lookup other storage) as [raw|]; [|reflexivity].
    now destruct (jsonParse (host w) raw).
  - cbn [fst snd]. repeat split.
    intros other. unfold StorageUtil.hasKey.
    cbn [localStorage with_localStorage].
    now destruct (String.eqb other "").
Qed.

Lemma removal_and_clearing_witness :
  fst (StorageUtil.hasKey "theme"
         (snd (StorageUtil.removeItem "theme" Sample.earlyWorld))) = Ret false /\
  fst (StorageUtil.getAllKeys (snd (StorageUtil.clearStorage Sample.earlyWorld)))
    = Ret [].
Proof.
  destruct (removal_and_clearing Sample.earlyWorld "theme"
              [("theme", "{'value':'dark','expiry':5000}")] eq_refl)
    as (Hremoved & _ & Hcleared & _).
  destruct (Hremoved ltac:(discriminate)) as (_ & Hgone & _).
  split; [exact Hgone|exact Hcleared].
Defined.

(** X24. An entry that is not an envelope is never returned and never removed by
    [getWithExpiry]: when the key is absent, when the stored text does not
    parse, when it parses to a primitive, and when its [expiry] is not a
    number, the caller's default is returned and the storage is as it
    was. *)
Theorem foreign_entries_read_as_default (w : World) (key : string)
    (defaultValue : value) (storage : list (string * string)) :
  let run := StorageUtil.getWithExpiry key defaultValue w in
  localStorage w = Some storage ->
  Js.lookup key storage = None
  \/ (exists raw, Js.lookup key storage = Some raw /\
        (jsonParse (host w) raw = None
         \/ exists parsed, jsonParse (host w) raw = Some parsed /\
              (Js.typeof_object parsed = false
               \/ Js.typeof_number (Js.get_field parsed "expiry") = false))) ->
  run = (Ret (Js.default_param defaultValue VNull), w).
Proof.
  intros run Hst Hcases. subst run.
  unfold StorageUtil.getWithExpiry, bind, StorageUtil.getItem.
  rewrite Hst. destruct (String.eqb key ""); [reflexivity|].
  destruct Hcases as [-> | (raw & -> & [-> | (parsed & -> & Hp)])];
    try reflexivity.
  destruct Hp as [Hp | Hp].
  - rewrite Hp. now rewrite orb_true_r.
  - rewrite Hp. now destruct (negb (Js.truthy parsed) || _).
Qed.

Lemma foreign_entries_read_as_default_witness :
  StorageUtil.getWithExpiry "accent" (VStr "light") Sample.earlyWorld
  = (Ret (VStr "light"), Sample.earlyWorld).
Proof.
  exact (foreign_entries_read_as_default Sample.earlyWorld "accent" (VStr "light")
           [("theme", "{'value':'dark','expiry':5000}")] eq_refl
           (or_introl eq_refl)).
Defined.

(** ** Updates of one device *)

(** Paths that diverge stay divergent below. *)
Lemma diverge_extend (p q p' q' : list string) :
  Store.diverge p q = true -> Store.diverge (p ++ p') (q ++ q') = true.
Proof.
  revert q. induction p as [|k p IH]; intros q H; [discriminate|].
  destruct q as [|k' q]; [discriminate|].
  cbn in *. destruct (String.eqb k' k); [now apply IH|reflexivity].
Qed.

Lemma updateDeviceData_accepted (w : World) (deviceId path : string) (v : value) :
  accepts w ->
  Database.updateDeviceData deviceId path v w
  = (Ret result_ok,
     with_database
       (Store.tree_set (database w)
          (Store.pieces ("devices/" ++ deviceId ++ "/" ++ path)) v)
       (requested w)).
Proof.
  intros Hacc. unfold accepts in Hacc.
  unfold Database.updateDeviceData, try_catch, bind, Store.set, Store.request,
    bind.
  now rewrite Hacc.
Qed.

(** X25. An accepted [updateDeviceData] stores the value at the path of the
    device; paths of the device that diverge from it, and all paths of the
    devices with another identifier, read as before. *)
Theorem device_update_roundtrip (w : World) (deviceId path : string) (v : value) :
  let run := Database.updateDeviceData deviceId path v w in
  accepts w ->
  fst run = Ret result_ok /\
  Store.read (snd run) ("devices/" ++ deviceId ++ "/" ++ path) = v /\
  (forall other,
     Store.diverge (Store.pieces path) (Store.pieces other) = true ->
     Store.read (snd run) ("devices/" ++ deviceId ++ "/" ++ other)
     = Store.read w ("devices/" ++ deviceId ++ "/" ++ other)) /\
  (forall otherId rest,
     Store.diverge (Store.pieces deviceId) (Store.pieces otherId) = true ->
     Store.read (snd run) ("devices/" ++ otherId ++ "/" ++ rest)
     = Store.read w ("devices/" ++ otherId ++ "/" ++ rest)).
Proof.
  intros run Hacc. subst run.
  rewrite (updateDeviceData_accepted _ _ _ _ Hacc). cbn [fst snd].
  unfold Store.read. cbn [database with_database requested].
  split; [reflexivity|]. split; [|split].
  - apply StoreFacts.tree_get_set_same.
  - intros other Hd. store_paths.
    apply StoreFacts.tree_get_set_diverge.
    now rewrite StoreFacts.diverge_cons, StoreFacts.diverge_app.
  - intros otherId rest Hd. store_paths.
    apply StoreFacts.tree_get_set_diverge.
    rewrite StoreFacts.diverge_cons. now apply diverge_extend.
Qed.

Lemma device_update_roundtrip_witness :
  let run :=
    Database.updateDeviceData "panel-7" "info/name" (VStr "Roof") Sample.cleaningWorld in
  fst run = Ret result_ok /\
  Store.read (snd run) "devices/panel-7/info/name" = VStr "Roof" /\
  Store.read (snd run) "devices/panel-7/info/lat"
  = Store.read Sample.cleaningWorld "devices/panel-7/info/lat".
Proof.
  destruct (device_update_roundtrip Sample.cleaningWorld "panel-7" "info/name"
              (VStr "Roof") eq_refl) as (Hok & Hread & Hframe & _).
  split; [exact Hok|]. split; [exact Hread|].
  exact (Hframe "info/lat" eq_refl).
Defined.

(** X26. A batch of one entry that the store accepts is the single update: the
    same result and the same database, where the entry's path presents the
    entry's value.  A batch for [null] or [undefined]
    fails with the message of the TypeError and sends no request. *)
Theorem batch_update_cases (w : World) (deviceId : string) :
  (forall path v,
     accepts w ->
     Database.batchUpdateDevice deviceId (VObj [(path, v)]) w
     = Database.updateDeviceData deviceId path v w /\
     fst (Database.batchUpdateDevice deviceId (VObj [(path, v)]) w)
     = Ret result_ok /\
     Store.presented
       (snd (Database.batchUpdateDevice deviceId (VObj [(path, v)]) w))
       ("devices/" ++ deviceId ++ "/" ++ path) = Store.present v) /\
  (forall updates, Js.nullish updates = true ->
     Database.batchUpdateDevice deviceId updates w
     = (Ret (result_error (typeErrorMessage (host w) "keys")), w)).
Proof.
  split.
  - intros path v Hacc.
    assert (E : Database.batchUpdateDevice deviceId (VObj [(path, v)]) w
                = Database.updateDeviceData deviceId path v w).
    { rewrite (updateDeviceData_accepted _ _ _ _ Hacc).
      unfold accepts in Hacc.
      unfold Database.batchUpdateDevice, Database.formatUpdates, try_catch,
        bind, prop, Store.update, Store.request, bind, Store.tree_update.
      cbn [Js.nullish Js.keys Js.own_fields map fst fold_left].
      rewrite assign_nil, Hacc.
      cbn [fold_left fst snd].
      change (Js.get_field (VObj [(path, v)]) path)
        with (match Js.lookup path [(path, v)] with
              | Some x => x | None => VUndefined end).
      cbn [Js.lookup]. now rewrite String.eqb_refl. }
    rewrite E, (updateDeviceData_accepted _ _ _ _ Hacc). cbn [fst snd].
    split; [reflexivity|]. split; [reflexivity|].
    unfold Store.presented. cbn [database with_database requested].
    now rewrite StoreFacts.tree_get_set_same.
  - intros updates Hnull.
    unfold Database.batchUpdateDevice, try_catch, bind, prop.
    now rewrite Hnull.
Qed.

Lemma batch_update_cases_witness :
  let batch :=
    Database.batchUpdateDevice "panel-7"
      (VObj [("cleaningControl/pwmDry", VNum 160)]) Sample.cleaningWorld in
  fst batch = Ret result_ok /\
  Store.presented (snd batch) "devices/panel-7/cleaningControl/pwmDry"
    = VNum 160 /\
  Database.batchUpdateDevice "panel-7" VNull Sample.cleaningWorld
  = (Ret (result_error "Cannot read properties of undefined"),
     Sample.cleaningWorld).
Proof.
  destruct (batch_update_cases Sample.cleaningWorld "panel-7") as (Hone & Hnull).
  destruct (Hone "cleaningControl/pwmDry" (VNum 160) eq_refl)
    as (_ & Hok & Hread).
  split; [exact Hok|]. split; [exact Hread|].
  exact (Hnull VNull eq_refl).
Defined.

Lemma addHistoricalData_accepted (w : World) (deviceId date : string)
    (data : value) :
  accepts w ->
  Database.addHistoricalData deviceId date data w
  = (Ret result_ok,
     with_database
       (Store.tree_set (database w)
          (Store.pieces ("devices/" ++ deviceId ++ "/historicalData/daily/" ++ date))
          (VObj (Js.assign "timestamp" (VNum (inject_Z (now w)))
                   (Js.own_fields data))))
       (requested (tick w))).
Proof.
  intros Hacc. unfold accepts in Hacc.
  unfold Database.addHistoricalData, try_catch, bind, Store.set, Store.request,
    Date_now, bind.
  cbn [host requests tick]. now rewrite Hacc.
Qed.

Lemma pieces_daily_field (deviceId date field : string) :
  Store.pieces
    ("devices/" ++ deviceId ++ "/historicalData/daily/" ++ date ++ "/" ++ field)
  = (Store.pieces ("devices/" ++ deviceId ++ "/historicalData/daily/" ++ date)
       ++ Store.pieces field)%list.
Proof.
  change ("devices/" ++ deviceId ++ "/historicalData/daily/" ++ date ++ "/" ++ field)
    with ("devices" ++ String "/"
            (deviceId ++ String "/"
               ("historicalData" ++ String "/"
                  ("daily" ++ String "/" (date ++ String "/" field))))).
  change ("devices/" ++ deviceId ++ "/historicalData/daily/" ++ date)
    with ("devices" ++ String "/"
            (deviceId ++ String "/"
               ("historicalData" ++ String "/" ("daily" ++ String "/" date)))).
  rewrite !StoreFacts.pieces_slash. now rewrite <- !app_assoc.
Qed.

(** X27. The entry [addHistoricalData] stores for a day carries the time of the
    call as its [timestamp], whatever timestamp the data brought, and every
    other field of the data as given. *)
Theorem historical_entry_stamped (w : World) (deviceId date : string)
    (fields : list (string * value)) :
  let run := Database.addHistoricalData deviceId date (VObj fields) w in
  let entry field :=
    Store.read (snd run)
      ("devices/" ++ deviceId ++ "/historicalData/daily/" ++ date ++ "/" ++ field) in
  accepts w ->
  fst run = Ret result_ok /\
  entry "timestamp" = VNum (inject_Z (now w)) /\
  (forall field, field <> "timestamp" -> Store.pieces field = [field] ->
     entry field = Store.child (VObj fields) field).
Proof.
  intros run entry Hacc. subst entry run.
  rewrite (addHistoricalData_accepted _ _ _ _ Hacc). cbn [fst snd].
  unfold Store.read. cbn [database with_database requested tick].
  split; [reflexivity|]. split.
  - rewrite pieces_daily_field, StoreFacts.tree_get_set_below.
    cbn [Js.own_fields]. eval_pieces. cbn [Store.tree_get].
    unfold Store.child. cbn [Store.children].
    now rewrite lookup_assign_same.
  - intros field Hfield Hpiece. apply String.eqb_neq in Hfield.
    rewrite pieces_daily_field, StoreFacts.tree_get_set_below, Hpiece.
    cbn [Js.own_fields Store.tree_get].
    unfold Store.child. cbn [Store.children].
    now rewrite lookup_assign_other.
Qed.

Lemma historical_entry_stamped_witness :
  let run :=
    Database.addHistoricalData "panel-7" "2024-05-01"
      (VObj [("kwh", VNum 4); ("timestamp", VNum 1)]) Sample.cleaningWorld in
  fst run = Ret result_ok /\
  Store.read (snd run)
    "devices/panel-7/historicalData/daily/2024-05-01/timestamp" = VNum 9000 /\
  Store.read (snd run)
    "devices/panel-7/historicalData/daily/2024-05-01/kwh" = VNum 4.
Proof.
  destruct (historical_entry_stamped Sample.cleaningWorld "panel-7" "2024-05-01"
              [("kwh", VNum 4); ("timestamp", VNum 1)] eq_refl)
    as (Hok & Hstamp & Hfields).
  split; [exact Hok|]. split; [exact Hstamp|].
  exact (Hfields "kwh" ltac:(discriminate) eq_refl).
Defined.

(** ** The cleaning buttons of the dashboard *)

Lemma startCleaning_accepted (w : World) (deviceId : string) :
  deviceId <> "" -> accepts w ->
  Dashboard.startCleaning (Some deviceId) w
  = (Ret tt,
     with_database
       (Store.tree_update (database w)
          [("devices/" ++ deviceId ++ "/" ++ "cleaningControl/trigger", VNum 1);
           ("devices/" ++ deviceId ++ "/" ++ "cleaningControl/status",
            VStr "cleaning");
           ("devices/" ++ deviceId ++ "/"
              ++ "cleaningControl/currentOperation/startTime",
            VNum (inject_Z (now w)));
           ("devices/" ++ deviceId ++ "/"
              ++ "cleaningControl/currentOperation/progress", VNum 0);
           ("devices/" ++ deviceId ++ "/"
              ++ "cleaningControl/currentOperation/waterUsed", VNum 0)])
       (requested (tick w))).
Proof.
  intros Hid Hacc. unfold accepts in Hacc. apply String.eqb_neq in Hid.
  unfold Dashboard.startCleaning, Dashboard.noDevice, Dashboard.selected.
  rewrite Hid.
  unfold Database.batchUpdateDevice, Database.formatUpdates, try_catch, bind,
    prop, Date_now, Store.update, Store.request, bind.
  cbn [Js.nullish Js.keys Js.own_fields map fst fold_left host requests tick].
  rewrite Hacc. assign_list. reflexivity.
Qed.

Lemma stopCleaning_accepted (w : World) (deviceId : string) :
  deviceId <> "" -> accepts w ->
  Dashboard.stopCleaning (Some deviceId) w
  = (Ret tt,
     with_database
       (Store.tree_update (database w)
          [("devices/" ++ deviceId ++ "/" ++ "cleaningControl/trigger", VNum 0);
           ("devices/" ++ deviceId ++ "/" ++ "cleaningControl/status",
            VStr "idle")])
       (requested w)).
Proof.
  intros Hid Hacc. unfold accepts in Hacc. apply String.eqb_neq in Hid.
  unfold Dashboard.stopCleaning, Dashboard.noDevice, Dashboard.selected.
  rewrite Hid.
  unfold Database.batchUpdateDevice, Database.formatUpdates, try_catch, bind,
    prop, Store.update, Store.request, bind.
  cbn [Js.nullish Js.keys Js.own_fields map fst fold_left host requests].
  rewrite Hacc. assign_list. reflexivity.
Qed.

(** X28. The cleaning buttons.  For the selected device and a store that accepts
    the write, the start button sets the trigger to 1 and the status to
    ['cleaning'] and starts a fresh operation at the time of the click, with
    progress 0 and no water used; unlike the controller's start command it
    leaves the method and the control's [lastUpdated] as they were.  The
    stop button sets the trigger to 0 and the status to ['idle'] and keeps
    the start time and the progress of the operation.  Without a selected
    device the buttons do nothing at all, and a write that the store refuses
    is swallowed: the button returns and the database is as it was. *)
Theorem dashboard_buttons (w : World) (deviceId : string) :
  let start := Dashboard.startCleaning (Some deviceId) w in
  let stop := Dashboard.stopCleaning (Some deviceId) w in
  let control w' path :=
    Store.read w' ("devices/" ++ deviceId ++ "/cleaningControl/" ++ path) in
  (deviceId <> "" -> accepts w ->
   (control (snd start) "trigger" = VNum 1 /\
    control (snd start) "status" = VStr "cleaning" /\
    control (snd start) "currentOperation/startTime" = VNum (inject_Z (now w)) /\
    control (snd start) "currentOperation/progress" = VNum 0 /\
    control (snd start) "currentOperation/waterUsed" = VNum 0 /\
    control (snd start) "method" = control w "method" /\
    control (snd start) "lastUpdated" = control w "lastUpdated") /\
   (control (snd stop) "trigger" = VNum 0 /\
    control (snd stop) "status" = VStr "idle" /\
    control (snd stop) "currentOperation/startTime"
      = control w "currentOperation/startTime" /\
    control (snd stop) "currentOperation/progress"
      = control w "currentOperation/progress")) /\
  (deviceId = "" -> start = (Ret tt, w) /\ stop = (Ret tt, w)) /\
  (Dashboard.startCleaning None w = (Ret tt, w) /\
   Dashboard.stopCleaning None w = (Ret tt, w)) /\
  (forall message, rejects (host w) (requests w) = Some message ->
     fst start = Ret tt /\ database (snd start) = database w /\
     fst stop = Ret tt /\ database (snd stop) = database w).
Proof.
  intros start stop control. subst start stop control.
  split; [|split; [|split]].
  - intros Hid Hacc.
    rewrite (startCleaning_accepted _ _ Hid Hacc),
      (stopCleaning_accepted _ _ Hid Hacc).
    read_updates. repeat split; store_read; reflexivity.
  - intros ->. split; reflexivity.
  - split; reflexivity.
  - intros message Hrej.
    unfold Dashboard.startCleaning, Dashboard.stopCleaning.
    destruct (Dashboard.noDevice (Some deviceId));
      [repeat split; reflexivity|].
    unfold Database.batchUpdateDevice, try_catch, bind, prop, Date_now,
      Store.update, Store.request, bind.
    cbn [Js.nullish host requests tick]. rewrite Hrej.
    repeat split; reflexivity.
Qed.

Lemma dashboard_buttons_witness :
  (Store.read (snd (Dashboard.startCleaning (Some "panel-7") Sample.emptyWorld))
     "devices/panel-7/cleaningControl/status" = VStr "cleaning" /\
   Store.read (snd (Dashboard.stopCleaning (Some "panel-7") Sample.cleaningWorld))
     "devices/panel-7/cleaningControl/status" = VStr "idle") /\
  database (snd (Dashboard.startCleaning (Some "panel-7") Sample.refusedWorld))
    = database Sample.refusedWorld.
Proof.
  split; [split|].
  - destruct (dashboard_buttons Sample.emptyWorld "panel-7") as (Hpressed & _).
    destruct (Hpressed ltac:(discriminate) eq_refl) as ((_ & Hstatus & _) & _).
    exact Hstatus.
  - destruct (dashboard_buttons Sample.cleaningWorld "panel-7") as (Hpressed & _).
    destruct (Hpressed ltac:(discriminate) eq_refl) as (_ & (_ & Hstatus & _)).
    exact Hstatus.
  - destruct (dashboard_buttons Sample.refusedWorld "panel-7")
      as (_ & _ & _ & Hrefused).
    destruct (Hrefused "PERMISSION_DENIED" eq_refl) as (_ & Hkept & _).
    exact Hkept.
Defined.

(** ** The decision rules: defaults and the remaining cases *)

(** A read that the store refuses makes two parallel reads fail. *)
Lemma both_gets_rejected (w : World) (p1 p2 : string) :
  (exists message, rejects (host w) (requests w) = Some message)
  \/ (exists message, rejects (host w) (S (requests w)) = Some message) ->
  exists message,
    both (Store.get p1) (Store.get p2) w
    = (Throw message, requested (requested w)).
Proof.
  unfold both, Store.get, Store.request, bind. cbn.
  intros [[m H] | [m H]].
  - rewrite H. cbn.
    destruct (rejects (host w) (S (requests w))); eexists; reflexivity.
  - destruct (rejects (host w) (requests w)); cbn; rewrite H;
      eexists; reflexivity.
Qed.

Lemma caught_never_throws {A : Type} (m : M A) (a : A) (w : World)
    (message : string) :
  fst (try_catch m (fun _ => ret a) w) <> Throw message.
Proof.
  unfold try_catch. now destruct (m w) as [[r|e|] w'].
Qed.

(** X29. The decisions fall back to the cautious answer: when a read is refused
    or one of the two nodes a rule reads is missing, no cleaning is
    triggered and the method is ['dry']; neither rule ever throws; and a
    dust level of at most 100 gives ['dry'] whatever the temperature is and
    whatever the store answers. *)
Theorem decision_defaults (w : World) (deviceId : string) :
  let autoSettings :=
    Store.read w ("devices/" ++ deviceId ++ "/cleaningControl/autoSettings") in
  let panelStatus := Store.read w ("devices/" ++ deviceId ++ "/panelStatus") in
  let environment := Store.read w ("devices/" ++ deviceId ++ "/environment") in
  let trigger := fst (Esp32Control.shouldTriggerAutoCleaning deviceId w) in
  let method := fst (Esp32Control.selectCleaningMethod deviceId w) in
  ((exists message, rejects (host w) (requests w) = Some message)
   \/ (exists message, rejects (host w) (S (requests w)) = Some message) ->
   trigger = Ret false /\ method = Ret "dry") /\
  (Store.snapshot_exists autoSettings = false
   \/ Store.snapshot_exists panelStatus = false -> trigger = Ret false) /\
  (Store.snapshot_exists panelStatus = false
   \/ Store.snapshot_exists environment = false -> method = Ret "dry") /\
  (forall message, trigger <> Throw message /\ method <> Throw message) /\
  (forall d, Js.get_field panelStatus "dustLevel" = VNum d -> d <= 100 ->
     method = Ret "dry").
Proof.
  intros autoSettings panelStatus environment trigger method.
  subst autoSettings panelStatus environment trigger method.
  split; [|split; [|split; [|split]]]; [split| | |split|].
  - unfold Esp32Control.shouldTriggerAutoCleaning, try_catch, bind.
    destruct (both_gets_rejected w
      ("devices/" ++ deviceId ++ "/cleaningControl/autoSettings")
      ("devices/" ++ deviceId ++ "/panelStatus") H) as [m E].
    now rewrite E.
  - unfold Esp32Control.selectCleaningMethod, try_catch, bind.
    destruct (both_gets_rejected w
      ("devices/" ++ deviceId ++ "/panelStatus")
      ("devices/" ++ deviceId ++ "/environment") H) as [m E].
    now rewrite E.
  - intros Hmissing.
    unfold Esp32Control.shouldTriggerAutoCleaning, try_catch, bind.
    destruct (both_gets_cases w
      ("devices/" ++ deviceId ++ "/cleaningControl/autoSettings")
      ("devices/" ++ deviceId ++ "/panelStatus")) as [E|[m E]];
      rewrite E; [|reflexivity].
    destruct Hmissing as [-> | ->]; [reflexivity|].
    now rewrite orb_true_r.
  - intros Hmissing.
    unfold Esp32Control.selectCleaningMethod, try_catch, bind.
    destruct (both_gets_cases w
      ("devices/" ++ deviceId ++ "/panelStatus")
      ("devices/" ++ deviceId ++ "/environment")) as [E|[m E]];
      rewrite E; [|reflexivity].
    destruct Hmissing as [-> | ->]; [reflexivity|].
    now rewrite orb_true_r.
  - apply caught_never_throws.
  - apply caught_never_throws.
  - intros d Hd Hle.
    pose proof (num_field_nonnull _ _ _ Hd) as Hp.
    unfold Esp32Control.selectCleaningMethod, try_catch, bind.
    destruct (both_gets_cases w
      ("devices/" ++ deviceId ++ "/panelStatus")
      ("devices/" ++ deviceId ++ "/environment")) as [E|[m E]];
      rewrite E; [|reflexivity].
    unfold Store.snapshot_exists. rewrite Hp. cbn [negb orb].
    destruct (negb (negb (Js.nullish _))); [reflexivity|].
    rewrite (prop_nonnull _ _ _ Hp), Hd.
    unfold lift, Js.gt, Js.compare. cbn [Js.to_number].
    now rewrite (Qle_bool_true _ _ Hle).
Qed.

Lemma decision_defaults_witness :
  (fst (Esp32Control.shouldTriggerAutoCleaning "panel-7" Sample.refusedWorld)
     = Ret false /\
   fst (Esp32Control.selectCleaningMethod "panel-7" Sample.refusedWorld)
     = Ret "dry") /\
  fst (Esp32Control.shouldTriggerAutoCleaning "panel-9" Sample.thresholdWorld)
    = Ret false /\
  fst (Esp32Control.selectCleaningMethod "panel-9" Sample.thresholdWorld)
    = Ret "dry".
Proof.
  split; [|split].
  - destruct (decision_defaults Sample.refusedWorld "panel-7") as (Hrefused & _).
    apply Hrefused. left. exists "PERMISSION_DENIED". reflexivity.
  - destruct (decision_defaults Sample.thresholdWorld "panel-9")
      as (_ & Hmissing & _).
    exact (Hmissing (or_introl eq_refl)).
  - destruct (decision_defaults Sample.thresholdWorld "panel-9")
      as (_ & _ & Hmissing & _).
    exact (Hmissing (or_introl eq_refl)).
Defined.

(** The reads of a decision, for a store that answers and nodes that
    exist. *)
Ltac run_decision A1 A2 Ha Hb :=
  unfold Esp32Control.shouldTriggerAutoCleaning,
    Esp32Control.selectCleaningMethod, try_catch, bind;
  rewrite (both_gets _ _ _ A1 A2);
  unfold Store.snapshot_exists; rewrite Ha, Hb; cbn [negb orb].

(** X30. The cases of the automatic decision beside the threshold's boundary and
    the three schedules.  With automatic cleaning enabled: a dust level at
    or above the threshold triggers, whatever the schedule says; below the
    threshold, a disabled schedule does not trigger, and neither does a
    schedule that is none of ['daily'], ['weekly'] and ['monthly'], however
    long ago the last cleaning was. *)
Theorem auto_cleaning_cases (w : World) (deviceId : string) (d t : Q) :
  let autoSettings :=
    Store.read w ("devices/" ++ deviceId ++ "/cleaningControl/autoSettings") in
  let panelStatus := Store.read w ("devices/" ++ deviceId ++ "/panelStatus") in
  let run := fst (Esp32Control.shouldTriggerAutoCleaning deviceId w) in
  accepts w -> accepts (requested w) ->
  Js.truthy (Js.get_field autoSettings "enabled") = true ->
  Js.get_field panelStatus "dustLevel" = VNum d ->
  Js.get_field autoSettings "dustThreshold" = VNum t ->
  (t <= d -> run = Ret true) /\
  (d < t -> Js.truthy (Js.get_field autoSettings "scheduleEnabled") = false ->
   run = Ret false) /\
  (d < t -> forall lastCleaning schedule,
     Js.get_field autoSettings "lastCleaning" = VNum lastCleaning ->
     Js.get_field autoSettings "schedule" = VStr schedule ->
     schedule <> "daily" -> schedule <> "weekly" -> schedule <> "monthly" ->
     run = Ret false).
Proof.
  intros autoSettings panelStatus run A1 A2 Hon Hd Ht.
  subst autoSettings panelStatus run.
  pose proof (truthy_field_nonnull _ _ Hon) as Ha.
  pose proof (num_field_nonnull _ _ _ Hd) as Hp.
  run_decision A1 A2 Ha Hp.
  rewrite !(prop_nonnull _ _ _ Ha), Hon. cbn.
  rewrite !(prop_nonnull _ _ _ Hp), !(prop_nonnull _ _ _ Ha), Hd, Ht. cbn.
  split; [|split].
  - intros Hle. now rewrite (Qle_bool_true _ _ Hle).
  - intros Hlt Hoff. rewrite (Qle_bool_false _ _ Hlt). cbn.
    rewrite !(prop_nonnull _ _ _ Ha), Hoff. reflexivity.
  - intros Hlt lastCleaning schedule Hlast Hschedule Hd1 Hd2 Hd3.
    rewrite (Qle_bool_false _ _ Hlt). cbn.
    rewrite !(prop_nonnull _ _ _ Ha), Hlast.
    apply String.eqb_neq in Hd1, Hd2, Hd3.
    destruct (Js.truthy (Js.get_field _ "scheduleEnabled"));
      [|reflexivity].
    destruct (Js.truthy (VNum lastCleaning)); [|reflexivity].
    cbn. rewrite !(prop_nonnull _ _ _ Ha), Hlast. cbn.
    rewrite !(prop_nonnull _ _ _ Ha), Hschedule. cbn.
    now rewrite Hd1, Hd2, Hd3.
Qed.

Lemma auto_cleaning_cases_witness :
  fst (Esp32Control.shouldTriggerAutoCleaning "panel-7" Sample.yearlyWorld)
    = Ret false.
Proof.
  destruct (auto_cleaning_cases Sample.yearlyWorld "panel-7" 20 100
              eq_refl eq_refl eq_refl eq_refl eq_refl) as (_ & _ & Hunknown).
  exact (Hunknown eq_refl 1000 "yearly" eq_refl eq_refl
           ltac:(discriminate) ltac:(discriminate) ltac:(discriminate)).
Defined.
